(** * Stellar anchor service: a shallow embedding of the TypeScript sources

    The development follows the layout of [packages/anchor/src]:

    - [Js]        the few JavaScript primitives the sources rely on
                  (strings, insertion-ordered [Map], object literals);
    - [Errors]    [errors.ts]: [SepError] and its factories;
    - [Nonce]     [auth/nonce-store.ts];
    - [Auth]      [auth/auth-issuer.ts];
    - [Transfers] [transfer/types.ts] and [transfer/transfer-store.ts];
    - [Sep24Service] [transfer/sep24/sep24-service.ts] and the calls
                  [transfer/transfer-manager.ts] forwards to it;
    - [Toml]      [toml/publisher.ts];
    - [Server]    [config/types.ts] and the mount bookkeeping of
                  [anchor-server.ts];
    - [Http]      the handlers of [modules/sep24/router.ts] and
                  [modules/sep6/router.ts] that the properties mention;
    - [Spec]      the predicates in which the properties are stated;
    - [Samples]   concrete data on which the definitions are evaluated.

    Time is a [Z] (milliseconds since the epoch, as [Date.getTime]); every
    reading of the clock ([new Date()], [Date.now()]) is an explicit
    argument.  Random identifiers ([randomBytes]) are explicit arguments
    too.  Functions of third-party packages (the Stellar SDK, jsonwebtoken,
    the WHATWG [URL] class) are section variables, and so is
    [String.prototype.toUpperCase], whose value is given by the Unicode
    case mapping tables.

    A JavaScript string is represented by the bytes of its UTF-8 encoding
    (as the string literals of this file are), so comparison, [startsWith],
    [split] on an ASCII separator and concatenation are those of the byte
    strings; [length] and [trim] are defined on the encoding. *)

From stdpp Require Import base option list gmap strings pretty sorting.
From Stdlib Require Import ZArith Ascii String Lia Permutation Sorted.

Local Open Scope Z_scope.
Local Open Scope string_scope.

(** ** JavaScript primitives *)

Module Js.

(** [s.length]: the number of UTF-16 code units of the string.  In the
    UTF-8 encoding a byte [10xxxxxx] continues a character, and a
    character of four bytes (first byte [11110xxx]) takes two code units;
    every other character takes one. *)
Definition codeUnits (c : ascii) : nat :=
  let n := nat_of_ascii c in
  if ((128 <=? n) && (n <? 192))%nat then 0%nat
  else if (240 <=? n)%nat then 2%nat
  else 1%nat.

Fixpoint str_length (s : string) : nat :=
  match s with
  | EmptyString => 0%nat
  | String c s' => (codeUnits c + str_length s')%nat
  end.

(** The characters [String.prototype.trim] removes, the white space and
    line terminators of ECMAScript: U+0009 to U+000D, U+0020, U+00A0,
    U+1680, U+2000 to U+200A, U+2028, U+2029, U+202F, U+205F, U+3000 and
    U+FEFF, each as its UTF-8 bytes. *)
Definition bytes (l : list nat) : string :=
  fold_right (fun n r => String (ascii_of_nat n) r) EmptyString l.

Definition whiteSpace : list string :=
  List.map bytes
    ([[9]; [10]; [11]; [12]; [13]; [32]; [194; 160]; [225; 154; 128];
      [226; 128; 128]; [226; 128; 129]; [226; 128; 130]; [226; 128; 131];
      [226; 128; 132]; [226; 128; 133]; [226; 128; 134]; [226; 128; 135];
      [226; 128; 136]; [226; 128; 137]; [226; 128; 138];
      [226; 128; 168]; [226; 128; 169]; [226; 128; 175]; [226; 129; 159];
      [227; 128; 128]; [239; 187; 191]])%nat.

Definition isWhiteSpace (s : string) : bool :=
  existsb (String.eqb s) whiteSpace.

(** [s.trimStart()]: a white-space character is one, two or three bytes
    long. *)
Fixpoint trimStart (s : string) : string :=
  match s with
  | EmptyString => EmptyString
  | String c1 s1 =>
      if isWhiteSpace (String c1 EmptyString) then trimStart s1
      else
        match s1 with
        | EmptyString => s
        | String c2 s2 =>
            if isWhiteSpace (String c1 (String c2 EmptyString)) then
              trimStart s2
            else
              match s2 with
              | EmptyString => s
              | String c3 s3 =>
                  if isWhiteSpace
                       (String c1 (String c2 (String c3 EmptyString)))
                  then trimStart s3
                  else s
              end
        end
  end.

(** [s.trimEnd()]: what is left of [s] once the rest is trimmed is dropped
    when it is one white-space character. *)
Fixpoint trimEnd (s : string) : string :=
  match s with
  | EmptyString => EmptyString
  | String c s' =>
      let r := String c (trimEnd s') in
      if isWhiteSpace r then EmptyString else r
  end.

(** [s.trim()] *)
Definition trim (s : string) : string := trimEnd (trimStart s).

(** [s.startsWith(p)] *)
Definition startsWith (s p : string) : bool := String.prefix p s.

(** [s.split(sep)] for a one-character separator. *)
Fixpoint split (sep : ascii) (s : string) : list string :=
  match s with
  | EmptyString => [EmptyString]
  | String c s' =>
      if Ascii.eqb c sep then EmptyString :: split sep s'
      else match split sep s' with
           | [] => [String c EmptyString]
           | p :: ps => String c p :: ps
           end
  end.

(** Truthiness of a string value: the empty string is falsy. *)
Definition truthy (s : string) : bool := negb (String.eqb s EmptyString).

(** Truthiness of a possibly [undefined] string. *)
Definition truthy_opt (o : option string) : bool :=
  match o with Some s => truthy s | None => false end.

(** [arr.includes(x)] on strings. *)
Definition includes (l : list string) (x : string) : bool :=
  existsb (String.eqb x) l.

(** An insertion-ordered [Map<string, V>]: [set] on a present key
    replaces the value in place, on an absent key appends.  The same
    list, read through [Object.keys] or [Object.entries], stands for the
    own properties of an object used as a record. *)
Section Map.
Context {V : Type}.

Fixpoint map_get (m : list (string * V)) (k : string) : option V :=
  match m with
  | [] => None
  | (k', v) :: m' => if String.eqb k k' then Some v else map_get m' k
  end.

Fixpoint map_set (m : list (string * V)) (k : string) (v : V)
  : list (string * V) :=
  match m with
  | [] => [(k, v)]
  | (k', v') :: m' =>
      if String.eqb k k' then (k', v) :: m'
      else (k', v') :: map_set m' k v
  end.

Fixpoint map_delete (m : list (string * V)) (k : string)
  : list (string * V) :=
  match m with
  | [] => []
  | (k', v') :: m' =>
      if String.eqb k k' then m' else (k', v') :: map_delete m' k
  end.

Definition map_has (m : list (string * V)) (k : string) : bool :=
  match map_get m k with Some _ => true | None => false end.

Definition map_values (m : list (string * V)) : list V := m.*2.

(** [obj[key]] on a plain object: an own property, else a property
    inherited from [Object.prototype], else [undefined].  The inherited
    values are functions, and for [__proto__] the prototype object: all
    truthy, none with a property the sources read. *)
Inductive property :=
| Own (v : V)
| Inherited
| Undefined.

Definition prop_get (o : list (string * V)) (k : string) : property :=
  match map_get o k with
  | Some v => Own v
  | None =>
      if existsb (String.eqb k)
           ["constructor"; "__defineGetter__"; "__defineSetter__";
            "hasOwnProperty"; "__lookupGetter__"; "__lookupSetter__";
            "isPrototypeOf"; "propertyIsEnumerable"; "toString"; "valueOf";
            "__proto__"; "toLocaleString"]
      then Inherited else Undefined
  end.
End Map.

(** JSON values carried by response bodies. *)
Inductive json :=
| JString (s : string)
| JNumber (n : Z)
| JBool (b : bool).

(** An object literal: keys in insertion order; [{...a, ...b}] is
    [spread a b]. *)
Definition object := list (string * json).

Definition spread (a b : object) : object :=
  fold_left (fun o kv => map_set o kv.1 kv.2) b a.

Definition has_key (o : object) (k : string) : bool := map_has o k.

End Js.

(** Outcome of a call that may throw. *)
Inductive result (E A : Type) :=
| Ok (a : A)
| Throw (e : E).
Arguments Ok {E A} a.
Arguments Throw {E A} e.

Definition isOk {E A} (r : result E A) : bool :=
  match r with Ok _ => true | Throw _ => false end.

(** ** errors.ts *)

Module Errors.
Import Js.

Record SepError := mkSepError {
  message : string;
  code : string;
  status : Z;
  details : object
}.

(** [toJSON()]: [{ error: this.message, code: this.code, ...this.details }] *)
Definition toJSON (e : SepError) : object :=
  spread [("error", JString (message e)); ("code", JString (code e))]
         (details e).

Definition badRequest (msg : string) : SepError :=
  mkSepError msg "bad_request" 400 [].
Definition unauthorized (msg : string) : SepError :=
  mkSepError msg "unauthorized" 401 [].
Definition forbidden (msg : string) : SepError :=
  mkSepError msg "forbidden" 403 [].
Definition notFound (msg : string) : SepError :=
  mkSepError msg "not_found" 404 [].
Definition conflict (msg : string) : SepError :=
  mkSepError msg "conflict" 409 [].

(** What a [catch (error)] block may receive: a [SepError], or a plain
    [Error] (which has a message and no [status]). *)
Inductive exn :=
| PlainError (msg : string)
| Sep (e : SepError).

(** The wrapping every router handler applies in its [catch]:
    [error instanceof SepError ? error
       : new SepError(error?.message ?? ..., 'error', error?.status ?? dflt)] *)
Definition toSepError (dflt : Z) (e : exn) : SepError :=
  match e with
  | Sep s => s
  | PlainError m => mkSepError m "error" dflt []
  end.

(** An HTTP response. *)
Inductive body :=
| JsonBody (o : object)
| TextBody (s : string)
| RedirectTo (url : string).

Record response := mkResponse { res_status : Z; res_body : body }.

(** [res.status(sepError.status).json(sepError.toJSON())] *)
Definition respondError (dflt : Z) (e : exn) : response :=
  let s := toSepError dflt e in
  mkResponse (status s) (JsonBody (toJSON s)).

(** The envelope shape of section 6.2: a JSON object with both an
    [error] and a [code] member. *)
Definition is_error_envelope (r : response) : bool :=
  match res_body r with
  | JsonBody o => has_key o "error" && has_key o "code"
  | _ => false
  end.

End Errors.


(** ** auth/nonce-store.ts *)

Module Nonce.

(** [ttl = 300_000]: five minutes, in milliseconds. *)
Definition ttl : Z := 300000.

(** The store is a [Map<string, number>] from nonce to insertion time;
    nothing depends on its iteration order. *)
Abbreviation NonceStore := (gmap string Z).

Definition empty : NonceStore := ∅.

(** [has(nonce)] *)
Definition has (s : NonceStore) (nonce : string) : bool :=
  bool_decide (is_Some (s !! nonce)).

(** [add(nonce)]: refuses a nonce already present. *)
Definition add (s : NonceStore) (now : Z) (nonce : string)
  : bool * NonceStore :=
  if has s nonce then (false, s) else (true, <[nonce := now]> s).

(** [clear()] *)
Definition clear (s : NonceStore) : NonceStore := ∅.

(** [clearExpired()]: deletes every entry with [now - timestamp > ttl]. *)
Definition clearExpired (s : NonceStore) (now : Z) : NonceStore :=
  filter (fun kv => ¬ (now - kv.2 > ttl)) s.

End Nonce.

(** ** auth/auth-issuer.ts *)

Module Auth.
Import Js Errors.

Record JwtPayload := mkJwtPayload {
  iss : string;
  sub : string;
  iat : Z;
  exp : Z
}.

(** The value of a manage-data operation: a [Buffer] (kept as its base64
    text) or a string. *)
Inductive OpValue :=
| Buf (base64 : string)
| Str (s : string).

Record Operation := mkOperation {
  op_type : string;
  op_value : option OpValue
}.

(** What [WebAuth.readChallengeTx] returns, as far as the issuer reads it. *)
Record ChallengeRead := mkChallengeRead {
  tx_operations : list Operation;
  clientAccountID : string
}.

(** A Horizon account record. *)
Record AccountData := mkAccountData {
  signers : list (string * Z);
  med_threshold : Z
}.

Record VerifyResult := mkVerifyResult {
  token : string;
  account : string
}.

(** [tokenExpiration = 24 * 60 * 60] seconds. *)
Definition tokenExpiration : Z := 24 * 60 * 60.

(** [extractNonceFromTransaction]: the value of the first operation when
    that is a manage-data operation with a truthy value. *)
Definition extractNonceFromTransaction (ops : list Operation)
  : option string :=
  match ops with
  | firstOp :: _ =>
      if String.eqb (op_type firstOp) "manageData" then
        match op_value firstOp with
        | Some (Buf b) => Some b
        | Some (Str s) => if truthy s then Some s else None
        | None => None
        end
      else None
  | [] => None
  end.

Section Issuer.

(** The third-party functions, with the issuer's fixed arguments (server
    key, network passphrase, domain) left implicit.  A thrown exception is
    a [Throw] of its message. *)
Variable buildChallengeTx : Z -> string -> string -> string.
Variable readChallengeTx : Z -> string -> result string ChallengeRead.
Variable loadAccount : string -> option AccountData.
Variable verifyChallengeTxSigners :
  Z -> string -> list string -> result string (list string).
Variable jwt_sign : JwtPayload -> string -> string.
Variable jwt_verify : Z -> string -> string -> option JwtPayload.

Variable domain : string.
Variable jwtSecret : string.

(** [createChallenge(clientPublicKey)]; [entropy] stands for the random
    bytes the SDK draws. *)
Definition createChallenge (ns : Nonce.NonceStore) (now : Z)
    (entropy clientPublicKey : string)
  : result exn (string * Nonce.NonceStore) :=
  let transactionXdr := buildChallengeTx now entropy clientPublicKey in
  match readChallengeTx now transactionXdr with
  | Throw m => Throw (PlainError m)
  | Ok readResult =>
      match extractNonceFromTransaction (tx_operations readResult) with
      | None => Throw (PlainError "Invalid challenge: nonce not found")
      | Some nonce =>
          if truthy nonce then
            Ok (transactionXdr, (Nonce.add ns now nonce).2)
          else Throw (PlainError "Invalid challenge: nonce not found")
      end
  end.

(** The weight summed over [accountData.signers] that are in
    [signedByList]. *)
Definition signatureWeight (signedByList : list string)
    (sgs : list (string * Z)) : Z :=
  fold_left (fun w s => if includes signedByList s.1 then w + s.2 else w)
            sgs 0.

(** [verifyChallenge(signedChallenge)].  The nonce store is read through
    [has] only, so it is returned as it was received. *)
Definition verifyChallenge (ns : Nonce.NonceStore) (now : Z)
    (signedChallenge : string)
  : result exn VerifyResult * Nonce.NonceStore :=
  match readChallengeTx now signedChallenge with
  | Throw m => (Throw (PlainError m), ns)
  | Ok res =>
      let clientPublicKey := clientAccountID res in
      let accountData := loadAccount clientPublicKey in
      let accountSigners :=
        match accountData with
        | Some d => (signers d).*1
        | None => [clientPublicKey]
        end in
      match verifyChallengeTxSigners now signedChallenge accountSigners with
      | Throw m => (Throw (PlainError m), ns)
      | Ok signedByList =>
          let checkNonce :=
            match extractNonceFromTransaction (tx_operations res) with
            | None =>
                (Throw (PlainError "Invalid challenge: nonce not found"), ns)
            | Some nonce =>
                if negb (truthy nonce) then
                  (Throw (PlainError "Invalid challenge: nonce not found"), ns)
                else if negb (Nonce.has ns nonce) then
                  (Throw (PlainError "Invalid or expired nonce"), ns)
                else
                  let nowSec := now / 1000 in
                  let payload :=
                    mkJwtPayload domain clientPublicKey nowSec
                                 (nowSec + tokenExpiration) in
                  (Ok (mkVerifyResult (jwt_sign payload jwtSecret)
                                      clientPublicKey), ns)
            end in
          match accountData with
          | Some d =>
              let mediumThreshold := med_threshold d in
              let weight := signatureWeight signedByList (signers d) in
              if Z.ltb weight mediumThreshold then
                (Throw (PlainError
                   ("Invalid challenge: signature weight " +:+ pretty weight
                    +:+ " is less than required threshold "
                    +:+ pretty mediumThreshold)),
                 ns)
              else checkNonce
          | None => checkNonce
          end
      end
  end.

(** The outcome of the [requireAuth()] middleware: it either calls
    [next()] with [req.user] set, or answers the request itself. *)
Inductive GuardOutcome :=
| Next (user : JwtPayload)
| Respond (r : response).

(** [requireAuth()], applied to the [Authorization] header of a request. *)
Definition requireAuth (now : Z) (authorization : option string)
  : GuardOutcome :=
  match authorization with
  | None =>
      Respond (mkResponse 403
        (JsonBody [("error", JString "Missing authorization header")]))
  | Some authHeader =>
      if negb (truthy authHeader) then
        Respond (mkResponse 403
          (JsonBody [("error", JString "Missing authorization header")]))
      else
        match split " " authHeader with
        | [scheme; tok] =>
            if String.eqb scheme "Bearer" then
              match jwt_verify now tok jwtSecret with
              | Some decoded => Next decoded
              | None =>
                  Respond (mkResponse 401
                    (JsonBody [("error", JString "Invalid or expired token")]))
              end
            else
              Respond (mkResponse 403
                (JsonBody
                   [("error", JString "Invalid authorization header format")]))
        | _ =>
            Respond (mkResponse 403
              (JsonBody
                 [("error", JString "Invalid authorization header format")]))
        end
  end.

End Issuer.

End Auth.


(** ** transfer/types.ts *)

Module Transfers.
Import Js Errors.

Inductive TransferKind := deposit | withdrawal.

Inductive TransferMode := interactive.

(** The wire values of [enum TransferStatus]. *)
Inductive TransferStatus :=
| INCOMPLETE
| PENDING_USER_TRANSFER_START
| PENDING_EXTERNAL
| COMPLETED
| ERROR
| REFUNDED
| PENDING_USER
| PENDING_ANCHOR.

(** Both [INITIATING] and [INTERACTIVE] are the wire value ['incomplete']. *)
Definition INITIATING : TransferStatus := INCOMPLETE.
Definition INTERACTIVE : TransferStatus := INCOMPLETE.

Definition wire (s : TransferStatus) : string :=
  match s with
  | INCOMPLETE => "incomplete"
  | PENDING_USER_TRANSFER_START => "pending_user_transfer_start"
  | PENDING_EXTERNAL => "pending_external"
  | COMPLETED => "completed"
  | ERROR => "error"
  | REFUNDED => "refunded"
  | PENDING_USER => "pending_user"
  | PENDING_ANCHOR => "pending_anchor"
  end.

#[global] Instance TransferKind_eq_dec : EqDecision TransferKind.
Proof. solve_decision. Defined.

#[global] Instance TransferStatus_eq_dec : EqDecision TransferStatus.
Proof. solve_decision. Defined.

Record InteractiveToken := mkInteractiveToken {
  token : string;
  tok_createdAt : Z;
  expiresAt : Z;
  used : bool
}.

(** Token objects live in the JavaScript heap: a transfer holds a
    reference, and the shallow copies [{ ...transfer }] made by the store
    share it. *)
Abbreviation ref := positive.
Abbreviation Heap := (gmap positive InteractiveToken).

Record Transfer := mkTransfer {
  id : string;
  kind : TransferKind;
  mode : TransferMode;
  status : TransferStatus;
  assetCode : string;
  assetIssuer : option string;
  account : string;
  amount : option string;
  interactiveToken : option ref;
  interactiveUrl : option string;
  more_info_url : option string;
  externalTransactionId : option string;
  stellarTransactionId : option string;
  message : option string;
  createdAt : Z;
  updatedAt : Z;
  completedAt : option Z;
  metadata : option (list (string * option string))
}.

(** [Partial<Transfer>]: [None] is an absent key.  For an optional field
    [Some None] is a key present with the value [undefined]. *)
Record TransferUpdates := mkTransferUpdates {
  u_id : option string;
  u_kind : option TransferKind;
  u_mode : option TransferMode;
  u_status : option TransferStatus;
  u_assetCode : option string;
  u_assetIssuer : option (option string);
  u_account : option string;
  u_amount : option (option string);
  u_interactiveToken : option (option ref);
  u_interactiveUrl : option (option string);
  u_more_info_url : option (option string);
  u_externalTransactionId : option (option string);
  u_stellarTransactionId : option (option string);
  u_message : option (option string);
  u_createdAt : option Z;
  u_updatedAt : option Z;
  u_completedAt : option (option Z);
  u_metadata : option (option (list (string * option string)))
}.

(** The empty object literal [{}]. *)
Definition no_updates : TransferUpdates :=
  mkTransferUpdates None None None None None None None None None
                    None None None None None None None None None.

(** A key of the right operand wins: [over b a] is [b] when present. *)
Definition over {A} (b a : option A) : option A :=
  match b with Some v => Some v | None => a end.

(** [{ ...a, ...b }] on partial transfers. *)
Definition spread_updates (a b : TransferUpdates) : TransferUpdates :=
  {| u_id := over (u_id b) (u_id a);
     u_kind := over (u_kind b) (u_kind a);
     u_mode := over (u_mode b) (u_mode a);
     u_status := over (u_status b) (u_status a);
     u_assetCode := over (u_assetCode b) (u_assetCode a);
     u_assetIssuer := over (u_assetIssuer b) (u_assetIssuer a);
     u_account := over (u_account b) (u_account a);
     u_amount := over (u_amount b) (u_amount a);
     u_interactiveToken := over (u_interactiveToken b) (u_interactiveToken a);
     u_interactiveUrl := over (u_interactiveUrl b) (u_interactiveUrl a);
     u_more_info_url := over (u_more_info_url b) (u_more_info_url a);
     u_externalTransactionId :=
       over (u_externalTransactionId b) (u_externalTransactionId a);
     u_stellarTransactionId :=
       over (u_stellarTransactionId b) (u_stellarTransactionId a);
     u_message := over (u_message b) (u_message a);
     u_createdAt := over (u_createdAt b) (u_createdAt a);
     u_updatedAt := over (u_updatedAt b) (u_updatedAt a);
     u_completedAt := over (u_completedAt b) (u_completedAt a);
     u_metadata := over (u_metadata b) (u_metadata a) |}.

(** [{ ...existing, ...updates }] *)
Definition apply_updates (existing : Transfer) (u : TransferUpdates)
  : Transfer :=
  {| id := default (id existing) (u_id u);
     kind := default (kind existing) (u_kind u);
     mode := default (mode existing) (u_mode u);
     status := default (status existing) (u_status u);
     assetCode := default (assetCode existing) (u_assetCode u);
     assetIssuer := default (assetIssuer existing) (u_assetIssuer u);
     account := default (account existing) (u_account u);
     amount := default (amount existing) (u_amount u);
     interactiveToken :=
       default (interactiveToken existing) (u_interactiveToken u);
     interactiveUrl := default (interactiveUrl existing) (u_interactiveUrl u);
     more_info_url := default (more_info_url existing) (u_more_info_url u);
     externalTransactionId :=
       default (externalTransactionId existing) (u_externalTransactionId u);
     stellarTransactionId :=
       default (stellarTransactionId existing) (u_stellarTransactionId u);
     message := default (message existing) (u_message u);
     createdAt := default (createdAt existing) (u_createdAt u);
     updatedAt := default (updatedAt existing) (u_updatedAt u);
     completedAt := default (completedAt existing) (u_completedAt u);
     metadata := default (metadata existing) (u_metadata u) |}.

Definition set_id (t : Transfer) (i : string) : Transfer :=
  apply_updates t
    (mkTransferUpdates (Some i) None None None None None None None None
                       None None None None None None None None None).

Definition set_updatedAt (t : Transfer) (now : Z) : Transfer :=
  apply_updates t
    (mkTransferUpdates None None None None None None None None None
                       None None None None None None (Some now) None None).

(** [FindByAccountOptions] *)
Record FindByAccountOptions := mkFindByAccountOptions {
  o_assetCode : option string;
  o_kind : option TransferKind;
  o_noOlderThan : option Z;
  o_limit : option Z
}.

(** [Sep24TransferConfig] *)
Record Sep24TransferConfig := mkSep24TransferConfig {
  baseUrl : option string;
  cfg_interactiveUrl : string;
  tokenExpiration : option Z;
  supportedAssets : option (list string)
}.

(** [DepositRequest] and [WithdrawalRequest] (the latter adds [dest] and
    [destExtra]). *)
Record TransferRequest := mkTransferRequest {
  r_assetCode : string;
  r_assetIssuer : option string;
  r_account : string;
  r_amount : option string;
  r_dest : option string;
  r_destExtra : option string
}.

(** [DepositResponse] / [WithdrawalResponse]; [type] is always
    ['interactive_customer_info_needed']. *)
Record InitiateResponse := mkInitiateResponse {
  resp_id : string;
  resp_url : string;
  resp_type : string
}.

(** ** transfer/transfer-store.ts: [InMemoryTransferStore] *)

Record Store := mkStore {
  transfers : list (string * Transfer);
  tokenIndex : gmap string string
}.

Definition empty_store : Store := mkStore [] ∅.

(** The token object a transfer refers to.  (A reference always denotes a
    live object in JavaScript; one outside the heap reads as no token.) *)
Definition tokenOf (h : Heap) (t : Transfer) : option InteractiveToken :=
  match interactiveToken t with
  | Some r => h !! r
  | None => None
  end.

(** [create(transfer)] *)
Definition create (h : Heap) (st : Store) (transfer : Transfer) : Store :=
  let ts := map_set (transfers st) (id transfer) transfer in
  match tokenOf h transfer with
  | Some tk => mkStore ts (<[token tk := id transfer]> (tokenIndex st))
  | None => mkStore ts (tokenIndex st)
  end.

(** [getById(id)] *)
Definition getById (st : Store) (i : string) : option Transfer :=
  map_get (transfers st) i.

(** The stable sort [results.sort((a, b) => b.createdAt - a.createdAt)]:
    newest first, ties in their original order. *)
Fixpoint insert_desc (x : Transfer) (l : list Transfer) : list Transfer :=
  match l with
  | [] => [x]
  | y :: l' =>
      if (createdAt y <=? createdAt x)%Z then x :: y :: l'
      else y :: insert_desc x l'
  end.

Definition sort_desc (l : list Transfer) : list Transfer :=
  foldr insert_desc [] l.

(** The three optional filters, each applied when its option is truthy. *)
Definition filter_assetCode (o : option string) (l : list Transfer)
  : list Transfer :=
  match o with
  | Some c =>
      if truthy c then List.filter (fun t => String.eqb (assetCode t) c) l
      else l
  | None => l
  end.

Definition filter_kind (o : option TransferKind) (l : list Transfer)
  : list Transfer :=
  match o with
  | Some k => List.filter (fun t => bool_decide (kind t = k)) l
  | None => l
  end.

Definition filter_noOlderThan (o : option Z) (l : list Transfer)
  : list Transfer :=
  match o with
  | Some d => List.filter (fun t => (d <=? createdAt t)%Z) l
  | None => l
  end.

(** [if (options?.limit && options.limit > 0) results.slice(0, limit)] *)
Definition apply_limit (o : option Z) (l : list Transfer) : list Transfer :=
  match o with
  | Some n => if (0 <? n)%Z then firstn (Z.to_nat n) l else l
  | None => l
  end.

(** [listByAccount(account, options)]; no options is [None]. *)
Definition listByAccount (st : Store) (acct : string)
    (options : option FindByAccountOptions) : list Transfer :=
  let results :=
    List.filter (fun t => String.eqb (account t) acct)
                (map_values (transfers st)) in
  let results := filter_assetCode (options ≫= o_assetCode) results in
  let results := filter_kind (options ≫= o_kind) results in
  let results := filter_noOlderThan (options ≫= o_noOlderThan) results in
  let results := sort_desc results in
  apply_limit (options ≫= o_limit) results.

(** [getByInteractiveToken(token)] *)
Definition getByInteractiveToken (st : Store) (tok : string)
  : option Transfer :=
  match tokenIndex st !! tok with
  | Some transferId =>
      if truthy transferId then getById st transferId else None
  | None => None
  end.

(** [getByStellarTransactionId] and [getByExternalTransactionId]: the first
    transfer, in insertion order, with that id. *)
Definition getByStellarTransactionId (st : Store) (txid : string)
  : option Transfer :=
  List.find (fun t => bool_decide (stellarTransactionId t = Some txid))
            (map_values (transfers st)).

Definition getByExternalTransactionId (st : Store) (txid : string)
  : option Transfer :=
  List.find (fun t => bool_decide (externalTransactionId t = Some txid))
            (map_values (transfers st)).

(** [update(id, updates)]: [null] for an unknown id; otherwise
    [{ ...existing, ...updates, id, updatedAt: new Date() }] replaces the
    entry, and the token index is written when [updates] carries a token. *)
Definition update (h : Heap) (st : Store) (now : Z) (i : string)
    (updates : TransferUpdates) : option Transfer * Store :=
  match map_get (transfers st) i with
  | None => (None, st)
  | Some existing =>
      let updated :=
        set_updatedAt (set_id (apply_updates existing updates) i) now in
      let ts := map_set (transfers st) i updated in
      let idx :=
        match u_interactiveToken updates with
        | Some (Some _) =>
            match tokenOf h updated with
            | Some tk => <[token tk := i]> (tokenIndex st)
            | None => tokenIndex st
            end
        | _ => tokenIndex st
        end in
      (Some updated, mkStore ts idx)
  end.

(** [delete(id)] *)
Definition delete (h : Heap) (st : Store) (i : string) : bool * Store :=
  match map_get (transfers st) i with
  | None => (false, st)
  | Some transfer =>
      let idx :=
        match tokenOf h transfer with
        | Some tk => base.delete (token tk) (tokenIndex st)
        | None => tokenIndex st
        end in
      (true, mkStore (map_delete (transfers st) i) idx)
  end.

(** [clear()] and [size] *)
Definition clear (st : Store) : Store := empty_store.
Definition size (st : Store) : nat := List.length (transfers st).

End Transfers.


(** ** transfer/sep24/sep24-service.ts *)

Module Sep24Service.
Import Js Errors Transfers.

(** The part of the runtime a service call reads and writes: the heap of
    token objects and the store. *)
Record World := mkWorld {
  heap : Heap;
  store : Store
}.

(** [DEFAULT_TOKEN_EXPIRATION_MS = 15 * 60 * 1000] *)
Definition DEFAULT_TOKEN_EXPIRATION_MS : Z := 15 * 60 * 1000.

(** [isTerminalStatus] *)
Definition isTerminalStatus (s : TransferStatus) : bool :=
  bool_decide (s ∈ [COMPLETED; ERROR; REFUNDED]).

(** [getNextStatus] *)
Definition getNextStatus (transfer : Transfer) : TransferStatus :=
  if String.eqb (wire (status transfer)) "incomplete" then
    match kind transfer with
    | deposit => PENDING_USER_TRANSFER_START
    | withdrawal => PENDING_ANCHOR
    end
  else status transfer.

(** [transfer.interactiveToken.used = true], on the shared token object. *)
Definition mark_used (tk : InteractiveToken) : InteractiveToken :=
  mkInteractiveToken (token tk) (tok_createdAt tk) (expiresAt tk) true.

Section Service.

(** [String.prototype.toUpperCase] *)
Variable toUpperCase : string -> string.

(** [new URL(base)], then an optional [pathname] assignment, then
    [searchParams.set] for each pair, then [toString()]; [None] when the
    constructor throws. *)
Variable url_build :
  string -> option string -> list (string * string) -> option string.

Variable config : Sep24TransferConfig.

(** The asset check shared by [initiateDeposit] and [initiateWithdrawal]:
    skipped when [supportedAssets] is undefined. *)
Definition assetSupported (code : string) : bool :=
  match supportedAssets config with
  | Some assets =>
      includes (List.map toUpperCase assets) (toUpperCase code)
  | None => true
  end.

Definition notSupportedMessage (code : string) : string :=
  "Asset " +:+ code +:+ " not supported by anchor".

(** [createTransfer(kind, request)] *)
Definition createTransfer (k : TransferKind) (request : TransferRequest)
    (now : Z) (newId : string) : Transfer :=
  {| id := newId;
     kind := k;
     mode := interactive;
     status := INTERACTIVE;
     assetCode := r_assetCode request;
     assetIssuer := r_assetIssuer request;
     account := r_account request;
     amount := r_amount request;
     interactiveToken := None;
     interactiveUrl := None;
     more_info_url := None;
     externalTransactionId := None;
     stellarTransactionId := None;
     message := None;
     createdAt := now;
     updatedAt := now;
     completedAt := None;
     metadata := Some [] |}.

(** [generateInteractiveToken()] *)
Definition generateInteractiveToken (now : Z) (tok : string)
  : InteractiveToken :=
  let expirationMs :=
    default DEFAULT_TOKEN_EXPIRATION_MS (tokenExpiration config) in
  mkInteractiveToken tok now (now + expirationMs) false.

(** [buildInteractiveUrl(transferId, token)] *)
Definition buildInteractiveUrl (transferId tok : string) : option string :=
  url_build (cfg_interactiveUrl config) None
            [("transaction_id", transferId); ("token", tok)].

(** [buildMoreInfoUrl(transferId)] *)
Definition buildMoreInfoUrl (transferId : string) : result exn string :=
  if negb (truthy_opt (baseUrl config)) then
    Throw (PlainError
      "baseUrl is required in Sep24TransferConfig to generate more_info_url")
  else
    match url_build (default EmptyString (baseUrl config))
                    (Some "/sep24/transaction/more_info")
                    [("id", transferId)] with
    | Some u => Ok u
    | None => Throw (PlainError "Invalid URL")
    end.

(** The metadata a withdrawal records:
    [{ ...transfer.metadata, dest, destExtra }]. *)
Definition withdrawalMetadata (request : TransferRequest)
    (m : option (list (string * option string)))
  : option (list (string * option string)) :=
  Some (map_set (map_set (default [] m) "dest" (r_dest request))
                "destExtra" (r_destExtra request)).

(** The common body of [initiateDeposit] and [initiateWithdrawal].
    [newId] and [newTok] are the two [randomBytes] draws, [now] and
    [nowTok] the two clock readings. *)
Definition initiate (k : TransferKind) (w : World) (now nowTok : Z)
    (newId newTok : string) (request : TransferRequest)
  : result exn InitiateResponse * World :=
  if negb (assetSupported (r_assetCode request)) then
    (Throw (PlainError (notSupportedMessage (r_assetCode request))), w)
  else
    let transfer := createTransfer k request now newId in
    let r := fresh (dom (heap w)) in
    let h := <[r := generateInteractiveToken nowTok newTok]> (heap w) in
    match buildInteractiveUrl newId newTok with
    | None => (Throw (PlainError "Invalid URL"), w)
    | Some iurl =>
        match buildMoreInfoUrl newId with
        | Throw e => (Throw e, w)
        | Ok murl =>
            let transfer :=
              apply_updates transfer
                {| u_id := None; u_kind := None; u_mode := None;
                   u_status := None; u_assetCode := None;
                   u_assetIssuer := None; u_account := None;
                   u_amount := None;
                   u_interactiveToken := Some (Some r);
                   u_interactiveUrl := Some (Some iurl);
                   u_more_info_url := Some (Some murl);
                   u_externalTransactionId := None;
                   u_stellarTransactionId := None;
                   u_message := None; u_createdAt := None;
                   u_updatedAt := None; u_completedAt := None;
                   u_metadata :=
                     match k with
                     | deposit => None
                     | withdrawal =>
                         Some (withdrawalMetadata request (metadata transfer))
                     end |} in
            (Ok (mkInitiateResponse newId iurl
                                    "interactive_customer_info_needed"),
             mkWorld h (create h (store w) transfer))
        end
    end.

Definition initiateDeposit := initiate deposit.
Definition initiateWithdrawal := initiate withdrawal.

(** [getTransfer(id)] *)
Definition getTransfer (w : World) (i : string) : option Transfer :=
  getById (store w) i.

(** [validateInteractiveToken(id, token)] *)
Definition validateInteractiveToken (w : World) (now : Z) (i tok : string)
  : result exn Transfer :=
  match getById (store w) i with
  | None => Throw (PlainError ("Transfer " +:+ i +:+ " not found"))
  | Some transfer =>
      match tokenOf (heap w) transfer with
      | None =>
          Throw (PlainError ("Transfer " +:+ i +:+ " has no interactive token"))
      | Some tk =>
          if negb (String.eqb (token tk) tok) then
            Throw (PlainError "Invalid token")
          else if used tk then Throw (PlainError "Token already used")
          else if (expiresAt tk <? now)%Z then
            Throw (PlainError "Token expired")
          else Ok transfer
      end
  end.

(** [completeInteractive(id, token)].  [transfer] is the shallow copy
    [getById] returned, so the assignment to [used] writes the token object
    the stored transfer refers to. *)
Definition completeInteractive (w : World) (now now' : Z) (i tok : string)
  : result exn Transfer * World :=
  match validateInteractiveToken w now i tok with
  | Throw e => (Throw e, w)
  | Ok transfer =>
      let h :=
        match interactiveToken transfer with
        | Some r => alter mark_used r (heap w)
        | None => heap w
        end in
      let '(updated, st) :=
        update h (store w) now' i
          {| u_id := None; u_kind := None; u_mode := None;
             u_status := Some (getNextStatus transfer);
             u_assetCode := None; u_assetIssuer := None; u_account := None;
             u_amount := None;
             u_interactiveToken := Some (interactiveToken transfer);
             u_interactiveUrl := None; u_more_info_url := None;
             u_externalTransactionId := None;
             u_stellarTransactionId := None; u_message := None;
             u_createdAt := None; u_updatedAt := None;
             u_completedAt := None; u_metadata := None |} in
      match updated with
      | None =>
          (Throw (PlainError ("Failed to update transfer " +:+ i)),
           mkWorld h st)
      | Some t => (Ok t, mkWorld h st)
      end
  end.

(** [updateStatus(id, status, updates?)]: the partial transfer handed to
    the store is [{ status, completedAt, ...updates }]. *)
Definition updateStatus (w : World) (now now' : Z) (i : string)
    (s : TransferStatus) (updates : option TransferUpdates)
  : result exn Transfer * World :=
  match getById (store w) i with
  | None => (Throw (PlainError ("Transfer " +:+ i +:+ " not found")), w)
  | Some existing =>
      let completedAt := if isTerminalStatus s then Some now else None in
      let base :=
        {| u_id := None; u_kind := None; u_mode := None;
           u_status := Some s;
           u_assetCode := None; u_assetIssuer := None; u_account := None;
           u_amount := None; u_interactiveToken := None;
           u_interactiveUrl := None; u_more_info_url := None;
           u_externalTransactionId := None;
           u_stellarTransactionId := None; u_message := None;
           u_createdAt := None; u_updatedAt := None;
           u_completedAt := Some completedAt; u_metadata := None |} in
      let '(updated, st) :=
        update (heap w) (store w) now' i
               (spread_updates base (default no_updates updates)) in
      match updated with
      | None =>
          (Throw (PlainError ("Failed to update transfer " +:+ i)),
           mkWorld (heap w) st)
      | Some t => (Ok t, mkWorld (heap w) st)
      end
  end.

(** ** transfer/transfer-manager.ts: the calls it forwards *)

Definition TransferManager_initiateDeposit (m : TransferMode) :=
  match m with interactive => initiateDeposit end.

Definition TransferManager_initiateWithdraw (m : TransferMode) :=
  match m with interactive => initiateWithdrawal end.

Definition TransferManager_completeInteractive := completeInteractive.

Definition TransferManager_updateTransferStatus := updateStatus.

Definition TransferManager_getTransfersByAccount (w : World)
    (acct : string) (opts : option FindByAccountOptions) : list Transfer :=
  listByAccount (store w) acct opts.

End Service.

End Sep24Service.


(** ** config/types.ts and anchor-server.ts *)

Module Server.
Import Js Errors.

Inductive NetworkType := public | testnet | futurenet | standalone | mainnet.

Inductive AssetStatus := live | test | dead | private.

Record AssetOperationConfig := mkAssetOperationConfig {
  enabled : bool;
  minAmount : option Z;
  maxAmount : option Z;
  feeFixed : option Z;
  feePercent : option Z
}.

Record AssetConfig := mkAssetConfig {
  issuer : option string;
  asset_name : option string;
  asset_desc : option string;
  displayDecimals : option Z;
  asset_status : option AssetStatus;
  asset_deposit : option AssetOperationConfig;
  asset_withdraw : option AssetOperationConfig
}.

Record AnchorMeta := mkAnchorMeta {
  orgName : option string;
  orgUrl : option string;
  orgDescription : option string;
  orgLogo : option string;
  orgPhysicalAddress : option string;
  orgOfficialEmail : option string;
  orgSupportEmail : option string
}.

(** [assets] is a [Record<string, AssetConfig>], read in key order by
    [Object.entries] and by key with [assets[code]]. *)
Record AnchorServerConfig := mkAnchorServerConfig {
  domain : string;
  jwtSecret : string;
  network : NetworkType;
  assets : list (string * AssetConfig);
  meta : option AnchorMeta
}.

Inductive MountedModule := sep10 | sep24 | sep6.

#[global] Instance MountedModule_eq_dec : EqDecision MountedModule.
Proof. solve_decision. Defined.

#[global] Instance MountedModule_countable : Countable MountedModule.
Proof.
  refine (inj_countable'
            (fun m => match m with sep10 => 0 | sep24 => 1 | sep6 => 2 end)%nat
            (fun n => match n with
                      | O => sep10 | S O => sep24 | _ => sep6
                      end) _).
  intros []; reflexivity.
Defined.

(** The server object: its configuration, the public key derived from the
    secret key, and the mutable set [mountedModules]. *)
Record AnchorServer := mkAnchorServer {
  config : AnchorServerConfig;
  publicKey : string;
  mountedModules : gset MountedModule
}.

(** [deriveNetworkPassphrase]: the SDK's [Networks] constants. *)
Definition deriveNetworkPassphrase (n : NetworkType) : string :=
  match n with
  | public | mainnet => "Public Global Stellar Network ; September 2015"
  | testnet => "Test SDF Network ; September 2015"
  | futurenet => "Test SDF Future Network ; October 2022"
  | standalone => "Standalone Network ; February 2017"
  end.

Definition networkPassphrase (srv : AnchorServer) : string :=
  deriveNetworkPassphrase (network (config srv)).

(** [getBaseUrl()], of the configured domain [d]. *)
Definition getBaseUrl (d : string) : string :=
  let domain := trim d in
  if startsWith domain "http://" || startsWith domain "https://" then domain
  else
    let isLocal :=
      startsWith domain "localhost" || startsWith domain "127.0.0.1" in
    let protocol := if isLocal then "http" else "https" in
    protocol +:+ "://" +:+ domain.

Definition mount (m : MountedModule) (srv : AnchorServer) : AnchorServer :=
  mkAnchorServer (config srv) (publicKey srv) ({[ m ]} ∪ mountedModules srv).

(** [sep10()], [sep24(hooks)], [sep6(hooks?)], as far as the server object
    is concerned.  [sep24] is given [hooks?.interactive?.url]. *)
Definition mount_sep10 (srv : AnchorServer) : AnchorServer := mount sep10 srv.

Definition mount_sep24 (interactive_url : option string) (srv : AnchorServer)
  : result SepError AnchorServer :=
  if negb (truthy_opt interactive_url) then
    Throw (badRequest
      "sep24() requires hooks with interactive.url — you must provide your own interactive flow URL")
  else Ok (mount sep24 srv).

Definition mount_sep6 (srv : AnchorServer) : AnchorServer := mount sep6 srv.

End Server.

(** ** toml/publisher.ts *)

Module Toml.
Import Js Errors Server.

(** The [TomlStructure] that [buildFromServer] fills in.  It never sets
    [VERSION], [ACCOUNTS], [PRINCIPALS] or a custom key, so the branches of
    [stringifyToml] for those are not taken. *)
Record DocumentationInfo := mkDocumentationInfo {
  org_name : option string;
  org_url : option string;
  org_description : option string;
  org_logo : option string;
  org_physical_address : option string;
  org_official_email : option string;
  org_support_email : option string
}.

Record TomlStructure := mkTomlStructure {
  SIGNING_KEY : string;
  NETWORK_PASSPHRASE : string;
  WEB_AUTH_ENDPOINT : option string;
  TRANSFER_SERVER_SEP0024 : option string;
  TRANSFER_SERVER : option string;
  DOCUMENTATION : option DocumentationInfo
}.

(** [getProtocol(domain)] *)
Definition getProtocol (d : string) : string :=
  if String.eqb d "localhost" || startsWith d "localhost:" then "http"
  else "https".

(** [buildSepUrl(domain, path)] *)
Definition buildSepUrl (d path : string) : string :=
  getProtocol d +:+ "://" +:+ d +:+ path.

(** [mapMetaToDocumentation(meta)] *)
Definition mapMetaToDocumentation (m : AnchorMeta) : DocumentationInfo :=
  {| org_name := orgName m;
     org_url := orgUrl m;
     org_description := orgDescription m;
     org_logo := orgLogo m;
     org_physical_address := orgPhysicalAddress m;
     org_official_email := orgOfficialEmail m;
     org_support_email := orgSupportEmail m |}.

Definition mounted (srv : AnchorServer) (m : MountedModule) : bool :=
  bool_decide (m ∈ mountedModules srv).

(** [buildFromServer()] *)
Definition buildFromServer (srv : AnchorServer) : TomlStructure :=
  let d := domain (config srv) in
  {| SIGNING_KEY := publicKey srv;
     NETWORK_PASSPHRASE := networkPassphrase srv;
     WEB_AUTH_ENDPOINT :=
       if mounted srv sep10 then Some (buildSepUrl d "/auth") else None;
     TRANSFER_SERVER_SEP0024 :=
       if mounted srv sep24 then Some (buildSepUrl d "/sep24") else None;
     TRANSFER_SERVER :=
       if mounted srv sep6 then Some (buildSepUrl d "/sep6") else None;
     DOCUMENTATION := mapMetaToDocumentation <$> meta (config srv) |}.

(** [str.replace(/c/g, by)] for a single character [c]. *)
Fixpoint replaceAll (c : ascii) (by_ : string) (s : string) : string :=
  match s with
  | EmptyString => EmptyString
  | String c' s' =>
      if Ascii.eqb c' c then by_ +:+ replaceAll c by_ s'
      else String c' (replaceAll c by_ s')
  end.

Definition backslash : ascii := ascii_of_nat 92.
Definition dquote : ascii := ascii_of_nat 34.
Definition newline : ascii := ascii_of_nat 10.
Definition creturn : ascii := ascii_of_nat 13.
Definition tab : ascii := ascii_of_nat 9.

Definition str1 (c : ascii) : string := String c EmptyString.

(** [escapeTomlString(str)]: five successive replacements. *)
Definition escapeTomlString (s : string) : string :=
  let s := replaceAll backslash (str1 backslash +:+ str1 backslash) s in
  let s := replaceAll dquote (str1 backslash +:+ str1 dquote) s in
  let s := replaceAll newline (str1 backslash +:+ "n") s in
  let s := replaceAll creturn (str1 backslash +:+ "r") s in
  replaceAll tab (str1 backslash +:+ "t") s.

(** [toTomlKeyValue(key, value)] on a string, a number and a boolean. *)
Definition kvString (key value : string) : string :=
  key +:+ " = " +:+ str1 dquote +:+ escapeTomlString value +:+ str1 dquote.

Definition kvNumber (key : string) (value : Z) : string :=
  key +:+ " = " +:+ pretty value.

Definition kvBool (key : string) (value : bool) : string :=
  key +:+ " = " +:+ (if value then "true" else "false").

(** One line for a defined value, none for [undefined]. *)
Definition kvOpt (key : string) (value : option string) : list string :=
  match value with Some v => [kvString key v] | None => [] end.

(** A truthy optional string: the guard [if (structure.KEY)]. *)
Definition kvTruthy (key : string) (value : option string) : list string :=
  match value with
  | Some v => if truthy v then [kvString key v] else []
  | None => []
  end.

(** The [CurrencyInfo] lines of one asset: [mapAssetsToCurrencies] followed
    by [appendCurrencyFields]. *)
Definition currencyLines (net : NetworkType) (code : string)
    (a : AssetConfig) : list string :=
  let isTestnet :=
    match net with
    | testnet | futurenet | standalone => true
    | _ => false
    end in
  let defaultStatus := if isTestnet then "test" else "live" in
  let status :=
    match asset_status a with
    | Some live => "live"
    | Some test => "test"
    | _ => defaultStatus
    end in
  let isNative := String.eqb code "native" || String.eqb code "XLM" in
  let orCode (o : option string) :=
    if truthy_opt o then default code o else code in
  [EmptyString; "[[CURRENCIES]]";
   kvString "code" (if isNative then "native" else code)]
  ++ kvOpt "issuer" (issuer a)
  ++ [kvString "status" status]
  ++ match displayDecimals a with
     | Some n => [kvNumber "display_decimals" n]
     | None => []
     end
  ++ [kvString "name" (orCode (asset_name a));
      kvString "desc" (orCode (asset_desc a));
      kvBool "is_asset_anchored" false;
      kvString "anchor_asset_type" "crypto"].

Definition documentationLines (d : DocumentationInfo) : list string :=
  [EmptyString; "[DOCUMENTATION]"]
  ++ kvOpt "org_name" (org_name d)
  ++ kvOpt "org_url" (org_url d)
  ++ kvOpt "org_description" (org_description d)
  ++ kvOpt "org_logo" (org_logo d)
  ++ kvOpt "org_physical_address" (org_physical_address d)
  ++ kvOpt "org_official_email" (org_official_email d)
  ++ kvOpt "org_support_email" (org_support_email d).

(** The endpoint lines, in their fixed order; a blank line precedes
    [WEB_AUTH_ENDPOINT]. *)
Definition endpointLines (s : TomlStructure) : list string :=
  match kvTruthy "WEB_AUTH_ENDPOINT" (WEB_AUTH_ENDPOINT s) with
  | [] => []
  | l => EmptyString :: l
  end
  ++ kvTruthy "TRANSFER_SERVER_SEP0024" (TRANSFER_SERVER_SEP0024 s)
  ++ kvTruthy "TRANSFER_SERVER" (TRANSFER_SERVER s).

(** The lines [stringifyToml] pushes. *)
Definition tomlLines (srv : AnchorServer) (s : TomlStructure)
  : list string :=
  [kvString "SIGNING_KEY" (SIGNING_KEY s);
   kvString "NETWORK_PASSPHRASE" (NETWORK_PASSPHRASE s)]
  ++ endpointLines s
  ++ match DOCUMENTATION s with
     | Some d => documentationLines d
     | None => []
     end
  ++ flat_map (fun ca => currencyLines (network (config srv)) ca.1 ca.2)
              (assets (config srv)).

(** [lines.join('\n') + '\n'] *)
Definition joinLines (l : list string) : string :=
  String.concat (str1 newline) l +:+ str1 newline.

Definition stringifyToml (srv : AnchorServer) (s : TomlStructure) : string :=
  joinLines (tomlLines srv s).

(** The publisher: its one mutable field is [cachedToml]; it reads the
    server object it was constructed with at every uncached [render]. *)
Record TomlPublisher := mkTomlPublisher { cachedToml : option string }.

Definition newPublisher : TomlPublisher := mkTomlPublisher None.

(** [render()] *)
Definition render (srv : AnchorServer) (p : TomlPublisher)
  : string * TomlPublisher :=
  if truthy_opt (cachedToml p) then (default EmptyString (cachedToml p), p)
  else
    let out := stringifyToml srv (buildFromServer srv) in
    (out, mkTomlPublisher (Some out)).

(** [invalidateCache()] *)
Definition invalidateCache (p : TomlPublisher) : TomlPublisher :=
  mkTomlPublisher None.

(** The [GET /.well-known/stellar.toml] handler of [AnchorServer.toml()]. *)
Definition tomlHandler (srv : AnchorServer) (p : TomlPublisher)
  : response * TomlPublisher :=
  let '(out, p') := render srv p in
  (mkResponse 200 (TextBody out), p').

(** The document has a top-level line for [key]. *)
Definition hasKey (doc key : string) : bool :=
  existsb (fun line => startsWith line (key +:+ " = "))
          (split newline doc).

End Toml.


(** ** modules/sep24/router.ts and modules/sep6/router.ts *)

Module Http.
Import Js Errors Server Transfers Sep24Service.

(** One line of an object literal whose value may be [undefined]:
    [res.json] drops such members. *)
Definition member (key : string) (v : option json) : object :=
  match v with Some j => [(key, j)] | None => [] end.

Definition num (o : option Z) : option json := JNumber <$> o.

(** [a || b] on an optional number: [0] and [undefined] are falsy. *)
Definition orNum (o : option Z) (d : Z) : Z :=
  match o with
  | Some n => if (n =? 0)%Z then d else n
  | None => d
  end.

(** What a SEP-6 hook returns, as far as the router reads it. *)
Record Sep6HookResult := mkSep6HookResult {
  h_how : option string;
  h_accountId : option string;
  h_memoType : option string;
  h_memo : option string;
  h_eta : option Z;
  h_minAmount : option Z;
  h_maxAmount : option Z;
  h_feeFixed : option Z;
  h_feePercent : option Z;
  h_extraInfo : option string
}.

(** A hook is operator code: it receives the transfer just created and
    the request parameters, may use the store, and returns or throws. *)
Definition Sep6Hook : Type :=
  Transfer -> gmap string string -> World ->
  result exn Sep6HookResult * World.

Section Routers.

(** [String.prototype.toUpperCase] *)
Variable toUpperCase : string -> string.
Variable url_build :
  string -> option string -> list (string * string) -> option string.
Variable isValidStellarAddress : string -> bool.
Variable server : AnchorServer.

(** The transfer manager of the server is constructed with
    [{ baseUrl, interactiveUrl: baseUrl + '/interactive',
       supportedAssets: Object.keys(config.assets) }]. *)
Definition managerConfig : Sep24TransferConfig :=
  let b := getBaseUrl (domain (config server)) in
  {| baseUrl := Some b;
     cfg_interactiveUrl := b +:+ "/interactive";
     tokenExpiration := None;
     supportedAssets := Some (assets (config server)).*1 |}.

(** The body of [POST /transactions/deposit/interactive] and of
    [POST /transactions/withdraw/interactive], after the bearer-token
    guard has set [req.user]. *)
Definition sep24Initiate (k : TransferKind) (w : World) (now nowTok : Z)
    (newId newTok : string) (user : Auth.JwtPayload)
    (body : gmap string string) : response * World :=
  let account := Auth.sub user in
  let asset_code := body !! "asset_code" in
  let requestAccount := body !! "account" in
  if negb (truthy_opt asset_code) then
    (respondError 400 (Sep (badRequest "'asset_code' is required")), w)
  else if truthy_opt requestAccount
          && negb (isValidStellarAddress
                     (default EmptyString requestAccount)) then
    (respondError 400 (Sep (badRequest "invalid account")), w)
  else if negb (truthy account) then
    (respondError 400 (Sep (badRequest "account is required")), w)
  else
    let dest :=
      match k with
      | deposit => None
      | withdrawal =>
          if truthy_opt (body !! "dest") then body !! "dest"
          else Some account
      end in
    let params :=
      {| r_assetCode := default EmptyString asset_code;
         r_assetIssuer := None;
         r_account := account;
         r_amount := body !! "amount";
         r_dest := dest;
         r_destExtra :=
           match k with
           | deposit => None
           | withdrawal => body !! "dest_extra"
           end |} in
    let '(r, w') :=
      match k with
      | deposit =>
          TransferManager_initiateDeposit toUpperCase url_build managerConfig
            interactive
            w now nowTok newId newTok params
      | withdrawal =>
          TransferManager_initiateWithdraw toUpperCase url_build managerConfig
            interactive
            w now nowTok newId newTok params
      end in
    match r with
    | Ok result =>
        (mkResponse 200
           (JsonBody [("type", JString (resp_type result));
                      ("id", JString (resp_id result));
                      ("url", JString (resp_url result))]), w')
    | Throw e => (respondError 400 e, w')
    end.

(** [POST /interactive/complete]; this route has no guard. *)
Definition interactiveComplete (w : World) (now now' : Z)
    (body : gmap string string) : response * World :=
  let transaction_id := body !! "transaction_id" in
  let tok := body !! "token" in
  if negb (truthy_opt transaction_id) || negb (truthy_opt tok) then
    (respondError 400 (Sep (badRequest "Missing transaction_id or token")), w)
  else
    let '(r, w') :=
      TransferManager_completeInteractive w now now'
        (default EmptyString transaction_id) (default EmptyString tok) in
    match r with
    | Ok transfer =>
        (mkResponse 200
           (JsonBody
              [("success", JBool true);
               ("status", JString (wire (Transfers.status transfer)));
               ("message",
                JString "Interactive flow completed successfully")]), w')
    | Throw e => (respondError 400 e, w')
    end.

(** The transfer record the SEP-6 handlers create. *)
Definition sep6Transfer (k : TransferKind) (transactionId asset_code
    account : string) (now now2 : Z) : Transfer :=
  {| id := transactionId;
     kind := k;
     mode := interactive;
     Transfers.status := INITIATING;
     assetCode := asset_code;
     assetIssuer := None;
     Transfers.account := account;
     amount := None;
     interactiveToken := None;
     interactiveUrl := None;
     more_info_url := None;
     externalTransactionId := None;
     stellarTransactionId := None;
     Transfers.message := None;
     createdAt := now;
     updatedAt := now2;
     completedAt := None;
     metadata := None |}.

(** The body of [GET /deposit] of the SEP-6 router, after the guard. *)
Definition sep6Deposit (hook : option Sep6Hook) (w : World) (now now2 : Z)
    (transactionId : string) (user : Auth.JwtPayload)
    (query : gmap string string) : response * World :=
  let account := Auth.sub user in
  if negb (truthy account) then
    (respondError 400 (Sep (badRequest "account is required")), w)
  else
    match query !! "asset_code" with
    | None => (respondError 400 (Sep (badRequest "asset_code is required")), w)
    | Some asset_code =>
        if negb (truthy asset_code) then
          (respondError 400 (Sep (badRequest "asset_code is required")), w)
        else
          match prop_get (assets (config server)) asset_code with
          | Undefined =>
              (respondError 400
                 (Sep (badRequest
                         ("Asset " +:+ asset_code +:+ " is not supported"))),
               w)
          | Inherited =>
              (respondError 400
                 (Sep (badRequest
                        ("Deposits are not enabled for " +:+ asset_code))),
               w)
          | Own assetConfig =>
              match asset_deposit assetConfig with
              | Some op =>
                  if negb (enabled op) then
                    (respondError 400
                       (Sep (badRequest
                          ("Deposits are not enabled for " +:+ asset_code))),
                     w)
                  else
                    let transfer :=
                      sep6Transfer deposit transactionId asset_code account
                                   now now2 in
                    let w1 :=
                      mkWorld (heap w) (create (heap w) (store w) transfer) in
                    match hook with
                    | Some onDeposit =>
                        let '(r, w2) := onDeposit transfer query w1 in
                        match r with
                        | Throw e => (respondError 400 e, w2)
                        | Ok res =>
                            (mkResponse 200
                               (JsonBody
                                  (member "how" (JString <$> h_how res)
                                   ++ [("id", JString transactionId)]
                                   ++ member "eta" (num (h_eta res))
                                   ++ member "min_amount"
                                        (num (h_minAmount res))
                                   ++ member "max_amount"
                                        (num (h_maxAmount res))
                                   ++ member "fee_fixed" (num (h_feeFixed res))
                                   ++ member "fee_percent"
                                        (num (h_feePercent res))
                                   ++ member "extra_info"
                                        (JString <$> h_extraInfo res))%list), w2)
                        end
                    | None =>
                        let memo := query !! "memo" in
                        let how :=
                          "Send " +:+ asset_code +:+ " to "
                          +:+ publicKey server
                          +:+ (if truthy_opt memo
                               then " with memo: " +:+ default EmptyString memo
                               else EmptyString)
                          +:+ ". "
                          +:+ "Once received, we will credit your Stellar account "
                          +:+ account +:+ "." in
                        (mkResponse 200
                           (JsonBody
                              [("how", JString how);
                               ("id", JString transactionId);
                               ("eta", JNumber 300);
                               ("min_amount", JNumber (orNum (minAmount op) 1));
                               ("max_amount",
                                JNumber (orNum (maxAmount op) 10000));
                               ("fee_fixed", JNumber (orNum (feeFixed op) 0));
                               ("fee_percent",
                                JNumber (orNum (feePercent op) 0))]), w1)
                    end
              | None =>
                  (respondError 400
                     (Sep (badRequest
                        ("Deposits are not enabled for " +:+ asset_code))),
                   w)
              end
          end
    end.

(** The body of [GET /withdraw] of the SEP-6 router, after the guard;
    [memo] stands for the random numeric memo of the default answer. *)
Definition sep6Withdraw (hook : option Sep6Hook) (w : World) (now now2 : Z)
    (transactionId memo : string) (user : Auth.JwtPayload)
    (query : gmap string string) : response * World :=
  let account := Auth.sub user in
  let fail msg := (respondError 400 (Sep (badRequest msg)), w) in
  if negb (truthy account) then fail "account is required"
  else if negb (truthy_opt (query !! "asset_code")) then
    fail "asset_code is required"
  else if negb (truthy_opt (query !! "type")) then fail "type is required"
  else
    let asset_code := default EmptyString (query !! "asset_code") in
    match prop_get (assets (config server)) asset_code with
    | Undefined => fail ("Asset " +:+ asset_code +:+ " is not supported")
    | Inherited => fail ("Withdrawals are not enabled for " +:+ asset_code)
    | Own assetConfig =>
        match asset_withdraw assetConfig with
        | None => fail ("Withdrawals are not enabled for " +:+ asset_code)
        | Some op =>
            if negb (enabled op) then
              fail ("Withdrawals are not enabled for " +:+ asset_code)
            else
              let transfer :=
                sep6Transfer withdrawal transactionId asset_code account
                             now now2 in
              let w1 :=
                mkWorld (heap w) (create (heap w) (store w) transfer) in
              match hook with
              | Some onWithdraw =>
                  let '(r, w2) := onWithdraw transfer query w1 in
                  match r with
                  | Throw e => (respondError 400 e, w2)
                  | Ok res =>
                      (mkResponse 200
                         (JsonBody
                            (member "account_id" (JString <$> h_accountId res)
                             ++ member "memo_type" (JString <$> h_memoType res)
                             ++ member "memo" (JString <$> h_memo res)
                             ++ [("id", JString transactionId)]
                             ++ member "eta" (num (h_eta res))
                             ++ member "min_amount" (num (h_minAmount res))
                             ++ member "max_amount" (num (h_maxAmount res))
                             ++ member "fee_fixed" (num (h_feeFixed res))
                             ++ member "fee_percent" (num (h_feePercent res))
                             ++ member "extra_info"
                                  (JString <$> h_extraInfo res))%list), w2)
                  end
              | None =>
                  (mkResponse 200
                     (JsonBody
                        [("account_id", JString (publicKey server));
                         ("memo_type", JString "id");
                         ("memo", JString memo);
                         ("id", JString transactionId);
                         ("eta", JNumber 300);
                         ("min_amount", JNumber (orNum (minAmount op) 1));
                         ("max_amount", JNumber (orNum (maxAmount op) 10000));
                         ("fee_fixed", JNumber (orNum (feeFixed op) 0));
                         ("fee_percent", JNumber (orNum (feePercent op) 0))]),
                   w1)
              end
        end
    end.

(** A guarded route: the [requireAuth()] middleware runs first. *)
Definition guarded {S} (jwt_verify : Z -> string -> string -> option Auth.JwtPayload)
    (now : Z) (authorization : option string) (w : S)
    (handler : Auth.JwtPayload -> response * S) : response * S :=
  match Auth.requireAuth jwt_verify (jwtSecret (config server)) now
                         authorization with
  | Auth.Respond r => (r, w)
  | Auth.Next user => handler user
  end.

End Routers.

End Http.



(** ** anchor-server.ts: configuration check and constructor *)

Module Config.
Import Js Errors Server.

(** The object handed to [new AnchorServer(config)], before it is known to
    be well formed: a missing member is [None]; the network is any
    string. *)
Record ConfigInput := mkConfigInput {
  in_domain : option string;
  in_secretKey : option string;
  in_jwtSecret : option string;
  in_network : string;
  in_assets : option (list (string * AssetConfig));
  in_meta : option AnchorMeta
}.

Definition validNetworks : list string :=
  ["public"; "testnet"; "futurenet"; "standalone"; "mainnet"].

Definition parseNetwork (s : string) : option NetworkType :=
  if String.eqb s "public" then Some public
  else if String.eqb s "testnet" then Some testnet
  else if String.eqb s "futurenet" then Some futurenet
  else if String.eqb s "standalone" then Some standalone
  else if String.eqb s "mainnet" then Some mainnet
  else None.

Section Constructor.

(** [Keypair.fromSecret(s)]: whether it accepts [s], and the public key of
    the pair it returns. *)
Variable validSecret : string -> bool.
Variable publicKeyOf : string -> string.

(** [validateConfig(config)]: the first failing check throws. *)
Definition validateConfig (c : ConfigInput) : result SepError unit :=
  if negb (truthy_opt (in_domain c))
     || (str_length (trim (default EmptyString (in_domain c))) =? 0)%nat
  then Throw (badRequest "domain is required")
  else if negb (truthy_opt (in_secretKey c)) then
    Throw (badRequest "secretKey is required")
  else if negb (validSecret (default EmptyString (in_secretKey c))) then
    Throw (badRequest
      "Invalid secretKey: must be a valid Stellar secret key starting with S")
  else if negb (truthy_opt (in_jwtSecret c)) then
    Throw (badRequest "jwtSecret is required")
  else if (str_length (default EmptyString (in_jwtSecret c)) <? 32)%nat
  then Throw (badRequest "jwtSecret must be at least 32 characters long")
  else if match in_assets c with
          | Some a => (List.length a =? 0)%nat
          | None => true
          end
  then Throw (badRequest "At least one asset must be configured")
  else if negb (includes validNetworks (in_network c)) then
    Throw (badRequest ("Invalid network: " +:+ in_network c))
  else Ok tt.

(** The constructor: the checked configuration is kept as it is, the
    public key is derived from the secret key, and no module is mounted. *)
Definition construct (c : ConfigInput) : result SepError AnchorServer :=
  match validateConfig c with
  | Throw e => Throw e
  | Ok _ =>
      match parseNetwork (in_network c) with
      | None => Throw (badRequest ("Unknown network: " +:+ in_network c))
      | Some n =>
          Ok (mkAnchorServer
                (mkAnchorServerConfig
                   (default EmptyString (in_domain c))
                   (default EmptyString (in_jwtSecret c))
                   n
                   (default [] (in_assets c))
                   (in_meta c))
                (publicKeyOf (default EmptyString (in_secretKey c)))
                ∅)
      end
  end.

End Constructor.

End Config.

(** ** modules/sep10/router.ts *)

Module Sep10Router.
Import Js Errors Auth.

Section Router.

Variable buildChallengeTx : Z -> string -> string -> string.
Variable readChallengeTx : Z -> string -> result string ChallengeRead.
Variable loadAccount : string -> option AccountData.
Variable verifyChallengeTxSigners :
  Z -> string -> list string -> result string (list string).
Variable jwt_sign : JwtPayload -> string -> string.
Variables domain jwtSecret networkPassphrase : string.

(** [GET /]: the [account] query parameter, when it is a string. *)
Definition getChallenge (ns : Nonce.NonceStore) (now : Z) (entropy : string)
    (accountParam : option string) : response * Nonce.NonceStore :=
  if negb (truthy_opt accountParam) then
    (respondError 400
       (Sep (badRequest "account query parameter is required")), ns)
  else
    match createChallenge buildChallengeTx readChallengeTx ns now entropy
                          (default EmptyString accountParam) with
    | Ok (transaction, ns') =>
        (mkResponse 200
           (JsonBody [("transaction", JString transaction);
                      ("network_passphrase", JString networkPassphrase)]),
         ns')
    | Throw e => (respondError 400 e, ns)
    end.

(** [POST /]: the [transaction] member of the body, when it is a string. *)
Definition postChallenge (ns : Nonce.NonceStore) (now : Z)
    (transaction : option string) : response * Nonce.NonceStore :=
  if negb (truthy_opt transaction) then
    (respondError 400
       (Sep (badRequest "transaction body field is required")), ns)
  else
    let '(r, ns') :=
      verifyChallenge readChallengeTx loadAccount verifyChallengeTxSigners
        jwt_sign domain jwtSecret ns now (default EmptyString transaction) in
    match r with
    | Ok result => (mkResponse 200 (JsonBody [("token", JString (token result))]),
                    ns')
    | Throw e => (respondError 400 e, ns')
    end.

End Router.

End Sep10Router.

(** ** The status routes of modules/sep24/router.ts and the formatting of
    transfer/transfer-manager.ts *)

Module StatusRoutes.
Import Js Errors Server Transfers Sep24Service Http.

(** A response whose JSON body nests objects: [{ transaction: o }] or
    [{ transactions: [o, ...] }]; any other response is [Plain]. *)
Inductive payload :=
| Plain (r : response)
| OneTransaction (o : object)
| ManyTransactions (l : list object).

Definition kindText (k : TransferKind) : string :=
  match k with deposit => "deposit" | withdrawal => "withdrawal" end.

(** [normalizeBaseUrl(domain)]: [replace(/\/$/, '')] drops one trailing
    slash. *)
Fixpoint dropTrailingSlash (s : string) : string :=
  match s with
  | EmptyString => EmptyString
  | String c s' =>
      match s' with
      | EmptyString => if Ascii.eqb c "/" then EmptyString else s
      | _ => String c (dropTrailingSlash s')
      end
  end.

Definition normalizeBaseUrl (d : string) : string :=
  let trimmed := trim d in
  if startsWith trimmed "http://" || startsWith trimmed "https://" then
    dropTrailingSlash trimmed
  else
    let isLocal :=
      startsWith trimmed "localhost" || startsWith trimmed "127.0.0.1" in
    let protocol := if isLocal then "http" else "https" in
    dropTrailingSlash (protocol +:+ "://" +:+ trimmed).

Section Routes.

(** [Date.prototype.toISOString], [new Date(text)] ([None] for an invalid
    date) and [parseInt(text, 10)] ([None] for [NaN]). *)
Variable toISOString : Z -> string.
Variable parseDate : string -> option Z.
Variable parseInt : string -> option Z.
Variable server : AnchorServer.

(** [TransferManager.formatStatusResponse(transfer).transaction] *)
Definition formatStatusResponse (t : Transfer) : object :=
  ([("id", JString (id t));
    ("kind", JString (kindText (kind t)));
    ("status", JString (wire (Transfers.status t)))]
   ++ member "amount_in" (JString <$> amount t)
   ++ member "amount_out" (JString <$> amount t)
   ++ [("started_at", JString (toISOString (createdAt t)))]
   ++ member "completed_at" (JString ∘ toISOString <$> completedAt t)
   ++ member "stellar_transaction_id" (JString <$> stellarTransactionId t)
   ++ member "external_transaction_id" (JString <$> externalTransactionId t)
   ++ member "message" (JString <$> Transfers.message t)
   ++ [("refunded",
        JBool (String.eqb (wire (Transfers.status t)) "refunded"))]
   ++ member "more_info_url" (JString <$> more_info_url t)
   ++ [("to", JString (Transfers.account t));
       ("from", JString (Transfers.account t))])%list.

(** [TransferManager.getStatus(id)] *)
Definition getStatus (w : World) (i : string) : result exn object :=
  match getTransfer w i with
  | Some t => Ok (formatStatusResponse t)
  | None => Throw (PlainError ("Transfer " +:+ i +:+ " not found"))
  end.

Definition getStatusByStellarTransactionId (w : World) (txid : string)
  : option object :=
  formatStatusResponse <$> getByStellarTransactionId (store w) txid.

Definition getStatusByExternalTransactionId (w : World) (txid : string)
  : option object :=
  formatStatusResponse <$> getByExternalTransactionId (store w) txid.

(** [GET /transaction], after the guard. *)
Definition getTransaction (w : World) (query : gmap string string)
  : Z * payload :=
  let i := query !! "id" in
  let stellarTransactionId := query !! "stellar_transaction_id" in
  let externalTransactionId := query !! "external_transaction_id" in
  let fail e := let r := respondError 400 (Sep e) in (res_status r, Plain r) in
  if negb (truthy_opt i) && negb (truthy_opt stellarTransactionId)
     && negb (truthy_opt externalTransactionId) then
    fail (badRequest
      "Missing required parameter: id, stellar_transaction_id, or external_transaction_id")
  else if truthy_opt i then
    match getStatus w (default EmptyString i) with
    | Ok o => (200, OneTransaction o)
    | Throw _ => fail (notFound "Transaction not found")
    end
  else if truthy_opt stellarTransactionId then
    match getStatusByStellarTransactionId w
            (default EmptyString stellarTransactionId) with
    | Some o => (200, OneTransaction o)
    | None => fail (notFound "Transaction not found")
    end
  else
    match getStatusByExternalTransactionId w
            (default EmptyString externalTransactionId) with
    | Some o => (200, OneTransaction o)
    | None => fail (notFound "Transaction not found")
    end.

(** One entry of the [GET /transactions] answer. *)
Definition transactionEntry (t : Transfer) : object :=
  ([("id", JString (id t));
    ("kind", JString (kindText (kind t)));
    ("status", JString (wire (Transfers.status t)))]
   ++ member "status_eta"
        (if String.eqb (wire (Transfers.status t)) "incomplete"
         then Some (JNumber 3) else None)
   ++ member "amount_in" (JString <$> amount t)
   ++ member "amount_out" (JString <$> amount t)
   ++ [("amount_fee", JString "0");
       ("started_at", JString (toISOString (createdAt t)))]
   ++ member "completed_at" (JString ∘ toISOString <$> completedAt t)
   ++ member "stellar_transaction_id" (JString <$> stellarTransactionId t)
   ++ member "external_transaction_id" (JString <$> externalTransactionId t)
   ++ member "message" (JString <$> Transfers.message t)
   ++ [("refunded",
        JBool (String.eqb (wire (Transfers.status t)) "refunded"));
       ("more_info_url",
        JString
          (if truthy_opt (more_info_url t)
           then default EmptyString (more_info_url t)
           else normalizeBaseUrl (domain (config server))
                +:+ "/sep24/transaction/more_info?id=" +:+ id t));
       ("to", JString (Transfers.account t));
       ("from", JString (Transfers.account t))])%list.

(** [GET /transactions], after the guard.  An invalid [no_older_than]
    date compares false with every creation date, so the filter on it
    keeps nothing. *)
Definition getTransactions (w : World) (user : Auth.JwtPayload)
    (query : gmap string string) : Z * payload :=
  let account := Auth.sub user in
  let fail e := let r := respondError 400 (Sep e) in (res_status r, Plain r) in
  if negb (truthy account) then fail (badRequest "account is required")
  else
    let assetCode := query !! "asset_code" in
    if truthy_opt assetCode
       && match prop_get (assets (config server))
                         (default EmptyString assetCode) with
          | Undefined => true
          | _ => false
          end then
      fail (badRequest
              ("'" +:+ default EmptyString assetCode
               +:+ "' is not a supported asset"))
    else
      let k :=
        match query !! "kind" with
        | Some "deposit" => Some (Some deposit)
        | Some "withdrawal" => Some (Some withdrawal)
        | Some text => if truthy text then Some None else None
        | None => None
        end in
      let limit := query !! "limit" ≫= parseInt in
      let listed (noOlderThan : option Z) (kd : option TransferKind) :=
        TransferManager_getTransfersByAccount w account
          (Some (mkFindByAccountOptions assetCode kd noOlderThan limit)) in
      let transfers :=
        match k with
        | Some None => []
        | Some (Some kd) =>
            match query !! "no_older_than" with
            | Some text =>
                match parseDate text with
                | Some d => listed (Some d) (Some kd)
                | None => []
                end
            | None => listed None (Some kd)
            end
        | None =>
            match query !! "no_older_than" with
            | Some text =>
                match parseDate text with
                | Some d => listed (Some d) None
                | None => []
                end
            | None => listed None None
            end
        end in
      (200, ManyTransactions (transactionEntry <$> transfers)).

End Routes.

End StatusRoutes.


(** ** Predicates in which the properties are stated *)

Module Spec.
Import Transfers Sep24Service.

(** The status the state machine prescribes after the interactive step. *)
Definition expectedNextStatus (t : Transfer) : TransferStatus :=
  match status t, kind t with
  | INCOMPLETE, deposit => PENDING_USER_TRANSFER_START
  | INCOMPLETE, withdrawal => PENDING_ANCHOR
  | s, _ => s
  end.

(** A pair [(i, tok)] is valid in [w] at time [now]: the transfer [t] of
    that id exists, its token object has that value, is not used and has
    not expired. *)
Definition validPair (w : World) (now : Z) (i tok : string) (t : Transfer)
  : Prop :=
  getById (store w) i = Some t
  ∧ ∃ tk, tokenOf (heap w) t = Some tk
          ∧ token tk = tok ∧ used tk = false ∧ ¬ (expiresAt tk < now)%Z.

(** A transfer matches a listing request: it belongs to the account and
    passes each filter that is given (an empty asset code is no filter). *)
Definition matchesOptions (acct : string)
    (options : option FindByAccountOptions) (t : Transfer) : bool :=
  String.eqb (account t) acct
  && match options ≫= o_assetCode with
     | Some c => if Js.truthy c then String.eqb (assetCode t) c else true
     | None => true
     end
  && match options ≫= o_kind with
     | Some k => bool_decide (kind t = k)
     | None => true
     end
  && match options ≫= o_noOlderThan with
     | Some d => (d <=? createdAt t)%Z
     | None => true
     end.

(** The same request without its limit. *)
Definition withoutLimit (options : option FindByAccountOptions)
  : option FindByAccountOptions :=
  (fun o => mkFindByAccountOptions (o_assetCode o) (o_kind o)
                                   (o_noOlderThan o) None) <$> options.

(** Newest first: [a] may precede [b]. *)
Definition newerOrEqual (a b : Transfer) : Prop :=
  (createdAt b <= createdAt a)%Z.

End Spec.


(** ** Further predicates *)

Module Spec2.
Import Transfers.

(** The transfer map holds each id once, as a JavaScript [Map] does. *)
Definition uniqueIds (st : Store) : Prop := NoDup (transfers st).*1.

(** The character [c] occurs in [s]. *)
Fixpoint occurs (c : ascii) (s : string) : bool :=
  match s with
  | EmptyString => false
  | String c' s' => Ascii.eqb c' c || occurs c s'
  end.

(** Reading the body of a TOML basic string back: a backslash and the
    character after it stand for one character. *)
Definition unescapeChar (d : ascii) : ascii :=
  if Ascii.eqb d "n" then Toml.newline
  else if Ascii.eqb d "r" then Toml.creturn
  else if Ascii.eqb d "t" then Toml.tab
  else d.

Fixpoint unescape (s : string) : string :=
  match s with
  | EmptyString => EmptyString
  | String c s' =>
      if Ascii.eqb c Toml.backslash then
        match s' with
        | String d s'' => String (unescapeChar d) (unescape s'')
        | EmptyString => String c EmptyString
        end
      else String c (unescape s')
  end.

(** A line without a line feed in it. *)
Definition oneLine (line : string) : Prop := occurs Toml.newline line = false.

(** The lines of a rendered document. *)
Definition docLines (doc : string) : list string :=
  Js.split Toml.newline doc.

End Spec2.


(** ** Sample data

    Concrete configurations, stores and stand-ins for the third-party
    functions, on which the definitions above are evaluated below. *)

Module Samples.
Import Js Errors Transfers Sep24Service Server.

(** A stand-in for [String.prototype.toUpperCase] that maps the letters
    [a] to [z] and leaves every other byte; on ASCII text, which is all
    the samples use, it is [toUpperCase]. *)
Definition asciiUpperCase (s : string) : string :=
  (fix go (s : string) : string :=
     match s with
     | EmptyString => EmptyString
     | String c s' =>
         let n := nat_of_ascii c in
         String (if ((97 <=? n) && (n <=? 122))%nat
                 then ascii_of_nat (n - 32) else c)
                (go s')
     end) s.

Definition account1 : string :=
  "GCLIENT123456789012345678901234567890123456789012345".

(** A deposit of account [account1], created at time [created]. *)
Definition sampleTransfer (i : string) (k : TransferKind) (code : string)
    (created : Z) (tok : option ref) : Transfer :=
  {| id := i; kind := k; mode := interactive;
     Transfers.status := INTERACTIVE;
     assetCode := code; assetIssuer := None;
     Transfers.account := account1; amount := Some "100";
     interactiveToken := tok; interactiveUrl := None;
     more_info_url := None; externalTransactionId := None;
     stellarTransactionId := None; Transfers.message := None;
     createdAt := created; updatedAt := created; completedAt := None;
     metadata := Some [] |}.

Definition sampleToken : InteractiveToken :=
  mkInteractiveToken "tok_1" 1000 901000 false.

Definition sampleHeap : Heap := {[ 1%positive := sampleToken ]}.

(** A store holding one interactive deposit, [tx_1], with token [tok_1]. *)
Definition sampleStore : Store :=
  create sampleHeap empty_store
         (sampleTransfer "tx_1" deposit "USDC" 1000 (Some 1%positive)).

Definition sampleWorld : World := mkWorld sampleHeap sampleStore.

(** The same with a withdrawal. *)
Definition sampleWorldW : World :=
  mkWorld sampleHeap
    (create sampleHeap empty_store
       (sampleTransfer "tx_1" withdrawal "USDC" 1000 (Some 1%positive))).

(** The five transfers of the store tests, plus one of another account. *)
Definition listStore : Store :=
  let other :=
    apply_updates (sampleTransfer "tx_other" deposit "USDC" 6000 None)
      {| u_id := None; u_kind := None; u_mode := None; u_status := None;
         u_assetCode := None; u_assetIssuer := None;
         u_account := Some "GOTHER"; u_amount := None;
         u_interactiveToken := None; u_interactiveUrl := None;
         u_more_info_url := None; u_externalTransactionId := None;
         u_stellarTransactionId := None; u_message := None;
         u_createdAt := None; u_updatedAt := None; u_completedAt := None;
         u_metadata := None |} in
  fold_left (create ∅) 
    [sampleTransfer "tx_1" deposit "USDC" 1000 None;
     sampleTransfer "tx_2" deposit "BTC" 2000 None;
     sampleTransfer "tx_3" withdrawal "USDC" 3000 None;
     sampleTransfer "tx_4" withdrawal "BTC" 4000 None;
     sampleTransfer "tx_5" deposit "USDC" 5000 None;
     other]
    empty_store.

(** [{ status: 'pending_anchor' }] *)
Definition statusOverride : TransferUpdates :=
  {| u_id := None; u_kind := None; u_mode := None;
     u_status := Some PENDING_ANCHOR;
     u_assetCode := None; u_assetIssuer := None; u_account := None;
     u_amount := None; u_interactiveToken := None;
     u_interactiveUrl := None; u_more_info_url := None;
     u_externalTransactionId := None; u_stellarTransactionId := None;
     u_message := None; u_createdAt := None; u_updatedAt := None;
     u_completedAt := None; u_metadata := None |}.

(** A server for the domain [d] with the single asset [USDC], nothing
    mounted. *)
Definition sampleConfig (d : string) : AnchorServerConfig :=
  {| domain := d;
     jwtSecret := "test-secret-key-minimum-32-characters-required-for-security";
     network := testnet;
     assets :=
       [("USDC",
         mkAssetConfig None None None None None
           (Some (mkAssetOperationConfig true (Some 1) (Some 10000) None None))
           (Some (mkAssetOperationConfig true None None None None)))];
     meta := None |}.

Definition sampleServer (d : string) : AnchorServer :=
  mkAnchorServer (sampleConfig d)
    "GBGX7YVAO5PQVDKHRKAFUQKJRYFZQX5KTCQ7W3TQAQSN3I5L5GEQ6NNM" ∅.

(** A stand-in for the [URL] class: every base parses; the path replaces
    nothing and the parameters are appended. *)
Definition sampleUrl (base : string) (path : option string)
    (params : list (string * string)) : option string :=
  Some (base +:+ default EmptyString path +:+ "?"
        +:+ String.concat "&" (List.map (fun kv => kv.1 +:+ "=" +:+ kv.2)
                                        params)).

(** Stand-ins for the SDK and the JWT library: the envelope text is the
    nonce of the challenge, the client account is unknown to Horizon, and
    every declared signer signed. *)
Definition sampleBuild (now : Z) (entropy client : string) : string :=
  entropy.

Definition sampleRead (now : Z) (envelope : string)
  : result string Auth.ChallengeRead :=
  Ok (Auth.mkChallengeRead
        [Auth.mkOperation "manageData" (Some (Auth.Buf envelope))]
        account1).

Definition sampleLoadAccount (a : string) : option Auth.AccountData := None.

Definition sampleVerifySigners (now : Z) (envelope : string)
    (sgs : list string) : result string (list string) := Ok sgs.

Definition sampleSign (p : Auth.JwtPayload) (secret : string) : string :=
  "jwt:" +:+ Auth.sub p.

Definition sampleJwtVerify (now : Z) (tok secret : string)
  : option Auth.JwtPayload :=
  if String.eqb tok "good" then
    Some (Auth.mkJwtPayload "localhost:8000" account1 0 86400)
  else None.

End Samples.

(** ** Further sample data *)

Module Samples2.
Import Js Errors Transfers Sep24Service Server.

(** Horizon knows the client account: one signer, the master key, of
    weight 1, and a medium threshold of 1. *)
Definition knownAccount (a : string) : option Auth.AccountData :=
  Some (Auth.mkAccountData [(a, 1)] 1).

(** [{ id: 'other', status: 'completed', amount: '99.5',
       stellarTransactionId: 'abc123', message: undefined,
       updatedAt: 1, completedAt: 6999 }] *)
Definition settled : TransferUpdates :=
  {| u_id := Some "other"; u_kind := None; u_mode := None;
     u_status := Some COMPLETED;
     u_assetCode := None; u_assetIssuer := None; u_account := None;
     u_amount := Some (Some "99.5"); u_interactiveToken := None;
     u_interactiveUrl := None; u_more_info_url := None;
     u_externalTransactionId := None;
     u_stellarTransactionId := Some (Some "abc123");
     u_message := Some None; u_createdAt := None; u_updatedAt := Some 1;
     u_completedAt := Some (Some 6999); u_metadata := None |}.

End Samples2.


(** * Properties *)

(** ** The insertion-ordered map *)

Section MapFacts.
Context {V : Type}.
Implicit Types (m : list (string * V)) (k : string) (v : V).

Lemma map_get_set_eq m k v : Js.map_get (Js.map_set m k v) k = Some v.
Proof.
  induction m as [|[k' v'] m IH]; simpl.
  - by rewrite String.eqb_refl.
  - destruct (String.eqb k k') eqn:E; simpl; rewrite E; [done | exact IH].
Qed.

Lemma map_get_set_ne m k k' v :
  k ≠ k' → Js.map_get (Js.map_set m k v) k' = Js.map_get m k'.
Proof.
  intros Hne. induction m as [|[k0 v0] m IH]; simpl.
  - destruct (String.eqb_spec k' k); [congruence | done].
  - destruct (String.eqb_spec k k0) as [->|]; simpl.
    + destruct (String.eqb_spec k' k0); [congruence | done].
    + by rewrite IH.
Qed.

Lemma map_has_set m k k' v :
  Js.map_has (Js.map_set m k v) k' = Js.map_has m k' || String.eqb k k'.
Proof.
  unfold Js.map_has. destruct (String.eqb_spec k k') as [->|Hne].
  - rewrite map_get_set_eq. by destruct (Js.map_get m k').
  - rewrite map_get_set_ne by done. by destruct (Js.map_get m k').
Qed.

End MapFacts.

(** ** errors.ts: the envelope of a [SepError] *)

Lemma has_key_spread (a b : Js.object) k :
  Js.has_key a k = true → Js.has_key (Js.spread a b) k = true.
Proof.
  unfold Js.spread, Js.has_key. revert a.
  induction b as [|[k' v'] b IH]; intros a Ha; simpl; [done|].
  apply IH. rewrite map_has_set, Ha. done.
Qed.

(** Whatever its details, the JSON form of a [SepError] has both members;
    so has every response a router's [catch] block sends. *)
Lemma toJSON_has_error_and_code (e : Errors.SepError) :
  Js.has_key (Errors.toJSON e) "error" = true
  ∧ Js.has_key (Errors.toJSON e) "code" = true.
Proof. split; apply has_key_spread; reflexivity. Qed.

Lemma respondError_is_envelope dflt e :
  Errors.is_error_envelope (Errors.respondError dflt e) = true.
Proof.
  unfold Errors.is_error_envelope, Errors.respondError. simpl.
  destruct (toJSON_has_error_and_code (Errors.toSepError dflt e)) as [-> ->].
  done.
Qed.



(** ** transfer-store.ts *)

Section StoreFacts.
Import Transfers.

(** The copy [update] stores keeps the requested id. *)
Lemma id_set_updatedAt t now : id (set_updatedAt t now) = id t.
Proof. reflexivity. Qed.

Lemma getById_update_found h st now i u existing :
  getById st i = Some existing →
  ∃ st',
    update h st now i u
    = (Some (set_updatedAt (set_id (apply_updates existing u) i) now), st')
    ∧ getById st' i
      = Some (set_updatedAt (set_id (apply_updates existing u) i) now).
Proof.
  unfold getById, update. intros ->. eexists. split; [reflexivity|].
  simpl. apply map_get_set_eq.
Qed.

End StoreFacts.

(** C10. [update] on an id the store does not hold returns [null] and
    leaves the store as it was: the transfer map and the token index are
    both unchanged. *)
Theorem update_unknown_id_returns_null
    (h : Transfers.Heap) (st : Transfers.Store) (now : Z) (i : string)
    (u : Transfers.TransferUpdates) :
  Transfers.getById st i = None →
  Transfers.update h st now i u = (None, st)
  ∧ Transfers.transfers (Transfers.update h st now i u).2
    = Transfers.transfers st
  ∧ Transfers.tokenIndex (Transfers.update h st now i u).2
    = Transfers.tokenIndex st.
Proof.
  unfold Transfers.getById, Transfers.update. intros ->. done.
Qed.

Lemma update_unknown_id_returns_null_witness :
  Transfers.getById Samples.sampleStore "missing" = None
  ∧ Transfers.update Samples.sampleHeap Samples.sampleStore 2000 "missing"
      Samples.statusOverride
    = (None, Samples.sampleStore).
Proof.
  split; [reflexivity|].
  apply (update_unknown_id_returns_null Samples.sampleHeap
           Samples.sampleStore 2000 "missing" Samples.statusOverride).
  reflexivity.
Defined.

(** ** sep24-service.ts: completing the interactive step *)

Section CompleteInteractive.
Import Transfers Sep24Service Spec.

Lemma getNextStatus_cases t : getNextStatus t = expectedNextStatus t.
Proof. unfold getNextStatus, expectedNextStatus. by destruct (status t). Qed.

Lemma validate_valid w now i tok t :
  validPair w now i tok t → validateInteractiveToken w now i tok = Ok t.
Proof.
  intros [Hget (tk & Htk & Htok & Hused & Hexp)].
  unfold validateInteractiveToken. rewrite Hget, Htk, Htok, Hused.
  rewrite String.eqb_refl. simpl.
  destruct (Z.ltb_spec (expiresAt tk) now); [lia | done].
Qed.

(** Conversely a successful validation only happens on a valid pair. *)
Lemma validate_Ok_inv w now i tok t :
  validateInteractiveToken w now i tok = Ok t → validPair w now i tok t.
Proof.
  unfold validateInteractiveToken, validPair.
  destruct (getById (store w) i) as [t0|] eqn:Hget; [|done].
  destruct (tokenOf (heap w) t0) as [tk|] eqn:Htk; [|done].
  destruct (String.eqb_spec (token tk) tok) as [Heq|]; simpl; [|done].
  destruct (used tk) eqn:Hused; [done|].
  destruct (Z.ltb_spec (expiresAt tk) now); [done|].
  intros [= <-]. split; [done|]. exists tk. repeat split; [done..|lia].
Qed.

(** What a successful [completeInteractive] leaves behind. *)
Lemma completeInteractive_valid w now now' i tok t :
  validPair w now i tok t →
  ∃ t' w',
    completeInteractive w now now' i tok = (Ok t', w')
    ∧ getById (store w') i = Some t'
    ∧ id t' = i
    ∧ kind t' = kind t
    ∧ status t' = expectedNextStatus t
    ∧ ∃ tk', tokenOf (heap w') t' = Some tk'
             ∧ token tk' = tok ∧ used tk' = true.
Proof.
  intros Hv. pose proof (validate_valid _ _ _ _ _ Hv) as Hval.
  destruct Hv as [Hget (tk & Htk & Htok & Hused & Hexp)].
  unfold completeInteractive. rewrite Hval.
  unfold tokenOf in Htk.
  destruct (interactiveToken t) as [r|] eqn:Hr; [|done].
  match goal with
  | |- context [update ?h ?s ?n ?j ?u] =>
      destruct (getById_update_found h s n j u t Hget) as (st' & Hupd & Hget')
  end.
  rewrite Hupd. do 2 eexists. split; [reflexivity|].
  split; [exact Hget'|]. split; [reflexivity|]. split; [reflexivity|].
  split; [apply getNextStatus_cases|].
  exists (mark_used tk). unfold tokenOf. simpl.
  rewrite lookup_alter_eq, Htk. done.
Qed.

End CompleteInteractive.

(** C2. For every valid (id, token) pair, [completeInteractive] succeeds;
    the stored transfer then has status [pending_user_transfer_start] if it
    was a deposit in status [incomplete], [pending_anchor] if it was a
    withdrawal in status [incomplete], and its former status otherwise; in
    every case its interactive token is marked used. *)
Theorem completeInteractive_next_status
    (w : Sep24Service.World) (now now' : Z) (i tok : string)
    (t : Transfers.Transfer) :
  Spec.validPair w now i tok t →
  ∃ t' w',
    Sep24Service.completeInteractive w now now' i tok = (Ok t', w')
    ∧ Transfers.getById (Sep24Service.store w') i = Some t'
    ∧ Transfers.status t'
      = match Transfers.status t, Transfers.kind t with
        | Transfers.INCOMPLETE, Transfers.deposit =>
            Transfers.PENDING_USER_TRANSFER_START
        | Transfers.INCOMPLETE, Transfers.withdrawal =>
            Transfers.PENDING_ANCHOR
        | s, _ => s
        end
    ∧ Transfers.used
        <$> Transfers.tokenOf (Sep24Service.heap w') t' = Some true.
Proof.
  intros Hv.
  destruct (completeInteractive_valid w now now' i tok t Hv)
    as (t' & w' & Hc & Hget & _ & _ & Hst & tk' & Htk' & _ & Hu).
  exists t', w'. repeat split; try done.
  by rewrite Htk'; simpl; rewrite Hu.
Qed.

Lemma completeInteractive_next_status_witness :
  ∃ t' w',
    Sep24Service.completeInteractive Samples.sampleWorld 2000 2001
      "tx_1" "tok_1" = (Ok t', w')
    ∧ Transfers.status t' = Transfers.PENDING_USER_TRANSFER_START.
Proof.
  destruct (completeInteractive_next_status Samples.sampleWorld 2000 2001
              "tx_1" "tok_1"
              (Samples.sampleTransfer "tx_1" Transfers.deposit "USDC" 1000
                 (Some 1%positive)))
    as (t' & w' & Hc & _ & Hs & _).
  - split; [reflexivity|]. exists Samples.sampleToken.
    repeat split; try reflexivity. simpl. lia.
  - exists t', w'. split; [exact Hc | exact Hs].
Defined.

(** A withdrawal in status [incomplete] moves to [pending_anchor]. *)
Example completeInteractive_withdrawal :
  Transfers.status <$>
    Transfers.getById
      (Sep24Service.store
         (Sep24Service.completeInteractive Samples.sampleWorldW 2000 2001
            "tx_1" "tok_1").2) "tx_1"
  = Some Transfers.PENDING_ANCHOR.
Proof. vm_compute. reflexivity. Qed.

(** ** The interactive token is single-use *)

Section SingleUse.
Import Js Errors Transfers Sep24Service Spec.

(** Once the stored token object is marked used, validation stops at the
    [used] check, before the expiry check. *)
Lemma validate_used w now i tok t tk :
  getById (store w) i = Some t →
  tokenOf (heap w) t = Some tk → token tk = tok → used tk = true →
  validateInteractiveToken w now i tok
  = Throw (PlainError "Token already used").
Proof.
  intros Hget Htk Htok Hused. unfold validateInteractiveToken.
  by rewrite Hget, Htk, Htok, Hused, String.eqb_refl.
Qed.

Lemma completeInteractive_Ok_inv w now now' i tok t' w' :
  completeInteractive w now now' i tok = (Ok t', w') →
  ∃ t, validPair w now i tok t.
Proof.
  unfold completeInteractive.
  destruct (validateInteractiveToken w now i tok) as [t|e] eqn:Hv; [|done].
  intros _. exists t. by apply validate_Ok_inv.
Qed.

Lemma completeInteractive_again w now now' i tok t' w' :
  completeInteractive w now now' i tok = (Ok t', w') →
  ∀ now2 now2',
    completeInteractive w' now2 now2' i tok
    = (Throw (PlainError "Token already used"), w').
Proof.
  intros Hc now2 now2'.
  destruct (completeInteractive_Ok_inv _ _ _ _ _ _ _ Hc) as [t Hv].
  destruct (completeInteractive_valid w now now' i tok t Hv)
    as (t1 & w1 & Hc1 & Hget & _ & _ & _ & tk' & Htk' & Htok & Hu).
  rewrite Hc1 in Hc. injection Hc as <- <-.
  unfold completeInteractive.
  by rewrite (validate_used _ _ _ _ _ _ Hget Htk' Htok Hu).
Qed.

End SingleUse.

(** C3, as the code has it.  After a successful
    [completeInteractive(id, tok)], a second call with the same pair fails
    at any later time: the service throws the plain error
    ["Token already used"] and changes nothing, and
    [POST /interactive/complete] answers it with status 400 and the
    envelope code ["error"]. *)
Theorem completeInteractive_token_single_use
    (w : Sep24Service.World) (now now' : Z) (i tok : string)
    (t' : Transfers.Transfer) (w' : Sep24Service.World) :
  Sep24Service.completeInteractive w now now' i tok = (Ok t', w') →
  ∀ now2 now2' : Z,
    Sep24Service.completeInteractive w' now2 now2' i tok
    = (Throw (Errors.PlainError "Token already used"), w')
    ∧ ∀ body : gmap string string,
        body !! "transaction_id" = Some i → body !! "token" = Some tok →
        Js.truthy i = true → Js.truthy tok = true →
        Http.interactiveComplete w' now2 now2' body
        = (Errors.mkResponse 400
             (Errors.JsonBody
                [("error", Js.JString "Token already used");
                 ("code", Js.JString "error")]), w').
Proof.
  intros Hc now2 now2'.
  pose proof (completeInteractive_again _ _ _ _ _ _ _ Hc now2 now2') as H2.
  split; [exact H2|].
  intros body Hi Ht Hti Htt. unfold Http.interactiveComplete.
  rewrite Hi, Ht. simpl. rewrite Hti, Htt. simpl.
  unfold Sep24Service.TransferManager_completeInteractive. rewrite H2.
  reflexivity.
Qed.

Lemma completeInteractive_token_single_use_witness :
  isOk (Sep24Service.completeInteractive Samples.sampleWorld 2000 2001
          "tx_1" "tok_1").1 = true
  ∧ (Sep24Service.completeInteractive
       (Sep24Service.completeInteractive Samples.sampleWorld 2000 2001
          "tx_1" "tok_1").2 3000 3001 "tx_1" "tok_1").1
    = Throw (Errors.PlainError "Token already used").
Proof.
  destruct (Sep24Service.completeInteractive Samples.sampleWorld 2000 2001
              "tx_1" "tok_1") as [[t'|e] w'] eqn:E.
  - split; [reflexivity|]. simpl.
    destruct (completeInteractive_token_single_use _ _ _ _ _ _ _ E 3000 3001)
      as [-> _].
    reflexivity.
  - vm_compute in E. discriminate E.
Defined.

(** C3 as stated fails on the envelope code: replaying the pair
    [(tx_1, tok_1)] on [POST /interactive/complete] is answered with the
    code ["error"], not ["bad_request"]. *)
Lemma completeInteractive_replay_code_is_error :
  let body : gmap string string :=
    {[ "transaction_id" := "tx_1"; "token" := "tok_1" ]} in
  let first := Http.interactiveComplete Samples.sampleWorld 2000 2001 body in
  let second := Http.interactiveComplete first.2 3000 3001 body in
  Errors.res_status first.1 = 200
  ∧ Errors.res_status second.1 = 400
  ∧ Errors.res_body second.1
    = Errors.JsonBody [("error", Js.JString "Token already used");
                       ("code", Js.JString "error")]
  ∧ Errors.res_body second.1
    ≠ Errors.JsonBody [("error", Js.JString "Token already used");
                       ("code", Js.JString "bad_request")].
Proof. vm_compute. repeat split; congruence. Qed.

(** ** sep24-service.ts: [updateStatus] *)

Section UpdateStatus.
Import Transfers Sep24Service.

Lemma isTerminalStatus_spec s :
  isTerminalStatus s = true ↔ s = COMPLETED ∨ s = ERROR ∨ s = REFUNDED.
Proof.
  unfold isTerminalStatus. rewrite bool_decide_eq_true.
  rewrite !elem_of_cons, elem_of_nil. tauto.
Qed.

(** The record [updateStatus] stores, in general: status and completion
    time come from the extra updates when those carry such a key. *)
Lemma updateStatus_found w now now' i s updates existing :
  getById (store w) i = Some existing →
  ∃ t' w',
    updateStatus w now now' i s updates = (Ok t', w')
    ∧ getById (store w') i = Some t'
    ∧ status t' = default s (updates ≫= u_status)
    ∧ completedAt t'
      = default (if isTerminalStatus s then Some now else None)
                (updates ≫= u_completedAt).
Proof.
  intros Hget. unfold updateStatus. rewrite Hget.
  match goal with
  | |- context [update ?h ?st ?n ?j ?u] =>
      destruct (getById_update_found h st n j u existing Hget)
        as (st' & Hupd & Hget')
  end.
  rewrite Hupd. do 2 eexists. split; [reflexivity|].
  split; [exact Hget'|].
  destruct updates as [u|]; simpl.
  - destruct (u_status u), (u_completedAt u); done.
  - done.
Qed.

End UpdateStatus.

(** C4, as the code has it.  For an existing transfer, [updateStatus(id, s,
    updates)] whose extra updates carry neither a [status] nor a
    [completedAt] key stores status [s], with [completedAt] set to the
    current time when [s] is [completed], [error] or [refunded] and cleared
    otherwise; so afterwards [completedAt] is set exactly when the status
    is terminal. *)
Theorem updateStatus_sets_status_and_completedAt
    (w : Sep24Service.World) (now now' : Z) (i : string)
    (s : Transfers.TransferStatus)
    (updates : option Transfers.TransferUpdates)
    (existing : Transfers.Transfer) :
  Transfers.getById (Sep24Service.store w) i = Some existing →
  updates ≫= Transfers.u_status = None →
  updates ≫= Transfers.u_completedAt = None →
  ∃ t' w',
    Sep24Service.updateStatus w now now' i s updates = (Ok t', w')
    ∧ Transfers.getById (Sep24Service.store w') i = Some t'
    ∧ Transfers.status t' = s
    ∧ Transfers.completedAt t'
      = (if bool_decide (s ∈ [Transfers.COMPLETED; Transfers.ERROR;
                              Transfers.REFUNDED])
         then Some now else None)
    ∧ (is_Some (Transfers.completedAt t')
       ↔ Transfers.status t' ∈ [Transfers.COMPLETED; Transfers.ERROR;
                                Transfers.REFUNDED]).
Proof.
  intros Hget Hs Hc.
  destruct (updateStatus_found w now now' i s updates existing Hget)
    as (t' & w' & Hu & Hget' & Hst & Hca).
  rewrite Hs in Hst. rewrite Hc in Hca. simpl in Hst, Hca.
  exists t', w'. repeat split; try done.
  - rewrite Hca, Hst. unfold Sep24Service.isTerminalStatus.
    case_bool_decide; [done|]. by intros [? [=]].
  - rewrite Hca, Hst. unfold Sep24Service.isTerminalStatus.
    case_bool_decide; [done|]. done.
Qed.

Lemma updateStatus_sets_status_and_completedAt_witness :
  ∃ t' w',
    Sep24Service.updateStatus Samples.sampleWorld 5000 5001 "tx_1"
      Transfers.COMPLETED None = (Ok t', w')
    ∧ Transfers.status t' = Transfers.COMPLETED
    ∧ Transfers.completedAt t' = Some 5000.
Proof.
  destruct (updateStatus_sets_status_and_completedAt Samples.sampleWorld
              5000 5001 "tx_1" Transfers.COMPLETED None
              (Samples.sampleTransfer "tx_1" Transfers.deposit "USDC" 1000
                 (Some 1%positive)))
    as (t' & w' & Hu & _ & Hs & Hc & _); try reflexivity.
  exists t', w'. split; [exact Hu|]. split; [exact Hs | exact Hc].
Defined.

(** C4 as stated fails when the extra updates carry a [status] key:
    [updateStatus("tx_1", COMPLETED, { status: 'pending_anchor' })] stores
    the status [pending_anchor], not [completed], together with a
    completion time. *)
Lemma updateStatus_status_override :
  let r := Sep24Service.updateStatus Samples.sampleWorld 5000 5001 "tx_1"
             Transfers.COMPLETED (Some Samples.statusOverride) in
  Samples.statusOverride.(Transfers.u_completedAt) = None
  ∧ ∃ t', r.1 = Ok t'
      ∧ Transfers.getById (Sep24Service.store r.2) "tx_1" = Some t'
      ∧ Transfers.status t' = Transfers.PENDING_ANCHOR
      ∧ Transfers.status t' ≠ Transfers.COMPLETED
      ∧ Transfers.completedAt t' = Some 5000
      ∧ Transfers.status t' ∉ [Transfers.COMPLETED; Transfers.ERROR;
                               Transfers.REFUNDED].
Proof.
  split; [reflexivity|]. eexists. split; [vm_compute; reflexivity|].
  repeat split; try done. simpl. rewrite !elem_of_cons, elem_of_nil.
  intros [?|[?|[?|[]]]]; discriminate.
Qed.

(** ** transfer-store.ts: [listByAccount] *)

Section Listing.
Import Transfers Spec.

Lemma insert_desc_Permutation x l : insert_desc x l ≡ₚ x :: l.
Proof.
  induction l as [|y l IH]; simpl; [done|].
  destruct (createdAt y <=? createdAt x)%Z; [done|].
  rewrite IH. apply Permutation_swap.
Qed.

Lemma sort_desc_Permutation l : sort_desc l ≡ₚ l.
Proof.
  induction l as [|x l IH]; simpl; [done|].
  by rewrite insert_desc_Permutation, IH.
Qed.

Lemma insert_desc_sorted x l :
  StronglySorted newerOrEqual l →
  StronglySorted newerOrEqual (insert_desc x l).
Proof.
  induction l as [|y l IH]; simpl; intros Hs.
  - repeat constructor.
  - apply StronglySorted_cons in Hs as [Hy Hl].
    destruct (Z.leb_spec (createdAt y) (createdAt x)) as [Hle|Hgt].
    + apply StronglySorted_cons. split.
      * constructor; [exact Hle|].
        eapply Forall_impl; [exact Hy|]. unfold newerOrEqual. intros; lia.
      * apply StronglySorted_cons. done.
    + apply StronglySorted_cons. split; [|by apply IH].
      rewrite insert_desc_Permutation. constructor; [|done].
      unfold newerOrEqual. lia.
Qed.

Lemma sort_desc_sorted l : StronglySorted newerOrEqual (sort_desc l).
Proof.
  induction l as [|x l IH]; simpl; [constructor|].
  by apply insert_desc_sorted.
Qed.

Lemma filter_filter_andb {A} (f g : A → bool) l :
  List.filter g (List.filter f l) = List.filter (fun x => f x && g x) l.
Proof.
  induction l as [|x l IH]; simpl; [done|].
  destruct (f x); simpl; [|done]. destruct (g x); by rewrite IH.
Qed.

Lemma filter_true {A} (l : list A) : List.filter (fun _ => true) l = l.
Proof. induction l; simpl; congruence. Qed.

Lemma filter_ext_bool {A} (f g : A → bool) l :
  (∀ x, f x = g x) → List.filter f l = List.filter g l.
Proof.
  intros E. induction l as [|x l IH]; simpl; [done|].
  rewrite E, IH. done.
Qed.

(** The four successive filters select the matching transfers. *)
Lemma filters_match st acct options :
  filter_noOlderThan (options ≫= o_noOlderThan)
    (filter_kind (options ≫= o_kind)
       (filter_assetCode (options ≫= o_assetCode)
          (List.filter (fun t => String.eqb (account t) acct)
                       (Js.map_values (transfers st)))))
  = List.filter (matchesOptions acct options) (Js.map_values (transfers st)).
Proof.
  unfold filter_noOlderThan, filter_kind, filter_assetCode, matchesOptions.
  destruct (options ≫= o_assetCode) as [c|];
    [destruct (Js.truthy c)|];
    destruct (options ≫= o_kind) as [k|];
    destruct (options ≫= o_noOlderThan) as [d|];
    rewrite ?filter_filter_andb; apply filter_ext_bool; intros t;
    rewrite ?andb_true_r, <- ?andb_assoc; reflexivity.
Qed.

Lemma listByAccount_unfold st acct options :
  listByAccount st acct options
  = apply_limit (options ≫= o_limit)
      (sort_desc (List.filter (matchesOptions acct options)
                              (Js.map_values (transfers st)))).
Proof. unfold listByAccount. by rewrite filters_match. Qed.

Lemma matchesOptions_withoutLimit acct options t :
  matchesOptions acct (withoutLimit options) t = matchesOptions acct options t.
Proof. by destruct options. Qed.

Lemma listByAccount_withoutLimit st acct options :
  listByAccount st acct (withoutLimit options)
  = sort_desc (List.filter (matchesOptions acct options)
                           (Js.map_values (transfers st))).
Proof.
  rewrite listByAccount_unfold.
  replace (withoutLimit options ≫= o_limit) with (@None Z)
    by (by destruct options).
  simpl. f_equal. apply filter_ext_bool. intros t.
  apply matchesOptions_withoutLimit.
Qed.

Lemma apply_limit_sorted o l :
  StronglySorted newerOrEqual l → StronglySorted newerOrEqual (apply_limit o l).
Proof.
  intros Hs. unfold apply_limit. destruct o as [n|]; [|done].
  destruct (0 <? n)%Z; [|done].
  rewrite <- (take_drop (Z.to_nat n) l) in Hs.
  by apply StronglySorted_app_1_l in Hs.
Qed.

End Listing.

(** C8. [listByAccount] returns its result newest first; without a limit,
    or with a limit that is zero or negative, the result holds exactly the
    stored transfers of the account that pass the asset-code, kind and
    not-older-than filters; with a positive limit [n] it is the first [n]
    entries of that sorted list. *)
Theorem listByAccount_newest_first_filtered_limited
    (st : Transfers.Store) (acct : string)
    (options : option Transfers.FindByAccountOptions) :
  let result := Transfers.listByAccount st acct options in
  let unlimited :=
    Transfers.listByAccount st acct (Spec.withoutLimit options) in
  StronglySorted Spec.newerOrEqual result
  ∧ StronglySorted Spec.newerOrEqual unlimited
  ∧ unlimited ≡ₚ List.filter (Spec.matchesOptions acct options)
                   (Js.map_values (Transfers.transfers st))
  ∧ (∀ t, t ∈ unlimited ↔
          t ∈ Js.map_values (Transfers.transfers st)
          ∧ Spec.matchesOptions acct options t = true)
  ∧ (∀ n, options ≫= Transfers.o_limit = Some n → (0 < n)%Z →
          result = take (Z.to_nat n) unlimited)
  ∧ (∀ n, options ≫= Transfers.o_limit = Some n → (n <= 0)%Z →
          result = unlimited)
  ∧ (options ≫= Transfers.o_limit = None → result = unlimited).
Proof.
  intros result unlimited. subst result unlimited.
  rewrite listByAccount_withoutLimit, listByAccount_unfold.
  split; [apply apply_limit_sorted, sort_desc_sorted|].
  split; [apply sort_desc_sorted|].
  split; [apply sort_desc_Permutation|].
  split.
  { intros t. rewrite sort_desc_Permutation.
    rewrite list_elem_of_In, filter_In, <- list_elem_of_In. done. }
  unfold Transfers.apply_limit.
  split; [|split].
  - intros n -> Hn. destruct (Z.ltb_spec 0 n); [done | lia].
  - intros n -> Hn. destruct (Z.ltb_spec 0 n); [lia | done].
  - by intros ->.
Qed.

(** The listing scenario: three filters and a limit of one. *)
Example listByAccount_all_filters :
  Transfers.id <$>
    Transfers.listByAccount Samples.listStore Samples.account1
      (Some (Transfers.mkFindByAccountOptions (Some "USDC")
               (Some Transfers.deposit) (Some 2000) (Some 1)))
  = ["tx_5"].
Proof. vm_compute. reflexivity. Qed.

Example listByAccount_no_options :
  Transfers.id <$>
    Transfers.listByAccount Samples.listStore Samples.account1 None
  = ["tx_5"; "tx_4"; "tx_3"; "tx_2"; "tx_1"].
Proof. vm_compute. reflexivity. Qed.

Example listByAccount_limit_zero :
  Transfers.id <$>
    Transfers.listByAccount Samples.listStore Samples.account1
      (Some (Transfers.mkFindByAccountOptions None None None (Some 0)))
  = ["tx_5"; "tx_4"; "tx_3"; "tx_2"; "tx_1"].
Proof. vm_compute. reflexivity. Qed.

Lemma listByAccount_newest_first_filtered_limited_witness :
  Transfers.id <$>
    Transfers.listByAccount Samples.listStore Samples.account1
      (Some (Transfers.mkFindByAccountOptions None None None (Some 2)))
  = ["tx_5"; "tx_4"].
Proof.
  destruct (listByAccount_newest_first_filtered_limited Samples.listStore
              Samples.account1
              (Some (Transfers.mkFindByAccountOptions None None None
                       (Some 2))))
    as (_ & _ & _ & _ & Hlim & _).
  rewrite (Hlim 2 eq_refl ltac:(lia)). vm_compute. reflexivity.
Defined.

(** ** Asset validation at initiation *)

Section AssetValidation.
Import Js Errors Transfers Sep24Service.

Lemma includes_spec l x : includes l x = true ↔ x ∈ l.
Proof.
  unfold includes. rewrite existsb_exists, list_elem_of_In. split.
  - intros (y & Hy & E). apply String.eqb_eq in E. by subst.
  - intros H. exists x. split; [done | apply String.eqb_refl].
Qed.

Variable toUpperCase : string -> string.

(** The match is on the upper-cased codes. *)
Lemma assetSupported_spec cfg assets code :
  supportedAssets cfg = Some assets →
  assetSupported toUpperCase cfg code = true
  ↔ ∃ a, a ∈ assets ∧ toUpperCase a = toUpperCase code.
Proof.
  intros Hs. unfold assetSupported. rewrite Hs, includes_spec.
  rewrite list_elem_of_In, in_map_iff. setoid_rewrite list_elem_of_In.
  split.
  - intros (a & E & Ha). by exists a.
  - intros (a & Ha & E). by exists a.
Qed.

Variable url_build :
  string -> option string -> list (string * string) -> option string.

Lemma initiate_unsupported cfg k w now nowTok newId newTok req :
  assetSupported toUpperCase cfg (r_assetCode req) = false →
  initiate toUpperCase url_build cfg k w now nowTok newId newTok req
  = (Throw (PlainError (notSupportedMessage (r_assetCode req))), w).
Proof. intros H. unfold initiate. by rewrite H. Qed.

Lemma initiate_supported cfg k w now nowTok newId newTok req iurl murl :
  assetSupported toUpperCase cfg (r_assetCode req) = true →
  buildInteractiveUrl url_build cfg newId newTok = Some iurl →
  buildMoreInfoUrl url_build cfg newId = Ok murl →
  ∃ w' t,
    initiate toUpperCase url_build cfg k w now nowTok newId newTok req
    = (Ok (mkInitiateResponse newId iurl "interactive_customer_info_needed"),
       w')
    ∧ getById (store w') newId = Some t
    ∧ kind t = k ∧ status t = INCOMPLETE
    ∧ assetCode t = r_assetCode req.
Proof.
  intros Hs Hi Hm. unfold initiate. rewrite Hs, Hi, Hm.
  cbn [negb]. do 2 eexists. split; [reflexivity|]. split.
  - unfold getById, create. cbn [store].
    match goal with
    | |- context [tokenOf ?h ?t] => destruct (tokenOf h t)
    end; cbn [transfers]; apply (map_get_set_eq _ newId).
  - by destruct k.
Qed.

(** The SEP-24 routes report the service's plain error with status 400
    and the code ["error"]. *)
Lemma sep24Initiate_unsupported isValid server k w now nowTok newId newTok
    user body code :
  body !! "asset_code" = Some code → truthy code = true →
  (∀ a, body !! "account" = Some a → truthy a = true → isValid a = true) →
  truthy (Auth.sub user) = true →
  assetSupported toUpperCase (Http.managerConfig server) code = false →
  Http.sep24Initiate toUpperCase url_build isValid server k w now nowTok
                     newId newTok user body
  = (mkResponse 400
       (JsonBody [("error", JString (notSupportedMessage code));
                  ("code", JString "error")]), w).
Proof.
  intros Hc Htc Ha Hu Hs. unfold Http.sep24Initiate.
  rewrite Hc. cbn [truthy_opt]. rewrite Htc. cbn [negb].
  assert (truthy_opt (body !! "account")
          && negb (isValid (default EmptyString (body !! "account")))
          = false) as ->.
  { destruct (body !! "account") as [a|] eqn:Ea; [|done].
    simpl. destruct (truthy a) eqn:Et; [|done].
    simpl. by rewrite (Ha a eq_refl Et). }
  rewrite Hu. simpl.
  unfold TransferManager_initiateDeposit, TransferManager_initiateWithdraw,
    initiateDeposit, initiateWithdrawal.
  destruct k; rewrite initiate_unsupported by exact Hs; reflexivity.
Qed.

End AssetValidation.

(** C5, as the code has it.  For the SEP-24 interactive deposit and
    withdrawal, with a configured asset list: the requested code is
    supported exactly when its upper-cased form equals the upper-cased
    form of a configured code; a supported code passes on to the creation
    of the transfer; an unsupported one makes the service throw the plain
    error ["Asset <code> not supported by anchor"] and store nothing, and
    the route whose transfer manager has that configuration answers a
    request for that code with status 400 and the envelope code
    ["error"]. *)
Theorem sep24_initiation_asset_validation
    (toUpperCase : string -> string)
    (url_build :
       string -> option string -> list (string * string) -> option string)
    (isValidStellarAddress : string -> bool)
    (cfg : Transfers.Sep24TransferConfig) (assets : list string)
    (k : Transfers.TransferKind) (w : Sep24Service.World) (now nowTok : Z)
    (newId newTok : string) (req : Transfers.TransferRequest) :
  Transfers.supportedAssets cfg = Some assets →
  let code := Transfers.r_assetCode req in
  let matched := ∃ a, a ∈ assets ∧ toUpperCase a = toUpperCase code in
  (Sep24Service.assetSupported toUpperCase cfg code = true ↔ matched)
  ∧ (matched →
     ∀ iurl murl,
       Sep24Service.buildInteractiveUrl url_build cfg newId newTok
       = Some iurl →
       Sep24Service.buildMoreInfoUrl url_build cfg newId = Ok murl →
       ∃ w' t,
         Sep24Service.initiate toUpperCase url_build cfg k w now nowTok
           newId newTok req
         = (Ok (Transfers.mkInitiateResponse newId iurl
                  "interactive_customer_info_needed"), w')
         ∧ Transfers.getById (Sep24Service.store w') newId = Some t
         ∧ Transfers.kind t = k
         ∧ Transfers.status t = Transfers.INCOMPLETE)
  ∧ (¬ matched →
     Sep24Service.initiate toUpperCase url_build cfg k w now nowTok
       newId newTok req
     = (Throw (Errors.PlainError
                 ("Asset " +:+ code +:+ " not supported by anchor")), w)
     ∧ ∀ server user body,
         Http.managerConfig server = cfg →
         body !! "asset_code" = Some code →
         Js.truthy code = true →
         (∀ a, body !! "account" = Some a → Js.truthy a = true →
               isValidStellarAddress a = true) →
         Js.truthy (Auth.sub user) = true →
         Http.sep24Initiate toUpperCase url_build isValidStellarAddress
           server k w now nowTok newId newTok user body
         = (Errors.mkResponse 400
              (Errors.JsonBody
                 [("error",
                   Js.JString
                     ("Asset " +:+ code +:+ " not supported by anchor"));
                  ("code", Js.JString "error")]), w)).
Proof.
  intros Hs code matched.
  pose proof (assetSupported_spec toUpperCase cfg assets code Hs) as Hiff.
  split; [exact Hiff|]. split.
  - intros Hok iurl murl Hi Hm. apply Hiff in Hok.
    destruct (initiate_supported toUpperCase url_build cfg k w now nowTok
                newId newTok req iurl murl Hok Hi Hm)
      as (w' & t & H1 & H2 & H3 & H4 & _).
    by exists w', t.
  - intros Hno.
    assert (Sep24Service.assetSupported toUpperCase cfg code = false) as Hf.
    { apply not_true_iff_false. intros H. by apply Hno, Hiff. }
    split; [by apply initiate_unsupported|].
    intros server user body <- Hc Htc Ha Hu.
    by apply sep24Initiate_unsupported.
Qed.

Lemma sep24_initiation_asset_validation_witness :
  let server := Samples.sampleServer "localhost:8000" in
  let user := Auth.mkJwtPayload "localhost:8000" Samples.account1 0 86400 in
  Sep24Service.assetSupported Samples.asciiUpperCase
    (Http.managerConfig server) "usdc" = true
  ∧ Http.sep24Initiate Samples.asciiUpperCase Samples.sampleUrl
      (fun _ => true) server Transfers.deposit Samples.sampleWorld
      2000 2001 "tx_9" "tok_9" user {[ "asset_code" := "FAKE" ]}
    = (Errors.mkResponse 400
         (Errors.JsonBody
            [("error", Js.JString "Asset FAKE not supported by anchor");
             ("code", Js.JString "error")]), Samples.sampleWorld).
Proof.
  intros server user. split.
  - destruct (sep24_initiation_asset_validation Samples.asciiUpperCase
                Samples.sampleUrl (fun _ => true)
                (Http.managerConfig server) ["USDC"] Transfers.deposit
                Samples.sampleWorld 2000 2001 "tx_9" "tok_9"
                (Transfers.mkTransferRequest "usdc" None Samples.account1
                   None None None) eq_refl) as [H _].
    apply H. exists "USDC". split; [apply list_elem_of_here | reflexivity].
  - destruct (sep24_initiation_asset_validation Samples.asciiUpperCase
                Samples.sampleUrl (fun _ => true)
                (Http.managerConfig server) ["USDC"] Transfers.deposit
                Samples.sampleWorld 2000 2001 "tx_9" "tok_9"
                (Transfers.mkTransferRequest "FAKE" None Samples.account1
                   None None None) eq_refl) as (_ & _ & H).
    destruct H as [_ H].
    + intros (a & Ha & E). apply list_elem_of_singleton in Ha. subst a.
      vm_compute in E. discriminate E.
    + apply (H server user {[ "asset_code" := "FAKE" ]}).
      * reflexivity.
      * reflexivity.
      * reflexivity.
      * intros a Ha. vm_compute in Ha. discriminate Ha.
      * reflexivity.
Defined.

(** C5 as stated fails on both surfaces.  On the SEP-24 route an unknown
    asset is answered with the envelope code ["error"], not
    ["bad_request"].  On the SEP-6 route the lookup is by exact key, so
    [usdc] does not match the configured [USDC], and the message is
    ["Asset usdc is not supported"]. *)
Lemma initiation_asset_validation_differs :
  let server := Samples.sampleServer "localhost:8000" in
  let user := Auth.mkJwtPayload "localhost:8000" Samples.account1 0 86400 in
  let sep24 :=
    Http.sep24Initiate Samples.asciiUpperCase Samples.sampleUrl
      (fun _ => true) server
      Transfers.deposit Samples.sampleWorld 2000 2001 "tx_9" "tok_9" user
      {[ "asset_code" := "FAKE" ]} in
  let sep6 :=
    Http.sep6Deposit server None Samples.sampleWorld 2000 2001 "tx_9" user
      {[ "asset_code" := "usdc" ]} in
  sep24.1
  = Errors.mkResponse 400
      (Errors.JsonBody
         [("error", Js.JString "Asset FAKE not supported by anchor");
          ("code", Js.JString "error")])
  ∧ Js.map_get (Errors.toJSON (Errors.toSepError 400
        (Errors.PlainError "Asset FAKE not supported by anchor"))) "code"
    ≠ Some (Js.JString "bad_request")
  ∧ Js.map_has (Server.assets (Server.config server)) "USDC" = true
  ∧ sep6.1
    = Errors.mkResponse 400
        (Errors.JsonBody
           [("error", Js.JString "Asset usdc is not supported");
            ("code", Js.JString "bad_request")]).
Proof. vm_compute. repeat split; congruence. Qed.

(** The SEP-6 withdrawal route looks the code up the same way. *)
Example sep6_withdraw_lowercase_rejected :
  (Http.sep6Withdraw (Samples.sampleServer "localhost:8000") None
     Samples.sampleWorld 2000 2001 "tx_9" "12345"
     (Auth.mkJwtPayload "localhost:8000" Samples.account1 0 86400)
     {[ "asset_code" := "usdc"; "type" := "bank_account" ]}).1
  = Errors.mkResponse 400
      (Errors.JsonBody
         [("error", Js.JString "Asset usdc is not supported");
          ("code", Js.JString "bad_request")]).
Proof. vm_compute. reflexivity. Qed.

(** On the SEP-24 route [usdc] does match the configured [USDC]. *)
Example sep24_deposit_lowercase_accepted :
  Errors.res_status
    (Http.sep24Initiate Samples.asciiUpperCase Samples.sampleUrl
       (fun _ => true)
       (Samples.sampleServer "localhost:8000") Transfers.deposit
       Samples.sampleWorld 2000 2001 "tx_9" "tok_9"
       (Auth.mkJwtPayload "localhost:8000" Samples.account1 0 86400)
       {[ "asset_code" := "usdc" ]}).1
  = 200.
Proof. vm_compute. reflexivity. Qed.

(** ** auth-issuer.ts: replay of a verified challenge *)

Section Replay.
Import Js Errors Auth.

Variable readChallengeTx : Z -> string -> result string ChallengeRead.
Variable loadAccount : string -> option AccountData.
Variable verifyChallengeTxSigners :
  Z -> string -> list string -> result string (list string).
Variable jwt_sign : JwtPayload -> string -> string.
Variables domain jwtSecret : string.

Let verify :=
  verifyChallenge readChallengeTx loadAccount verifyChallengeTxSigners
                  jwt_sign domain jwtSecret.

(** The steps of [verifyChallenge] in order, with the threshold check as
    one test. *)
Lemma verifyChallenge_cases ns now e :
  verify ns now e
  = match readChallengeTx now e with
    | Throw m => (Throw (PlainError m), ns)
    | Ok res =>
        match verifyChallengeTxSigners now e
                (match loadAccount (clientAccountID res) with
                 | Some d => (signers d).*1
                 | None => [clientAccountID res]
                 end) with
        | Throw m => (Throw (PlainError m), ns)
        | Ok sb =>
            if match loadAccount (clientAccountID res) with
               | Some d =>
                   Z.ltb (signatureWeight sb (signers d)) (med_threshold d)
               | None => false
               end
            then
              (Throw (PlainError
                 (match loadAccount (clientAccountID res) with
                  | Some d =>
                      "Invalid challenge: signature weight "
                      +:+ pretty (signatureWeight sb (signers d))
                      +:+ " is less than required threshold "
                      +:+ pretty (med_threshold d)
                  | None => EmptyString
                  end)), ns)
            else
              match extractNonceFromTransaction (tx_operations res) with
              | None =>
                  (Throw (PlainError "Invalid challenge: nonce not found"),
                   ns)
              | Some nonce =>
                  if negb (truthy nonce) then
                    (Throw (PlainError "Invalid challenge: nonce not found"),
                     ns)
                  else if negb (Nonce.has ns nonce) then
                    (Throw (PlainError "Invalid or expired nonce"), ns)
                  else
                    (Ok (mkVerifyResult
                           (jwt_sign
                              (mkJwtPayload domain (clientAccountID res)
                                 (now / 1000)
                                 (now / 1000 + tokenExpiration))
                              jwtSecret)
                           (clientAccountID res)), ns)
              end
        end
    end.
Proof.
  unfold verify, verifyChallenge.
  destruct (readChallengeTx now e) as [res|]; [|done].
  destruct (loadAccount (clientAccountID res)) as [d|];
    destruct (verifyChallengeTxSigners now e _) as [sb|]; try done.
Qed.

(** No path of [verifyChallenge] writes the nonce store. *)
Lemma verifyChallenge_keeps_store ns now e : (verify ns now e).2 = ns.
Proof.
  rewrite verifyChallenge_cases.
  repeat (match goal with
          | |- context [match ?x with _ => _ end] => destruct x
          end; simpl; try reflexivity).
Qed.

(** Success does not depend on the store beyond the presence of the
    nonce, and it records the client account of the envelope. *)
Lemma verifyChallenge_Ok_inv ns now e r ns' :
  verify ns now e = (Ok r, ns') →
  ∃ res signedBy nonce,
    readChallengeTx now e = Ok res
    ∧ verifyChallengeTxSigners now e
        (match loadAccount (clientAccountID res) with
         | Some d => (signers d).*1
         | None => [clientAccountID res]
         end) = Ok signedBy
    ∧ extractNonceFromTransaction (tx_operations res) = Some nonce
    ∧ Nonce.has ns nonce = true
    ∧ account r = clientAccountID res.
Proof.
  rewrite verifyChallenge_cases.
  destruct (readChallengeTx now e) as [res|] eqn:Hr; [|done].
  destruct (verifyChallengeTxSigners now e _) as [sb|] eqn:Hv; [|done].
  destruct (match loadAccount _ with Some _ => Z.ltb _ _ | None => _ end)
    eqn:Hw; [done|].
  destruct (extractNonceFromTransaction _) as [nonce|] eqn:Hn; [|done].
  destruct (negb (truthy nonce)); [done|].
  destruct (Nonce.has ns nonce) eqn:Hh; [|done]. simpl.
  intros [= <- <-]. by exists res, sb, nonce.
Qed.

End Replay.

(** C1 fails on the code: verification reads the nonce registry and never
    marks or removes the nonce.  After a successful [verifyChallenge] the
    registry is what it was, the same call succeeds again with the same
    result, and so does a later call for which the SDK's own checks of the
    envelope still pass. *)
Theorem verifyChallenge_replay_accepted
    (readChallengeTx : Z -> string -> result string Auth.ChallengeRead)
    (loadAccount : string -> option Auth.AccountData)
    (verifyChallengeTxSigners :
       Z -> string -> list string -> result string (list string))
    (jwt_sign : Auth.JwtPayload -> string -> string)
    (domain jwtSecret : string)
    (ns : Nonce.NonceStore) (now : Z) (envelope : string)
    (r : Auth.VerifyResult) (ns' : Nonce.NonceStore) :
  let verify :=
    Auth.verifyChallenge readChallengeTx loadAccount
      verifyChallengeTxSigners jwt_sign domain jwtSecret in
  verify ns now envelope = (Ok r, ns') →
  ns' = ns
  ∧ verify ns' now envelope = (Ok r, ns')
  ∧ ∀ now2,
      readChallengeTx now2 envelope = readChallengeTx now envelope →
      (∀ sg, verifyChallengeTxSigners now2 envelope sg
             = verifyChallengeTxSigners now envelope sg) →
      ∃ r2, verify ns' now2 envelope = (Ok r2, ns')
            ∧ Auth.account r2 = Auth.account r.
Proof.
  intros verify H.
  assert (ns' = ns) as ->.
  { pose proof (verifyChallenge_keeps_store readChallengeTx loadAccount
                  verifyChallengeTxSigners jwt_sign domain jwtSecret
                  ns now envelope) as Hk.
    fold verify in Hk. rewrite H in Hk. exact Hk. }
  split; [done|]. split; [done|].
  intros now2 Hread Hsig. subst verify.
  rewrite verifyChallenge_cases in *. rewrite Hread.
  destruct (readChallengeTx now envelope) as [res|]; [|done].
  rewrite Hsig.
  destruct (verifyChallengeTxSigners now envelope _) as [sb|]; [|done].
  destruct (match loadAccount _ with
            | Some _ => Z.ltb _ _
            | None => _
            end); [done|].
  destruct (Auth.extractNonceFromTransaction _) as [nonce|]; [|done].
  destruct (negb (Js.truthy nonce)); [done|].
  destruct (negb (Nonce.has ns nonce)); [done|].
  injection H as <-. eexists. split; reflexivity.
Qed.

Lemma verifyChallenge_replay_accepted_witness :
  let verify :=
    Auth.verifyChallenge Samples.sampleRead Samples.sampleLoadAccount
      Samples.sampleVerifySigners Samples.sampleSign "localhost:8000"
      "test-secret-key-minimum-32-characters-required-for-security" in
  let ns : Nonce.NonceStore := (Nonce.add Nonce.empty 1000 "nonce-1").2 in
  isOk (verify ns 2000 "nonce-1").1 = true
  ∧ isOk (verify (verify ns 2000 "nonce-1").2 2000 "nonce-1").1 = true.
Proof.
  intros verify ns. subst verify.
  destruct (Auth.verifyChallenge _ _ _ _ _ _ ns 2000 "nonce-1")
    as [[r|e] ns'] eqn:E.
  - split; [reflexivity|]. simpl.
    destruct (verifyChallenge_replay_accepted _ _ _ _ _ _ _ _ _ _ _ E)
      as (_ & -> & _).
    reflexivity.
  - vm_compute in E. discriminate E.
Defined.

(** ** auth-issuer.ts: the bearer-token guard *)

(** C9 fails on the guard: a request without an [Authorization] header is
    answered with status 403 and the body
    [{ error: 'Missing authorization header' }], which has no [code]
    member; the same holds for a malformed header (403) and for a token
    that does not verify (401). *)
Theorem requireAuth_rejections_have_no_code
    (jwt_verify : Z -> string -> string -> option Auth.JwtPayload)
    (jwtSecret : string) (now : Z) (authorization : option string)
    (r : Errors.response) :
  Auth.requireAuth jwt_verify jwtSecret now authorization = Auth.Respond r →
  Errors.is_error_envelope r = false
  ∧ ∃ msg, Errors.res_body r = Errors.JsonBody [("error", Js.JString msg)].
Proof.
  unfold Auth.requireAuth.
  repeat (match goal with
          | |- context [match ?x with _ => _ end] => destruct x
          end; try discriminate);
    intros [= <-]; (split; [reflexivity | eexists; reflexivity]).
Qed.

Lemma requireAuth_rejections_have_no_code_witness :
  Auth.requireAuth Samples.sampleJwtVerify "secret" 1000 None
  = Auth.Respond
      (Errors.mkResponse 403
         (Errors.JsonBody
            [("error", Js.JString "Missing authorization header")]))
  ∧ Errors.is_error_envelope
      (Errors.mkResponse 403
         (Errors.JsonBody
            [("error", Js.JString "Missing authorization header")]))
    = false.
Proof.
  split; [reflexivity|].
  apply (requireAuth_rejections_have_no_code Samples.sampleJwtVerify
           "secret" 1000 None).
  reflexivity.
Defined.

(** A guarded route reached without a header: the SEP-6 deposit. *)
Example sep6_deposit_without_header :
  (Http.guarded (Samples.sampleServer "localhost:8000")
     Samples.sampleJwtVerify 1000 None Samples.sampleWorld
     (fun user =>
        Http.sep6Deposit (Samples.sampleServer "localhost:8000") None
          Samples.sampleWorld 1000 1000 "tx_9" user
          {[ "asset_code" := "USDC" ]})).1
  = Errors.mkResponse 403
      (Errors.JsonBody [("error", Js.JString "Missing authorization header")]).
Proof. reflexivity. Qed.

(** ** toml/publisher.ts *)

Section Publisher.
Import Js Server Toml.

Lemma getProtocol_cases d :
  getProtocol d = "http" ∨ getProtocol d = "https".
Proof. unfold getProtocol. destruct (_ || _); auto. Qed.

(** The scheme is [http] exactly for the domain [localhost] and for the
    domains that start with [localhost:]. *)
Lemma getProtocol_http d :
  getProtocol d = "http"
  ↔ d = "localhost" ∨ startsWith d "localhost:" = true.
Proof.
  unfold getProtocol.
  destruct (String.eqb_spec d "localhost") as [->|Hne]; simpl.
  - split; auto.
  - destruct (startsWith d "localhost:"); split; try done; auto.
    intros [?|?]; done.
Qed.

Lemma buildSepUrl_truthy d path : truthy (buildSepUrl d path) = true.
Proof.
  unfold buildSepUrl. destruct (getProtocol_cases d) as [-> | ->]; reflexivity.
Qed.

(** An uncached render: the endpoint lines follow the mounted set. *)
Lemma endpointLines_buildFromServer srv :
  let d := domain (config srv) in
  endpointLines (buildFromServer srv)
  = ((if mounted srv sep10
     then [EmptyString; kvString "WEB_AUTH_ENDPOINT" (buildSepUrl d "/auth")]
     else [])
    ++ (if mounted srv sep24
        then [kvString "TRANSFER_SERVER_SEP0024" (buildSepUrl d "/sep24")]
        else [])
    ++ (if mounted srv sep6
        then [kvString "TRANSFER_SERVER" (buildSepUrl d "/sep6")]
        else []))%list.
Proof.
  unfold endpointLines, buildFromServer, kvTruthy. simpl.
  destruct (mounted srv sep10), (mounted srv sep24), (mounted srv sep6);
    rewrite ?buildSepUrl_truthy; reflexivity.
Qed.

Lemma render_uncached srv :
  render srv newPublisher
  = (stringifyToml srv (buildFromServer srv),
     mkTomlPublisher (Some (stringifyToml srv (buildFromServer srv)))).
Proof. reflexivity. Qed.

(** A cached render returns the cached text whatever the server has
    become since. *)
Lemma render_cached srv p doc :
  cachedToml p = Some doc → truthy doc = true → render srv p = (doc, p).
Proof. intros Hc Ht. unfold render. by rewrite Hc; simpl; rewrite Ht. Qed.

Lemma mounted_mount m srv : mounted (mount m srv) m = true.
Proof.
  unfold mounted, mount. simpl. apply bool_decide_eq_true. set_solver.
Qed.

End Publisher.

(** C6 fails on the code: nothing invalidates the publisher's cache when a
    module is mounted.  With only SEP-10 mounted the first render has
    [WEB_AUTH_ENDPOINT]; after SEP-24 is mounted too, the same publisher
    renders the same text again, without [TRANSFER_SERVER_SEP0024].  Only
    after [invalidateCache()], which no caller invokes, does the key
    appear. *)
Theorem render_after_mount_is_stale :
  let srv1 := Server.mount_sep10 (Samples.sampleServer "myanchor.com") in
  let first := Toml.render srv1 Toml.newPublisher in
  let srv2 := Server.mount Server.sep24 srv1 in
  let second := Toml.render srv2 first.2 in
  Toml.hasKey first.1 "WEB_AUTH_ENDPOINT" = true
  ∧ Toml.hasKey first.1 "TRANSFER_SERVER_SEP0024" = false
  ∧ Server.mount_sep24 (Some "https://example.com/interactive") srv1
    = Ok srv2
  ∧ Toml.mounted srv2 Server.sep24 = true
  ∧ second.1 = first.1
  ∧ Toml.hasKey second.1 "TRANSFER_SERVER_SEP0024" = false
  ∧ Toml.hasKey (Toml.render srv2 (Toml.invalidateCache first.2)).1
                "TRANSFER_SERVER_SEP0024" = true.
Proof. vm_compute. repeat split. Qed.

(** C7 fails on the code for the loopback address: the publisher's
    [getProtocol] only recognises [localhost], so for the domain
    [127.0.0.1:8000] the discovery document advertises
    [https://127.0.0.1:8000/auth], while [getBaseUrl] of the same server
    yields [http://127.0.0.1:8000]. *)
Theorem publisher_scheme_for_loopback_address :
  let srv := Server.mount_sep10 (Samples.sampleServer "127.0.0.1:8000") in
  Toml.getProtocol "127.0.0.1:8000" = "https"
  ∧ Toml.buildSepUrl "127.0.0.1:8000" "/auth" = "https://127.0.0.1:8000/auth"
  ∧ Toml.kvString "WEB_AUTH_ENDPOINT" "https://127.0.0.1:8000/auth"
    ∈ Toml.tomlLines srv (Toml.buildFromServer srv)
  ∧ Server.getBaseUrl "127.0.0.1:8000" = "http://127.0.0.1:8000"
  ∧ Toml.buildSepUrl "localhost:8000" "/auth" = "http://localhost:8000/auth".
Proof.
  vm_compute. repeat split. do 3 apply list_elem_of_further.
  apply list_elem_of_here.
Qed.


(** * Further properties *)

(** ** nonce-store.ts *)

(** [add] reports whether the nonce was new.  A new nonce is present
    afterwards and nothing else changes; a nonce already present keeps its
    first insertion time. *)
Theorem nonce_add_registers_once
    (s : Nonce.NonceStore) (now : Z) (nonce : string) :
  (Nonce.add s now nonce).1 = negb (Nonce.has s nonce)
  ∧ Nonce.has (Nonce.add s now nonce).2 nonce = true
  ∧ (∀ other, other ≠ nonce →
       (Nonce.add s now nonce).2 !! other = s !! other)
  ∧ (∀ t0, s !! nonce = Some t0 →
       (Nonce.add s now nonce).2 !! nonce = Some t0).
Proof.
  unfold Nonce.add, Nonce.has.
  destruct (s !! nonce) as [t0|] eqn:E.
  - rewrite bool_decide_eq_true_2 by eauto. simpl.
    rewrite E, bool_decide_eq_true_2 by eauto. repeat split; try done.
  - rewrite bool_decide_eq_false_2 by (intros [? ?]; done). simpl.
    rewrite lookup_insert_eq, bool_decide_eq_true_2 by eauto.
    repeat split; try done. intros other Hne. by apply lookup_insert_ne.
Qed.

Lemma clearExpired_lookup
    (s : Nonce.NonceStore) (now : Z) (nonce : string) (t0 : Z) :
  Nonce.clearExpired s now !! nonce = Some t0
  ↔ s !! nonce = Some t0 ∧ (now - t0 <= Nonce.ttl)%Z.
Proof.
  unfold Nonce.clearExpired. rewrite map_lookup_filter_Some. simpl.
  split; intros [? ?]; split; try done; lia.
Qed.

(** The sweep keeps exactly the entries that are at most [ttl] old, with
    their insertion times; it adds nothing. *)
Theorem nonce_clearExpired_keeps_fresh
    (s : Nonce.NonceStore) (now : Z) (nonce : string) :
  Nonce.clearExpired s now !! nonce
  = match s !! nonce with
    | Some t0 => if bool_decide (now - t0 <= Nonce.ttl)%Z then Some t0 else None
    | None => None
    end.
Proof.
  destruct (s !! nonce) as [t0|] eqn:E.
  - case_bool_decide as H.
    + apply clearExpired_lookup. done.
    + destruct (Nonce.clearExpired s now !! nonce) as [t1|] eqn:E1; [|done].
      apply clearExpired_lookup in E1 as [E1 ?].
      rewrite E in E1. injection E1 as <-. done.
  - destruct (Nonce.clearExpired s now !! nonce) as [t1|] eqn:E1; [|done].
    apply clearExpired_lookup in E1 as [E1 ?]. congruence.
Qed.

(** A nonce registered at [t0] survives every sweep up to [t0 + ttl] and
    none after. *)
Theorem nonce_lifetime
    (s : Nonce.NonceStore) (t0 now : Z) (nonce : string) :
  Nonce.has s nonce = false →
  Nonce.has (Nonce.clearExpired (Nonce.add s t0 nonce).2 now) nonce
  = bool_decide (now <= t0 + Nonce.ttl)%Z.
Proof.
  intros Hnew. unfold Nonce.add. rewrite Hnew. simpl. unfold Nonce.has.
  apply bool_decide_ext. split.
  - intros [t1 H]. apply clearExpired_lookup in H as [H ?].
    rewrite lookup_insert_eq in H. injection H as <-. lia.
  - intros Hle. exists t0. apply clearExpired_lookup.
    rewrite lookup_insert_eq. split; [done | lia].
Qed.

Lemma nonce_lifetime_witness :
  Nonce.has (Nonce.clearExpired (Nonce.add Nonce.empty 1000 "n1").2 301000)
            "n1" = true
  ∧ Nonce.has (Nonce.clearExpired (Nonce.add Nonce.empty 1000 "n1").2 301001)
              "n1" = false.
Proof.
  split.
  - rewrite (nonce_lifetime Nonce.empty 1000 301000 "n1"); reflexivity.
  - rewrite (nonce_lifetime Nonce.empty 1000 301001 "n1"); reflexivity.
Defined.

(** ** auth-issuer.ts *)

Section IssuerFacts.
Import Js Errors Auth.

Variable buildChallengeTx : Z -> string -> string -> string.
Variable readChallengeTx : Z -> string -> result string ChallengeRead.
Variable loadAccount : string -> option AccountData.
Variable verifyChallengeTxSigners :
  Z -> string -> list string -> result string (list string).
Variable jwt_sign : JwtPayload -> string -> string.
Variables domain jwtSecret : string.

Let verify :=
  verifyChallenge readChallengeTx loadAccount verifyChallengeTxSigners
                  jwt_sign domain jwtSecret.
Let create := createChallenge buildChallengeTx readChallengeTx.

Lemma weight_check_passes res sb :
  (∀ d, loadAccount (clientAccountID res) = Some d →
        (med_threshold d <= signatureWeight sb (signers d))%Z) →
  match loadAccount (clientAccountID res) with
  | Some d => Z.ltb (signatureWeight sb (signers d)) (med_threshold d)
  | None => false
  end = false.
Proof.
  intros Hw. destruct (loadAccount (clientAccountID res)) as [d|]; [|done].
  apply Z.ltb_ge. by apply Hw.
Qed.

Lemma verify_Ok_iff ns now e r ns' :
  verify ns now e = (Ok r, ns')
  ↔ ns' = ns
    ∧ ∃ res signedBy nonce,
        readChallengeTx now e = Ok res
        ∧ verifyChallengeTxSigners now e
            (match loadAccount (clientAccountID res) with
             | Some d => (signers d).*1
             | None => [clientAccountID res]
             end) = Ok signedBy
        ∧ (∀ d, loadAccount (clientAccountID res) = Some d →
                (med_threshold d <= signatureWeight signedBy (signers d))%Z)
        ∧ extractNonceFromTransaction (tx_operations res) = Some nonce
        ∧ truthy nonce = true
        ∧ Nonce.has ns nonce = true
        ∧ r = mkVerifyResult
                (jwt_sign
                   (mkJwtPayload domain (clientAccountID res) (now / 1000)
                                 (now / 1000 + 24 * 60 * 60))
                   jwtSecret)
                (clientAccountID res).
Proof.
  unfold verify. rewrite verifyChallenge_cases. split.
  - destruct (readChallengeTx now e) as [res|] eqn:Hr; [|done].
    destruct (verifyChallengeTxSigners now e _) as [sb|] eqn:Hv; [|done].
    destruct (match loadAccount _ with Some _ => Z.ltb _ _ | None => _ end)
      eqn:Hw; [done|].
    destruct (extractNonceFromTransaction _) as [nonce|] eqn:Hn; [|done].
    destruct (truthy nonce) eqn:Ht; [|done].
    destruct (Nonce.has ns nonce) eqn:Hh; [|done]. simpl.
    intros [= <- <-]. split; [done|]. exists res, sb, nonce.
    repeat split; try done.
    intros d Hd. rewrite Hd in Hw. apply Z.ltb_ge in Hw. exact Hw.
  - intros (-> & res & sb & nonce & Hr & Hv & Hw & Hn & Ht & Hh & ->).
    rewrite Hr, Hv, (weight_check_passes _ _ Hw), Hn, Ht, Hh. done.
Qed.

Lemma create_Ok_inv ns now entropy client xdr ns1 :
  create ns now entropy client = Ok (xdr, ns1) →
  xdr = buildChallengeTx now entropy client
  ∧ ∃ res nonce,
      readChallengeTx now xdr = Ok res
      ∧ extractNonceFromTransaction (tx_operations res) = Some nonce
      ∧ truthy nonce = true
      ∧ ns1 = (Nonce.add ns now nonce).2.
Proof.
  unfold create, createChallenge.
  destruct (readChallengeTx now _) as [res|] eqn:Hr; [|done].
  destruct (extractNonceFromTransaction _) as [nonce|] eqn:Hn; [|done].
  destruct (truthy nonce) eqn:Ht; [|done].
  intros [= <- <-]. split; [done|]. by exists res, nonce.
Qed.

Lemma add_has ns now nonce : Nonce.has (Nonce.add ns now nonce).2 nonce = true.
Proof.
  unfold Nonce.add. destruct (Nonce.has ns nonce) eqn:E; simpl; [done|].
  unfold Nonce.has. rewrite lookup_insert_eq. by apply bool_decide_eq_true_2.
Qed.

Lemma add_has_mono ns now nonce other :
  Nonce.has ns other = true → Nonce.has (Nonce.add ns now nonce).2 other = true.
Proof.
  unfold Nonce.add. destruct (Nonce.has ns nonce) eqn:E; simpl; [done|].
  unfold Nonce.has. rewrite !bool_decide_eq_true. intros [t0 Ht].
  destruct (decide (nonce = other)) as [->|Hne].
  - rewrite lookup_insert_eq. eauto.
  - rewrite lookup_insert_ne by done. eauto.
Qed.

End IssuerFacts.

(** [verifyChallenge] succeeds exactly when the SDK reads the envelope and
    verifies its signatures against the account's signers (the client key
    alone for an account Horizon does not know), the signers that signed
    weigh at least the medium threshold of a known account, and the nonce
    of the first operation is non-empty and registered.  The token then
    carries issuer = domain, subject = client account, issued-at = the
    clock in seconds and expiry 24 hours later. *)
Theorem verifyChallenge_succeeds_iff
    (readChallengeTx : Z -> string -> result string Auth.ChallengeRead)
    (loadAccount : string -> option Auth.AccountData)
    (verifyChallengeTxSigners :
       Z -> string -> list string -> result string (list string))
    (jwt_sign : Auth.JwtPayload -> string -> string)
    (domain jwtSecret : string)
    (ns : Nonce.NonceStore) (now : Z) (envelope : string)
    (r : Auth.VerifyResult) (ns' : Nonce.NonceStore) :
  Auth.verifyChallenge readChallengeTx loadAccount verifyChallengeTxSigners
    jwt_sign domain jwtSecret ns now envelope = (Ok r, ns')
  ↔ ns' = ns
    ∧ ∃ res signedBy nonce,
        readChallengeTx now envelope = Ok res
        ∧ verifyChallengeTxSigners now envelope
            (match loadAccount (Auth.clientAccountID res) with
             | Some d => (Auth.signers d).*1
             | None => [Auth.clientAccountID res]
             end) = Ok signedBy
        ∧ (∀ d, loadAccount (Auth.clientAccountID res) = Some d →
                (Auth.med_threshold d
                 <= Auth.signatureWeight signedBy (Auth.signers d))%Z)
        ∧ Auth.extractNonceFromTransaction (Auth.tx_operations res)
          = Some nonce
        ∧ Js.truthy nonce = true
        ∧ Nonce.has ns nonce = true
        ∧ r = Auth.mkVerifyResult
                (jwt_sign
                   (Auth.mkJwtPayload domain (Auth.clientAccountID res)
                      (now / 1000) (now / 1000 + 86400))
                   jwtSecret)
                (Auth.clientAccountID res).
Proof. apply verify_Ok_iff. Qed.

(** An envelope whose nonce is not in the registry is never accepted, be
    it unknown, swept after its five minutes, or cleared.  When everything
    else about the envelope is in order (the signatures verify and, for an
    account Horizon knows, weigh at least the medium threshold; the nonce
    is not empty) the error is ["Invalid or expired nonce"]. *)
Theorem verifyChallenge_rejects_unregistered_nonce
    (readChallengeTx : Z -> string -> result string Auth.ChallengeRead)
    (loadAccount : string -> option Auth.AccountData)
    (verifyChallengeTxSigners :
       Z -> string -> list string -> result string (list string))
    (jwt_sign : Auth.JwtPayload -> string -> string)
    (domain jwtSecret : string)
    (ns : Nonce.NonceStore) (now : Z) (envelope : string)
    (res : Auth.ChallengeRead) (nonce : string) :
  readChallengeTx now envelope = Ok res →
  Auth.extractNonceFromTransaction (Auth.tx_operations res) = Some nonce →
  Nonce.has ns nonce = false →
  isOk (Auth.verifyChallenge readChallengeTx loadAccount
          verifyChallengeTxSigners jwt_sign domain jwtSecret ns now
          envelope).1 = false
  ∧ (∀ signedBy,
       verifyChallengeTxSigners now envelope
         (match loadAccount (Auth.clientAccountID res) with
          | Some d => (Auth.signers d).*1
          | None => [Auth.clientAccountID res]
          end) = Ok signedBy →
       (∀ d, loadAccount (Auth.clientAccountID res) = Some d →
             (Auth.med_threshold d
              <= Auth.signatureWeight signedBy (Auth.signers d))%Z) →
       Js.truthy nonce = true →
       Auth.verifyChallenge readChallengeTx loadAccount
         verifyChallengeTxSigners jwt_sign domain jwtSecret ns now envelope
       = (Throw (Errors.PlainError "Invalid or expired nonce"), ns)).
Proof.
  intros Hr Hn Hh. rewrite verifyChallenge_cases, Hr, Hn, Hh.
  split.
  - destruct (verifyChallengeTxSigners now envelope _); [|done].
    destruct (match loadAccount _ with Some _ => Z.ltb _ _ | None => _ end);
      [done|].
    by destruct (negb (Js.truthy nonce)).
  - intros signedBy Hs Hw Ht.
    by rewrite Hs, (weight_check_passes _ _ _ Hw), Ht.
Qed.

Lemma verifyChallenge_rejects_unregistered_nonce_witness :
  Auth.verifyChallenge Samples.sampleRead Samples2.knownAccount
    Samples.sampleVerifySigners Samples.sampleSign "localhost:8000"
    "secret" Nonce.empty 2000 "nonce-1"
  = (Throw (Errors.PlainError "Invalid or expired nonce"), Nonce.empty).
Proof.
  destruct (verifyChallenge_rejects_unregistered_nonce Samples.sampleRead
              Samples2.knownAccount Samples.sampleVerifySigners
              Samples.sampleSign "localhost:8000" "secret" Nonce.empty 2000
              "nonce-1"
              (Auth.mkChallengeRead
                 [Auth.mkOperation "manageData" (Some (Auth.Buf "nonce-1"))]
                 Samples.account1)
              "nonce-1" eq_refl eq_refl eq_refl) as [_ H].
  apply (H [Samples.account1]).
  - reflexivity.
  - intros d Hd. injection Hd as <-. vm_compute. discriminate.
  - reflexivity.
Defined.

(** A challenge that was created is accepted: after [createChallenge],
    any envelope that the SDK reads with the operations of the created
    transaction, whose signatures verify and, for a known account, weigh
    enough, passes [verifyChallenge]. *)
Theorem createChallenge_then_verifyChallenge
    (buildChallengeTx : Z -> string -> string -> string)
    (readChallengeTx : Z -> string -> result string Auth.ChallengeRead)
    (loadAccount : string -> option Auth.AccountData)
    (verifyChallengeTxSigners :
       Z -> string -> list string -> result string (list string))
    (jwt_sign : Auth.JwtPayload -> string -> string)
    (domain jwtSecret : string)
    (ns : Nonce.NonceStore) (now : Z) (entropy client xdr : string)
    (ns1 : Nonce.NonceStore)
    (now2 : Z) (signed : string) (res res2 : Auth.ChallengeRead)
    (signedBy : list string) :
  Auth.createChallenge buildChallengeTx readChallengeTx ns now entropy client
  = Ok (xdr, ns1) →
  readChallengeTx now xdr = Ok res →
  readChallengeTx now2 signed = Ok res2 →
  Auth.tx_operations res2 = Auth.tx_operations res →
  verifyChallengeTxSigners now2 signed
    (match loadAccount (Auth.clientAccountID res2) with
     | Some d => (Auth.signers d).*1
     | None => [Auth.clientAccountID res2]
     end) = Ok signedBy →
  (∀ d, loadAccount (Auth.clientAccountID res2) = Some d →
        (Auth.med_threshold d
         <= Auth.signatureWeight signedBy (Auth.signers d))%Z) →
  ∃ r,
    Auth.verifyChallenge readChallengeTx loadAccount verifyChallengeTxSigners
      jwt_sign domain jwtSecret ns1 now2 signed = (Ok r, ns1)
    ∧ Auth.account r = Auth.clientAccountID res2.
Proof.
  intros Hc Hr Hr2 Hops Hv Hw.
  apply create_Ok_inv in Hc as (-> & res' & nonce & Hr' & Hn & Ht & ->).
  rewrite Hr in Hr'. injection Hr' as <-.
  eexists. split.
  - apply verify_Ok_iff. split; [done|]. exists res2, signedBy, nonce.
    repeat split; try done.
    + by rewrite Hops.
    + apply add_has.
  - reflexivity.
Qed.

Lemma createChallenge_then_verifyChallenge_witness :
  ∃ r ns1,
    Auth.verifyChallenge Samples.sampleRead Samples.sampleLoadAccount
      Samples.sampleVerifySigners Samples.sampleSign "localhost:8000"
      "secret" ns1 2000 "nonce-1" = (Ok r, ns1)
    ∧ Auth.account r = Samples.account1.
Proof.
  destruct (createChallenge_then_verifyChallenge Samples.sampleBuild
              Samples.sampleRead Samples.sampleLoadAccount
              Samples.sampleVerifySigners Samples.sampleSign
              "localhost:8000" "secret" Nonce.empty 1000 "nonce-1"
              Samples.account1 "nonce-1"
              (Nonce.add Nonce.empty 1000 "nonce-1").2 2000 "nonce-1"
              (Auth.mkChallengeRead
                 [Auth.mkOperation "manageData" (Some (Auth.Buf "nonce-1"))]
                 Samples.account1)
              (Auth.mkChallengeRead
                 [Auth.mkOperation "manageData" (Some (Auth.Buf "nonce-1"))]
                 Samples.account1)
              [Samples.account1])
    as (r & Hv & Ha); try reflexivity.
  - intros d Hd. discriminate Hd.
  - exists r, (Nonce.add Nonce.empty 1000 "nonce-1").2. split; assumption.
Defined.

(** ** The bearer-token guard *)

Section SplitFacts.
Import Js.

Lemma split_nonempty sep s : split sep s ≠ [].
Proof.
  destruct s as [|c s]; simpl; [done|].
  destruct (Ascii.eqb c sep); [done|]. by destruct (split sep s).
Qed.

(** Joining the pieces of [split] gives the text back. *)
Lemma concat_split sep s :
  String.concat (String sep EmptyString) (split sep s) = s.
Proof.
  induction s as [|c s IH]; [done|].
  pose proof (split_nonempty sep s) as Hne.
  cbn [split]. destruct (Ascii.eqb_spec c sep) as [->|Hc].
  - destruct (split sep s) as [|p ps]; [done|].
    cbn [String.concat] in *. rewrite IH. reflexivity.
  - destruct (split sep s) as [|p ps]; [done|].
    destruct ps as [|q qs]; cbn [String.concat] in *.
    + by rewrite IH.
    + rewrite <- IH. reflexivity.
Qed.

Lemma split_two sep s a b :
  split sep s = [a; b] → s = a +:+ String sep b.
Proof. intros E. rewrite <- (concat_split sep s), E. reflexivity. Qed.

End SplitFacts.

Lemma split_Bearer tok :
  Js.split " " ("Bearer " +:+ tok) = "Bearer" :: Js.split " " tok.
Proof. reflexivity. Qed.

(** The guard lets a request through exactly when its header is
    [Bearer <token>], the token has no blank in it and verifies; the
    claims it attaches are the verified ones.  Every other request is
    answered with 403 or 401, and 401 only for a header of that form whose
    token does not verify. *)
Theorem requireAuth_outcomes
    (jwt_verify : Z -> string -> string -> option Auth.JwtPayload)
    (jwtSecret : string) (now : Z) (authorization : option string) :
  (∀ user,
     Auth.requireAuth jwt_verify jwtSecret now authorization = Auth.Next user
     ↔ ∃ tok, authorization = Some ("Bearer " +:+ tok)
              ∧ Js.split " " tok = [tok]
              ∧ jwt_verify now tok jwtSecret = Some user)
  ∧ (∀ r,
       Auth.requireAuth jwt_verify jwtSecret now authorization
       = Auth.Respond r →
       Errors.res_status r = 403
       ∨ (Errors.res_status r = 401
          ∧ ∃ tok, authorization = Some ("Bearer " +:+ tok)
                   ∧ jwt_verify now tok jwtSecret = None)).
Proof.
  split.
  - intros user. split.
    + unfold Auth.requireAuth.
      destruct authorization as [h|]; [|done].
      destruct (Js.truthy h); simpl; [|done].
      destruct (Js.split " " h) as [|a [|b [|c l]]] eqn:Es; try done.
      destruct (String.eqb_spec a "Bearer") as [->|Hne]; [|done].
      destruct (jwt_verify now b jwtSecret) as [u|] eqn:Ev; [|done].
      intros [= ->]. exists b.
      pose proof (split_two _ _ _ _ Es) as ->.
      change (Js.split " " ("Bearer " +:+ b) = ["Bearer"; b]) in Es.
      rewrite split_Bearer in Es. injection Es as Es.
      repeat split; done.
    + intros (tok & -> & Hs & Hv). unfold Auth.requireAuth.
      rewrite split_Bearer, Hs, Hv. reflexivity.
  - intros r. unfold Auth.requireAuth.
    destruct authorization as [h|]; [|intros [= <-]; by left].
    destruct (Js.truthy h); simpl; [|intros [= <-]; by left].
    destruct (Js.split " " h) as [|a [|b [|c l]]] eqn:Es;
      try (intros [= <-]; by left).
    destruct (String.eqb_spec a "Bearer") as [->|Hne];
      [|intros [= <-]; by left].
    destruct (jwt_verify now b jwtSecret) as [u|] eqn:Ev; [done|].
    intros [= <-]. right. split; [done|]. exists b.
    by rewrite (split_two _ _ _ _ Es).
Qed.

Lemma requireAuth_outcomes_witness :
  Auth.requireAuth Samples.sampleJwtVerify "secret" 1000 (Some "Bearer good")
  = Auth.Next (Auth.mkJwtPayload "localhost:8000" Samples.account1 0 86400).
Proof.
  apply (requireAuth_outcomes Samples.sampleJwtVerify "secret" 1000
           (Some "Bearer good")).
  exists "good". repeat split.
Defined.

(** ** errors.ts *)

Section SpreadFacts.
Import Js.

Lemma map_get_None_has {V} (m : list (string * V)) k :
  map_has m k = false ↔ map_get m k = None.
Proof. unfold map_has. by destruct (map_get m k). Qed.

Lemma spread_get_absent (a b : object) k :
  has_key b k = false → map_get (spread a b) k = map_get a k.
Proof.
  unfold spread, has_key. revert a.
  induction b as [|[k' v'] b IH]; intros a Hb; simpl; [done|].
  apply map_get_None_has in Hb. simpl in Hb.
  destruct (String.eqb_spec k k') as [->|Hne]; [done|].
  rewrite IH by by apply map_get_None_has.
  apply map_get_set_ne. congruence.
Qed.

Lemma map_get_not_in {V} (m : list (string * V)) k :
  k ∉ m.*1 → map_get m k = None.
Proof.
  induction m as [|[k' v'] m IH]; simpl; [done|].
  rewrite not_elem_of_cons. intros [Hne Hin].
  destruct (String.eqb_spec k k'); [done | by apply IH].
Qed.

Lemma spread_get_present (a b : object) k v :
  NoDup b.*1 → map_get b k = Some v → map_get (spread a b) k = Some v.
Proof.
  unfold spread. revert a.
  induction b as [|[k' v'] b IH]; intros a Hnd Hb; simpl in *; [done|].
  apply NoDup_cons in Hnd as [Hk' Hnd].
  destruct (String.eqb_spec k k') as [->|Hne].
  - injection Hb as ->.
    change (map_get (spread (map_set a k' v) b) k' = Some v).
    rewrite spread_get_absent.
    + apply map_get_set_eq.
    + apply map_get_None_has. by apply map_get_not_in.
  - by apply IH.
Qed.

End SpreadFacts.

(** The JSON form of a [SepError] always has an [error] and a [code]
    member.  A key the details do not use reads as in
    [{ error: message, code }]; a key the details do use reads as the
    details give it, also when that key is [error] or [code]. *)
Theorem SepError_toJSON_members (e : Errors.SepError) :
  Js.has_key (Errors.toJSON e) "error" = true
  ∧ Js.has_key (Errors.toJSON e) "code" = true
  ∧ (∀ k, Js.has_key (Errors.details e) k = false →
          Js.map_get (Errors.toJSON e) k
          = Js.map_get [("error", Js.JString (Errors.message e));
                        ("code", Js.JString (Errors.code e))] k)
  ∧ (NoDup (Errors.details e).*1 →
     ∀ k v, Js.map_get (Errors.details e) k = Some v →
            Js.map_get (Errors.toJSON e) k = Some v).
Proof.
  split; [apply has_key_spread; reflexivity|].
  split; [apply has_key_spread; reflexivity|].
  split.
  - intros k Hk. by apply spread_get_absent.
  - intros Hnd k v Hk. by apply spread_get_present.
Qed.

(** What a router's [catch] block sends: always the envelope; a
    [SepError] with its own status, anything else with the route's default
    status, its message and the code ["error"]. *)
Theorem router_catch_response (dflt : Z) (e : Errors.exn) :
  Errors.is_error_envelope (Errors.respondError dflt e) = true
  ∧ Errors.res_status (Errors.respondError dflt e)
    = match e with
      | Errors.Sep s => Errors.status s
      | Errors.PlainError _ => dflt
      end
  ∧ match e with
    | Errors.Sep s =>
        Errors.res_body (Errors.respondError dflt e)
        = Errors.JsonBody (Errors.toJSON s)
    | Errors.PlainError m =>
        Errors.res_body (Errors.respondError dflt e)
        = Errors.JsonBody [("error", Js.JString m);
                           ("code", Js.JString "error")]
    end.
Proof.
  split.
  - apply respondError_is_envelope.
  - by destruct e.
Qed.

(** ** transfer-store.ts *)

Section StoreFacts2.
Import Js Transfers Spec2.
Context {V : Type}.
Implicit Types (m : list (string * V)) (k : string) (v : V).

Lemma map_set_keys m k v :
  (map_set m k v).*1 = if map_has m k then m.*1 else (m.*1 ++ [k])%list.
Proof.
  unfold map_has. induction m as [|[k' v'] m IH]; [done|].
  cbn [map_set map_get]. destruct (String.eqb k k'); [done|].
  rewrite fmap_cons, IH. by destruct (map_get m k).
Qed.

Lemma map_get_Some_in m k v : map_get m k = Some v → k ∈ m.*1.
Proof.
  induction m as [|[k' v'] m IH]; simpl; [done|].
  destruct (String.eqb_spec k k') as [->|Hne].
  - intros _. apply list_elem_of_here.
  - intros H. apply list_elem_of_further. by apply IH.
Qed.

Lemma map_set_NoDup m k v : NoDup m.*1 → NoDup (map_set m k v).*1.
Proof.
  intros Hnd. rewrite map_set_keys. unfold map_has.
  destruct (map_get m k) as [v0|] eqn:E; [done|].
  apply NoDup_app. split; [done|]. split; [|apply NoDup_singleton].
  intros x Hx ->%list_elem_of_singleton.
  clear Hnd. induction m as [|[k' v'] m IH]; simpl in *.
  - by apply elem_of_nil in Hx.
  - destruct (String.eqb_spec k k') as [->|Hne]; [done|].
    apply elem_of_cons in Hx as [?|?]; [done | by apply IH].
Qed.

Lemma map_delete_get_ne m k k' :
  k ≠ k' → map_get (map_delete m k) k' = map_get m k'.
Proof.
  intros Hne. induction m as [|[k0 v0] m IH]; simpl; [done|].
  destruct (String.eqb_spec k k0) as [->|H0]; simpl.
  - destruct (String.eqb_spec k' k0); [congruence | done].
  - by rewrite IH.
Qed.

Lemma map_delete_get_eq m k :
  NoDup m.*1 → map_get (map_delete m k) k = None.
Proof.
  induction m as [|[k0 v0] m IH]; simpl; [done|].
  intros [Hk Hnd]%NoDup_cons.
  destruct (String.eqb_spec k k0) as [->|H0]; simpl.
  - by apply map_get_not_in.
  - destruct (String.eqb_spec k k0); [done | by apply IH].
Qed.

Lemma map_delete_keys_sub m k x : x ∈ (map_delete m k).*1 → x ∈ m.*1.
Proof.
  induction m as [|[k0 v0] m IH]; simpl; [done|].
  destruct (String.eqb_spec k k0) as [->|H0]; simpl.
  - apply list_elem_of_further.
  - rewrite !elem_of_cons. intros [?|?]; [by left | right; by apply IH].
Qed.

Lemma map_delete_NoDup m k : NoDup m.*1 → NoDup (map_delete m k).*1.
Proof.
  induction m as [|[k0 v0] m IH]; simpl; [done|].
  intros [Hk Hnd]%NoDup_cons.
  destruct (String.eqb_spec k k0) as [->|H0]; simpl; [done|].
  apply NoDup_cons. split; [|by apply IH].
  intros Hin. apply Hk. by eapply map_delete_keys_sub.
Qed.

Lemma map_delete_length m k v :
  map_get m k = Some v → S (List.length (map_delete m k)) = List.length m.
Proof.
  induction m as [|[k0 v0] m IH]; simpl; [done|].
  destruct (String.eqb_spec k k0) as [->|H0]; simpl; [done|].
  intros H. by rewrite IH.
Qed.

Lemma map_set_length_present m k v v0 :
  map_get m k = Some v0 → List.length (map_set m k v) = List.length m.
Proof.
  induction m as [|[k0 v1] m IH]; simpl; [done|].
  destruct (String.eqb_spec k k0) as [->|H0]; simpl; [done|].
  intros H. by rewrite IH.
Qed.

End StoreFacts2.

Lemma create_lookup
    (h : Transfers.Heap) (st : Transfers.Store) (t : Transfers.Transfer) :
  Transfers.getById (Transfers.create h st t) (Transfers.id t) = Some t
  ∧ (∀ j, j ≠ Transfers.id t →
          Transfers.getById (Transfers.create h st t) j
          = Transfers.getById st j)
  ∧ (∀ tk, Transfers.tokenOf h t = Some tk →
           Js.truthy (Transfers.id t) = true →
           Transfers.getByInteractiveToken (Transfers.create h st t)
             (Transfers.token tk) = Some t)
  ∧ (Spec2.uniqueIds st → Spec2.uniqueIds (Transfers.create h st t)).
Proof.
  unfold Transfers.getById, Transfers.getByInteractiveToken,
    Transfers.create, Spec2.uniqueIds.
  destruct (Transfers.tokenOf h t) as [tk0|] eqn:Htk; simpl.
  - split; [apply map_get_set_eq|]. split.
    { intros j Hj. apply map_get_set_ne. congruence. }
    split; [|apply map_set_NoDup].
    intros tk [= <-] Hid. rewrite lookup_insert_eq, Hid.
    apply map_get_set_eq.
  - split; [apply map_get_set_eq|]. split.
    { intros j Hj. apply map_get_set_ne. congruence. }
    split; [done | apply map_set_NoDup].
Qed.

(** [create] followed by a lookup: the new transfer is found under its
    id, replacing any transfer that had that id; every other id reads as
    before; a transfer that carries a token and has a non-empty id is found
    under the token as well; ids stay unique. *)
Theorem store_create_then_lookup
    (h : Transfers.Heap) (st : Transfers.Store) (t : Transfers.Transfer) :
  Transfers.getById (Transfers.create h st t) (Transfers.id t) = Some t
  ∧ (∀ j, j ≠ Transfers.id t →
          Transfers.getById (Transfers.create h st t) j
          = Transfers.getById st j)
  ∧ (∀ tk, Transfers.tokenOf h t = Some tk →
           Js.truthy (Transfers.id t) = true →
           Transfers.getByInteractiveToken (Transfers.create h st t)
             (Transfers.token tk) = Some t)
  ∧ (Spec2.uniqueIds st → Spec2.uniqueIds (Transfers.create h st t)).
Proof. apply create_lookup. Qed.

Lemma store_create_then_lookup_witness :
  Transfers.getByInteractiveToken Samples.sampleStore "tok_1"
  = Some (Samples.sampleTransfer "tx_1" Transfers.deposit "USDC" 1000
            (Some 1%positive)).
Proof.
  apply (store_create_then_lookup Samples.sampleHeap Transfers.empty_store
           (Samples.sampleTransfer "tx_1" Transfers.deposit "USDC" 1000
              (Some 1%positive))); reflexivity.
Defined.

(** [update] on a stored id returns, and stores under that id, the
    record [{ ...existing, ...updates, id, updatedAt: now }]: the id asked
    for and the clock as update time, whatever [id] or [updatedAt] the
    updates carry, and every other field from the updates when they have
    it and from the stored transfer otherwise.  No other transfer changes,
    and the order and number of transfers stay. *)
Theorem store_update_keeps_id_and_others
    (h : Transfers.Heap) (st : Transfers.Store) (now : Z) (i : string)
    (u : Transfers.TransferUpdates) (existing : Transfers.Transfer) :
  Transfers.getById st i = Some existing →
  let t' :=
    Transfers.mkTransfer i
      (default (Transfers.kind existing) (Transfers.u_kind u))
      (default (Transfers.mode existing) (Transfers.u_mode u))
      (default (Transfers.status existing) (Transfers.u_status u))
      (default (Transfers.assetCode existing) (Transfers.u_assetCode u))
      (default (Transfers.assetIssuer existing) (Transfers.u_assetIssuer u))
      (default (Transfers.account existing) (Transfers.u_account u))
      (default (Transfers.amount existing) (Transfers.u_amount u))
      (default (Transfers.interactiveToken existing)
               (Transfers.u_interactiveToken u))
      (default (Transfers.interactiveUrl existing)
               (Transfers.u_interactiveUrl u))
      (default (Transfers.more_info_url existing)
               (Transfers.u_more_info_url u))
      (default (Transfers.externalTransactionId existing)
               (Transfers.u_externalTransactionId u))
      (default (Transfers.stellarTransactionId existing)
               (Transfers.u_stellarTransactionId u))
      (default (Transfers.message existing) (Transfers.u_message u))
      (default (Transfers.createdAt existing) (Transfers.u_createdAt u))
      now
      (default (Transfers.completedAt existing) (Transfers.u_completedAt u))
      (default (Transfers.metadata existing) (Transfers.u_metadata u)) in
  ∃ st',
    Transfers.update h st now i u = (Some t', st')
    ∧ Transfers.getById st' i = Some t'
    ∧ (∀ j, j ≠ i → Transfers.getById st' j = Transfers.getById st j)
    ∧ (Transfers.transfers st').*1 = (Transfers.transfers st).*1.
Proof.
  intros Hget t'. subst t'. unfold Transfers.getById in *.
  unfold Transfers.update. rewrite Hget.
  eexists. split; [reflexivity|]. simpl.
  split; [apply map_get_set_eq|]. split.
  - intros j Hj. apply map_get_set_ne. congruence.
  - rewrite map_set_keys. unfold Js.map_has. by rewrite Hget.
Qed.

Lemma store_update_keeps_id_and_others_witness :
  ∃ st',
    Transfers.update Samples.sampleHeap Samples.sampleStore 7000 "tx_1"
      Samples2.settled
    = (Some (Transfers.mkTransfer "tx_1" Transfers.deposit
               Transfers.interactive Transfers.COMPLETED "USDC" None
               Samples.account1 (Some "99.5") (Some 1%positive) None None
               None (Some "abc123") None 1000 7000 (Some 6999) (Some [])),
       st')
    ∧ Transfers.getById st' "tx_1"
      = Some (Transfers.mkTransfer "tx_1" Transfers.deposit
                Transfers.interactive Transfers.COMPLETED "USDC" None
                Samples.account1 (Some "99.5") (Some 1%positive) None None
                None (Some "abc123") None 1000 7000 (Some 6999) (Some [])).
Proof.
  destruct (store_update_keeps_id_and_others Samples.sampleHeap
              Samples.sampleStore 7000 "tx_1" Samples2.settled
              (Samples.sampleTransfer "tx_1" Transfers.deposit "USDC" 1000
                 (Some 1%positive)) eq_refl)
    as (st' & Hu & Hg & _).
  exists st'. split; assumption.
Defined.

(** [delete] of a stored transfer returns [true]; afterwards the id is
    not found, the transfer's token no longer resolves, every other id
    reads as before and there is one transfer less.  [delete] of an unknown
    id returns [false] and changes nothing. *)
Theorem store_delete_removes
    (h : Transfers.Heap) (st : Transfers.Store) (i : string) :
  Spec2.uniqueIds st →
  match Transfers.getById st i with
  | Some t =>
      (Transfers.delete h st i).1 = true
      ∧ Transfers.getById (Transfers.delete h st i).2 i = None
      ∧ (∀ tk, Transfers.tokenOf h t = Some tk →
               Transfers.getByInteractiveToken (Transfers.delete h st i).2
                 (Transfers.token tk) = None)
      ∧ (∀ j, j ≠ i →
              Transfers.getById (Transfers.delete h st i).2 j
              = Transfers.getById st j)
      ∧ S (Transfers.size (Transfers.delete h st i).2) = Transfers.size st
      ∧ Spec2.uniqueIds (Transfers.delete h st i).2
  | None => Transfers.delete h st i = (false, st)
  end.
Proof.
  intros Hnd. unfold Transfers.getById, Transfers.delete,
    Transfers.getByInteractiveToken, Transfers.size, Spec2.uniqueIds in *.
  destruct (Js.map_get (Transfers.transfers st) i) as [t|] eqn:Hget; [|done].
  simpl. split; [done|]. split; [by apply map_delete_get_eq|].
  split.
  { intros tk Htk. rewrite Htk. simpl. by rewrite lookup_delete_eq. }
  split; [intros j Hj; by apply map_delete_get_ne|].
  split; [by eapply map_delete_length | by apply map_delete_NoDup].
Qed.

Lemma store_delete_removes_witness :
  (Transfers.delete Samples.sampleHeap Samples.sampleStore "tx_1").1 = true
  ∧ Transfers.getById
      (Transfers.delete Samples.sampleHeap Samples.sampleStore "tx_1").2
      "tx_1" = None.
Proof.
  pose proof (store_delete_removes Samples.sampleHeap Samples.sampleStore
                "tx_1") as H.
  change (Transfers.getById Samples.sampleStore "tx_1")
    with (Some (Samples.sampleTransfer "tx_1" Transfers.deposit "USDC" 1000
                  (Some 1%positive))) in H.
  destruct H as (H1 & H2 & _).
  - unfold Spec2.uniqueIds. simpl. apply NoDup_singleton.
  - split; assumption.
Defined.

(** When the updates carry a token, [update] enters it in the token
    index, so the transfer is found under the new token; it removes no
    index entry, so a former token of the transfer still resolves to the
    same id. *)
Theorem store_update_indexes_new_token
    (h : Transfers.Heap) (st : Transfers.Store) (now : Z) (i : string)
    (u : Transfers.TransferUpdates) (existing : Transfers.Transfer)
    (r : positive) (tk : Transfers.InteractiveToken) :
  Transfers.getById st i = Some existing →
  Transfers.u_interactiveToken u = Some (Some r) →
  h !! r = Some tk →
  Js.truthy i = true →
  let st' := (Transfers.update h st now i u).2 in
  Transfers.getByInteractiveToken st' (Transfers.token tk)
  = (Transfers.update h st now i u).1
  ∧ is_Some (Transfers.update h st now i u).1
  ∧ (∀ old j, old ≠ Transfers.token tk →
              Transfers.tokenIndex st !! old = Some j →
              Transfers.tokenIndex st' !! old = Some j).
Proof.
  intros Hget Hu Hr Hi. unfold Transfers.getById in Hget.
  unfold Transfers.update, Transfers.getByInteractiveToken,
    Transfers.getById.
  rewrite Hget, Hu. unfold Transfers.tokenOf. simpl. rewrite Hu. simpl.
  rewrite Hr. simpl. rewrite lookup_insert_eq, Hi.
  split; [apply map_get_set_eq|]. split; [eauto|].
  intros old j Hne Hold. by rewrite lookup_insert_ne.
Qed.

Lemma store_update_indexes_new_token_witness :
  is_Some
    (Transfers.getByInteractiveToken
       (Transfers.update Samples.sampleHeap Samples.sampleStore 7000 "tx_1"
          (Transfers.spread_updates Transfers.no_updates
             (Transfers.mkTransferUpdates None None None None None None None
                None (Some (Some 1%positive)) None None None None None None
                None None None))).2
       (Transfers.token Samples.sampleToken)).
Proof.
  destruct (store_update_indexes_new_token Samples.sampleHeap
              Samples.sampleStore 7000 "tx_1"
              (Transfers.spread_updates Transfers.no_updates
                 (Transfers.mkTransferUpdates None None None None None None
                    None None (Some (Some 1%positive)) None None None None
                    None None None None None))
              (Samples.sampleTransfer "tx_1" Transfers.deposit "USDC" 1000
                 (Some 1%positive))
              1%positive Samples.sampleToken eq_refl eq_refl eq_refl eq_refl)
    as (H1 & H2 & _).
  rewrite H1. exact H2.
Defined.

(** The lookups by settlement id return a stored transfer that carries
    the id asked for, and return nothing exactly when no stored transfer
    carries it. *)
Lemma lookup_by_settlement_id
    (st : Transfers.Store) (txid : string) :
  (∀ t, Transfers.getByStellarTransactionId st txid = Some t →
        t ∈ Js.map_values (Transfers.transfers st)
        ∧ Transfers.stellarTransactionId t = Some txid)
  ∧ (Transfers.getByStellarTransactionId st txid = None
     ↔ ∀ t, t ∈ Js.map_values (Transfers.transfers st) →
            Transfers.stellarTransactionId t ≠ Some txid)
  ∧ (∀ t, Transfers.getByExternalTransactionId st txid = Some t →
          t ∈ Js.map_values (Transfers.transfers st)
          ∧ Transfers.externalTransactionId t = Some txid)
  ∧ (Transfers.getByExternalTransactionId st txid = None
     ↔ ∀ t, t ∈ Js.map_values (Transfers.transfers st) →
            Transfers.externalTransactionId t ≠ Some txid).
Proof.
  unfold Transfers.getByStellarTransactionId,
    Transfers.getByExternalTransactionId.
  repeat split.
  - apply find_some in H as [H _]. by apply list_elem_of_In.
  - apply find_some in H as [_ H]. by apply bool_decide_eq_true in H.
  - intros H t Ht. apply list_elem_of_In in Ht.
    pose proof (find_none _ _ H t Ht) as Hf.
    by apply bool_decide_eq_false in Hf.
  - intros H. destruct (find _ _) as [t|] eqn:E; [|done].
    apply find_some in E as [E1 E2]. apply bool_decide_eq_true in E2.
    apply list_elem_of_In in E1. by destruct (H t E1).
  - apply find_some in H as [H _]. by apply list_elem_of_In.
  - apply find_some in H as [_ H]. by apply bool_decide_eq_true in H.
  - intros H t Ht. apply list_elem_of_In in Ht.
    pose proof (find_none _ _ H t Ht) as Hf.
    by apply bool_decide_eq_false in Hf.
  - intros H. destruct (find _ _) as [t|] eqn:E; [|done].
    apply find_some in E as [E1 E2]. apply bool_decide_eq_true in E2.
    apply list_elem_of_In in E1. by destruct (H t E1).
Qed.

(** ** sep24-service.ts *)

Section ServiceFacts.
Import Js Errors Transfers Sep24Service Spec.

Variable toUpperCase : string -> string.
Variable url_build :
  string -> option string -> list (string * string) -> option string.
Variable cfg : Sep24TransferConfig.

Lemma initiate_Throw_unchanged k w now nowTok newId newTok req e w' :
  initiate toUpperCase url_build cfg k w now nowTok
    newId newTok req = (Throw e, w') →
  w' = w.
Proof.
  unfold initiate.
  destruct (negb _); [by intros [= _ <-]|].
  destruct (buildInteractiveUrl _ _ _ _); [|by intros [= _ <-]].
  destruct (buildMoreInfoUrl _ _ _); [done | by intros [= _ <-]].
Qed.

Lemma initiate_Ok_inv k w now nowTok newId newTok req resp w' :
  initiate toUpperCase url_build cfg k w now nowTok
    newId newTok req = (Ok resp, w') →
  assetSupported toUpperCase cfg (r_assetCode req) = true
  ∧ ∃ iurl murl,
      buildInteractiveUrl url_build cfg newId newTok = Some iurl
      ∧ buildMoreInfoUrl url_build cfg newId = Ok murl
      ∧ resp = mkInitiateResponse newId iurl "interactive_customer_info_needed"
      ∧ ∃ t,
          let r := fresh (dom (heap w)) in
          heap w' = <[r := generateInteractiveToken cfg nowTok newTok]> (heap w)
          ∧ store w' = create (heap w') (store w) t
          ∧ id t = newId ∧ kind t = k ∧ status t = INCOMPLETE
          ∧ assetCode t = r_assetCode req
          ∧ account t = r_account req
          ∧ amount t = r_amount req
          ∧ interactiveToken t = Some r
          ∧ interactiveUrl t = Some iurl
          ∧ more_info_url t = Some murl
          ∧ createdAt t = now ∧ updatedAt t = now ∧ completedAt t = None.
Proof.
  unfold initiate.
  destruct (assetSupported toUpperCase cfg (r_assetCode req)); simpl; [|done].
  destruct (buildInteractiveUrl _ _ _ _) as [iurl|]; [|done].
  destruct (buildMoreInfoUrl _ _ _) as [murl|]; [|done].
  intros [= <- <-]. split; [done|]. exists iurl, murl.
  split; [done|]. split; [done|]. split; [done|].
  eexists. cbn zeta. split; [reflexivity|]. split; [reflexivity|].
  repeat split; by destruct k.
Qed.

End ServiceFacts.

(** A successful initiation stores an interactive transfer in status
    [incomplete] under the new id, owned by the requesting account, with
    both URLs, and binds it to a fresh unused token that expires the
    configured time (15 minutes by default) after its creation; the
    transfer is found under that token. *)
Theorem initiate_creates_transfer_with_token
    (toUpperCase : string -> string)
    (url_build :
       string -> option string -> list (string * string) -> option string)
    (cfg : Transfers.Sep24TransferConfig) (k : Transfers.TransferKind)
    (w : Sep24Service.World) (now nowTok : Z) (newId newTok : string)
    (req : Transfers.TransferRequest)
    (resp : Transfers.InitiateResponse) (w' : Sep24Service.World) :
  Sep24Service.initiate toUpperCase url_build cfg k w now nowTok
    newId newTok req
  = (Ok resp, w') →
  Transfers.resp_id resp = newId
  ∧ ∃ t tk,
      Transfers.getById (Sep24Service.store w') newId = Some t
      ∧ Transfers.kind t = k
      ∧ Transfers.status t = Transfers.INCOMPLETE
      ∧ Transfers.account t = Transfers.r_account req
      ∧ Transfers.assetCode t = Transfers.r_assetCode req
      ∧ Transfers.interactiveUrl t = Some (Transfers.resp_url resp)
      ∧ is_Some (Transfers.more_info_url t)
      ∧ Transfers.createdAt t = now
      ∧ Transfers.tokenOf (Sep24Service.heap w') t = Some tk
      ∧ Transfers.token tk = newTok
      ∧ Transfers.used tk = false
      ∧ Transfers.expiresAt tk
        = (nowTok + default 900000 (Transfers.tokenExpiration cfg))%Z
      ∧ (Js.truthy newId = true →
         Transfers.getByInteractiveToken (Sep24Service.store w') newTok
         = Some t).
Proof.
  intros H.
  apply initiate_Ok_inv in H
    as (_ & iurl & murl & _ & _ & -> & t & Hh & Hs & Hid & Hk & Hst & Hac
        & Hacc & _ & Htok & Hi & Hm & Hc & _).
  split; [done|].
  assert (Transfers.tokenOf (Sep24Service.heap w') t
          = Some (Sep24Service.generateInteractiveToken cfg nowTok newTok))
    as Htk.
  { unfold Transfers.tokenOf. rewrite Htok, Hh. apply lookup_insert_eq. }
  exists t, (Sep24Service.generateInteractiveToken cfg nowTok newTok).
  pose proof (create_lookup (Sep24Service.heap w')
                (Sep24Service.store w) t) as (Hg & _ & Hbt & _).
  rewrite Hs, <- Hid.
  split; [exact Hg|]. split; [done|]. split; [done|]. split; [done|].
  split; [done|]. split; [done|]. split; [rewrite Hm; eauto|].
  split; [done|]. split; [done|]. split; [done|]. split; [done|].
  split; [done|].
  intros Ht. apply (Hbt _ Htk). exact Ht.
Qed.

Lemma initiate_creates_transfer_with_token_witness :
  Transfers.status <$>
    Transfers.getByInteractiveToken
      (Sep24Service.store
         (Sep24Service.initiate Samples.asciiUpperCase
            Samples.sampleUrl
            (Http.managerConfig (Samples.sampleServer "localhost:8000"))
            Transfers.deposit Samples.sampleWorld 2000 2001 "tx_9" "tok_9"
            (Transfers.mkTransferRequest "USDC" None Samples.account1
               (Some "100") None None)).2)
      "tok_9"
  = Some Transfers.INCOMPLETE.
Proof.
  destruct (Sep24Service.initiate Samples.asciiUpperCase
            Samples.sampleUrl
              (Http.managerConfig (Samples.sampleServer "localhost:8000"))
              Transfers.deposit Samples.sampleWorld 2000 2001 "tx_9" "tok_9"
              (Transfers.mkTransferRequest "USDC" None Samples.account1
                 (Some "100") None None)) as [[resp|e] w'] eqn:E.
  - destruct (initiate_creates_transfer_with_token _ _ _ _ _ _ _ _ _ _ _ _ E)
      as (_ & t & tk & _ & _ & Hst & _ & _ & _ & _ & _ & _ & _ & _ & _ & Hbt).
    simpl. rewrite (Hbt eq_refl). simpl. by rewrite Hst.
  - vm_compute in E. discriminate E.
Defined.

(** Initiation then completion: the id and token handed out by a
    successful initiation complete the interactive step at any time up to
    the token's expiry, moving a deposit to [pending_user_transfer_start]
    and a withdrawal to [pending_anchor]. *)
Theorem initiate_then_completeInteractive
    (toUpperCase : string -> string)
    (url_build :
       string -> option string -> list (string * string) -> option string)
    (cfg : Transfers.Sep24TransferConfig) (k : Transfers.TransferKind)
    (w : Sep24Service.World) (now nowTok : Z) (newId newTok : string)
    (req : Transfers.TransferRequest)
    (resp : Transfers.InitiateResponse) (w1 : Sep24Service.World)
    (now2 now2' : Z) :
  Sep24Service.initiate toUpperCase url_build cfg k w now nowTok
    newId newTok req
  = (Ok resp, w1) →
  (now2 <= nowTok + default 900000 (Transfers.tokenExpiration cfg))%Z →
  ∃ t' w2,
    Sep24Service.completeInteractive w1 now2 now2' newId newTok
    = (Ok t', w2)
    ∧ Transfers.getById (Sep24Service.store w2) newId = Some t'
    ∧ Transfers.status t'
      = match k with
        | Transfers.deposit => Transfers.PENDING_USER_TRANSFER_START
        | Transfers.withdrawal => Transfers.PENDING_ANCHOR
        end.
Proof.
  intros H Hle.
  apply initiate_Ok_inv in H
    as (_ & iurl & murl & _ & _ & -> & t & Hh & Hs & Hid & Hk & Hst & _
        & _ & _ & Htok & _).
  assert (Spec.validPair w1 now2 newId newTok t) as Hv.
  { split.
    - rewrite Hs, <- Hid. apply create_lookup.
    - exists (Sep24Service.generateInteractiveToken cfg nowTok newTok).
      split; [|split; [done|split; [done|]]].
      + unfold Transfers.tokenOf. rewrite Htok, Hh. apply lookup_insert_eq.
      + simpl. unfold Sep24Service.DEFAULT_TOKEN_EXPIRATION_MS.
        change (15 * 60 * 1000)%Z with 900000%Z. lia. }
  destruct (completeInteractive_valid w1 now2 now2' newId newTok t Hv)
    as (t' & w2 & Hc & Hget & _ & _ & Hst' & _).
  exists t', w2. split; [done|]. split; [done|].
  rewrite Hst'. unfold Spec.expectedNextStatus. rewrite Hst, Hk.
  by destruct k.
Qed.

Lemma initiate_then_completeInteractive_witness :
  let cfg := Http.managerConfig (Samples.sampleServer "localhost:8000") in
  let req := Transfers.mkTransferRequest "USDC" None Samples.account1
               (Some "100") None None in
  let w1 := (Sep24Service.initiate Samples.asciiUpperCase
            Samples.sampleUrl cfg Transfers.withdrawal
               Samples.sampleWorld 2000 2001 "tx_9" "tok_9" req).2 in
  Transfers.status <$>
    Transfers.getById
      (Sep24Service.store
         (Sep24Service.completeInteractive w1 902001 902002 "tx_9"
            "tok_9").2) "tx_9"
  = Some Transfers.PENDING_ANCHOR.
Proof.
  intros cfg req w1. subst w1.
  destruct (Sep24Service.initiate Samples.asciiUpperCase
            Samples.sampleUrl cfg Transfers.withdrawal
              Samples.sampleWorld 2000 2001 "tx_9" "tok_9" req)
    as [[resp|e] w1] eqn:E.
  - destruct (initiate_then_completeInteractive _ _ _ _ _ _ _ _ _ _ _ _
                902001 902002 E) as (t' & w2 & Hc & Hg & Hs).
    + simpl. lia.
    + simpl. rewrite Hc. simpl. rewrite Hg. simpl. by rewrite Hs.
  - vm_compute in E. discriminate E.
Defined.

(** Initiation is all or nothing, and touches nothing else: when it
    throws (unsupported asset, a URL that does not build, no base URL) the
    store and the token objects are as before; when it succeeds, every
    other stored transfer and every existing token object is as before. *)
Theorem initiate_atomic_and_preserving
    (toUpperCase : string -> string)
    (url_build :
       string -> option string -> list (string * string) -> option string)
    (cfg : Transfers.Sep24TransferConfig) (k : Transfers.TransferKind)
    (w : Sep24Service.World) (now nowTok : Z) (newId newTok : string)
    (req : Transfers.TransferRequest) :
  let out :=
    Sep24Service.initiate toUpperCase url_build cfg k w now nowTok
      newId newTok req in
  (isOk out.1 = false → out.2 = w)
  ∧ (∀ j, j ≠ newId →
          Transfers.getById (Sep24Service.store out.2) j
          = Transfers.getById (Sep24Service.store w) j)
  ∧ (∀ r tk, Sep24Service.heap w !! r = Some tk →
             Sep24Service.heap out.2 !! r = Some tk)
  ∧ (Js.truthy_opt (Transfers.baseUrl cfg) = false → isOk out.1 = false).
Proof.
  intros out. subst out.
  destruct (Sep24Service.initiate toUpperCase url_build cfg k w now nowTok
    newId newTok
              req) as [[resp|e] w'] eqn:E; simpl.
  - pose proof E as E0.
    apply initiate_Ok_inv in E
      as (_ & iurl & murl & _ & Hm & -> & t & Hh & Hs & Hid & _).
    split; [done|]. split; [|split].
    + intros j Hj. rewrite Hs.
      apply (create_lookup (Sep24Service.heap w') (Sep24Service.store w) t).
      by rewrite Hid.
    + intros r tk Hr. rewrite Hh. rewrite lookup_insert_ne; [done|].
      intros <-. pose proof (is_fresh (dom (Sep24Service.heap w))) as Hf.
      apply Hf. apply elem_of_dom. eauto.
    + intros Hb. unfold Sep24Service.buildMoreInfoUrl in Hm.
      by rewrite Hb in Hm.
  - apply initiate_Throw_unchanged in E as ->. done.
Qed.

(** [completeInteractive] refuses, in this order: an unknown id; a
    transfer without a token; a token value other than the transfer's; a
    token already used; a token whose expiry is in the past.  Whenever it
    throws, the store and the token objects are exactly as before. *)
Theorem completeInteractive_rejections
    (w : Sep24Service.World) (now now' : Z) (i tok : string) :
  let out := Sep24Service.completeInteractive w now now' i tok in
  (isOk out.1 = false → out.2 = w)
  ∧ match Transfers.getById (Sep24Service.store w) i with
    | None =>
        out.1 = Throw (Errors.PlainError ("Transfer " +:+ i +:+ " not found"))
    | Some t =>
        match Transfers.tokenOf (Sep24Service.heap w) t with
        | None =>
            out.1 = Throw (Errors.PlainError
                             ("Transfer " +:+ i
                              +:+ " has no interactive token"))
        | Some tk =>
            if negb (String.eqb (Transfers.token tk) tok) then
              out.1 = Throw (Errors.PlainError "Invalid token")
            else if Transfers.used tk then
              out.1 = Throw (Errors.PlainError "Token already used")
            else if (Transfers.expiresAt tk <? now)%Z then
              out.1 = Throw (Errors.PlainError "Token expired")
            else isOk out.1 = true
        end
    end.
Proof.
  intros out. subst out. unfold Sep24Service.completeInteractive.
  destruct (Sep24Service.validateInteractiveToken w now i tok)
    as [t0|e] eqn:Hv.
  - pose proof (validate_Ok_inv _ _ _ _ _ Hv) as Hp.
    destruct (completeInteractive_valid w now now' i tok t0 Hp)
      as (t' & w' & Hc & _).
    unfold Sep24Service.completeInteractive in Hc. rewrite Hv in Hc.
    rewrite Hc. simpl. split; [done|].
    destruct Hp as [Hget (tk & Htk & Htok & Hu & Hexp)].
    rewrite Hget, Htk, Htok, Hu, String.eqb_refl. simpl.
    destruct (Z.ltb_spec (Transfers.expiresAt tk) now); [lia | done].
  - simpl. split; [done|].
    unfold Sep24Service.validateInteractiveToken in Hv.
    destruct (Transfers.getById _ i) as [t|]; [|by injection Hv as <-].
    destruct (Transfers.tokenOf _ t) as [tk|]; [|by injection Hv as <-].
    destruct (negb _); [by injection Hv as <-|].
    destruct (Transfers.used tk); [by injection Hv as <-|].
    destruct (_ <? _)%Z; [by injection Hv as <- | done].
Qed.

(** An expired token is refused even on its first use, and the transfer
    stays as it was. *)
Example completeInteractive_expired :
  Sep24Service.completeInteractive Samples.sampleWorld 901001 901002
    "tx_1" "tok_1"
  = (Throw (Errors.PlainError "Token expired"), Samples.sampleWorld).
Proof. vm_compute. reflexivity. Qed.

(** [updateStatus] on an unknown id throws and changes nothing.  On a
    stored transfer, called without extra updates, it changes the status,
    the completion time and the update time and nothing else: owner,
    asset, amount, token, URLs, settlement ids, message, creation time and
    metadata are kept, and so are the token objects. *)
Theorem updateStatus_frame
    (w : Sep24Service.World) (now now' : Z) (i : string)
    (s : Transfers.TransferStatus) :
  match Transfers.getById (Sep24Service.store w) i with
  | None =>
      Sep24Service.updateStatus w now now' i s None
      = (Throw (Errors.PlainError ("Transfer " +:+ i +:+ " not found")), w)
  | Some existing =>
      ∃ w',
        Sep24Service.updateStatus w now now' i s None
        = (Ok (Transfers.mkTransfer i
                 (Transfers.kind existing) (Transfers.mode existing) s
                 (Transfers.assetCode existing)
                 (Transfers.assetIssuer existing)
                 (Transfers.account existing) (Transfers.amount existing)
                 (Transfers.interactiveToken existing)
                 (Transfers.interactiveUrl existing)
                 (Transfers.more_info_url existing)
                 (Transfers.externalTransactionId existing)
                 (Transfers.stellarTransactionId existing)
                 (Transfers.message existing)
                 (Transfers.createdAt existing) now'
                 (if Sep24Service.isTerminalStatus s then Some now else None)
                 (Transfers.metadata existing)), w')
        ∧ Sep24Service.heap w' = Sep24Service.heap w
        ∧ Transfers.tokenIndex (Sep24Service.store w')
          = Transfers.tokenIndex (Sep24Service.store w)
        ∧ ∀ j, j ≠ i →
               Transfers.getById (Sep24Service.store w') j
               = Transfers.getById (Sep24Service.store w) j
  end.
Proof.
  unfold Sep24Service.updateStatus.
  destruct (Transfers.getById (Sep24Service.store w) i) as [existing|] eqn:Hg;
    [|done].
  unfold Transfers.update. unfold Transfers.getById in Hg. rewrite Hg.
  eexists. split; [reflexivity|]. simpl. repeat split.
  intros j Hj. unfold Transfers.getById. simpl.
  apply map_get_set_ne. congruence.
Qed.



(** ** toml/publisher.ts *)

Section EscapeFacts.
Import Js Toml Spec2.

Lemma str_app_assoc (a b c : string) : (a +:+ b) +:+ c = a +:+ (b +:+ c).
Proof.
  induction a as [|x a IH]; [done|].
  change (String x ((a +:+ b) +:+ c) = String x (a +:+ (b +:+ c))).
  by rewrite IH.
Qed.

Lemma occurs_app c a b : occurs c (a +:+ b) = occurs c a || occurs c b.
Proof.
  induction a as [|x a IH]; [done|].
  change (occurs c (String x (a +:+ b))
          = occurs c (String x a) || occurs c b).
  simpl. rewrite IH. by destruct (Ascii.eqb x c).
Qed.

(** The five passes act on each character by itself. *)
Lemma escapeTomlString_cons c s :
  escapeTomlString (String c s)
  = escapeTomlString (String c EmptyString) +:+ escapeTomlString s.
Proof.
  destruct c as [[] [] [] [] [] [] [] []]; reflexivity.
Qed.

Lemma escape_one_safe c :
  occurs newline (escapeTomlString (String c EmptyString)) = false
  ∧ occurs creturn (escapeTomlString (String c EmptyString)) = false
  ∧ occurs tab (escapeTomlString (String c EmptyString)) = false.
Proof. destruct c as [[] [] [] [] [] [] [] []]; repeat split. Qed.

Lemma unescape_escape_one c rest :
  unescape (escapeTomlString (String c EmptyString) +:+ rest)
  = String c (unescape rest).
Proof. destruct c as [[] [] [] [] [] [] [] []]; reflexivity. Qed.

Lemma unescape_escape s : unescape (escapeTomlString s) = s.
Proof.
  induction s as [|c s IH]; [done|].
  rewrite escapeTomlString_cons, unescape_escape_one. by rewrite IH.
Qed.

Lemma escape_safe s :
  occurs newline (escapeTomlString s) = false
  ∧ occurs creturn (escapeTomlString s) = false
  ∧ occurs tab (escapeTomlString s) = false.
Proof.
  induction s as [|c s (IH1 & IH2 & IH3)]; [done|].
  rewrite escapeTomlString_cons, !occurs_app.
  destruct (escape_one_safe c) as (-> & -> & ->). by rewrite IH1, IH2, IH3.
Qed.

End EscapeFacts.

(** An escaped value stays on one line: it has no line feed, carriage
    return or tab in it, whatever the value was.  Escaping loses nothing:
    reading the escapes back gives the value, so two values with the same
    escaped text are the same value. *)
Theorem escapeTomlString_one_line_and_invertible (s : string) :
  Spec2.occurs Toml.newline (Toml.escapeTomlString s) = false
  ∧ Spec2.occurs Toml.creturn (Toml.escapeTomlString s) = false
  ∧ Spec2.occurs Toml.tab (Toml.escapeTomlString s) = false
  ∧ Spec2.unescape (Toml.escapeTomlString s) = s
  ∧ ∀ s2, Toml.escapeTomlString s = Toml.escapeTomlString s2 → s = s2.
Proof.
  destruct (escape_safe s) as (Hn & Hr & Ht).
  repeat (split; [done|]).
  split; [apply unescape_escape|].
  intros s2 E. rewrite <- (unescape_escape s), <- (unescape_escape s2).
  by rewrite E.
Qed.

Section DocumentFacts.
Import Js Server Toml Spec2.

Lemma split_no_sep c s : occurs c s = false → split c s = [s].
Proof.
  induction s as [|x s IH]; simpl; [done|].
  destruct (Ascii.eqb x c); simpl; [done|].
  intros H. by rewrite IH.
Qed.

Lemma split_app_sep c a b :
  occurs c a = false → split c (a +:+ String c b) = a :: split c b.
Proof.
  induction a as [|x a IH].
  - intros _. change (split c (String c b) = EmptyString :: split c b).
    simpl. by rewrite Ascii.eqb_refl.
  - change (occurs c (String x a) = false →
            split c (String x (a +:+ String c b)) = String x a :: split c b).
    simpl. destruct (Ascii.eqb x c); simpl; [done|].
    intros H. by rewrite IH.
Qed.

(** The text [lines.join('\n') + '\n'] splits back into its lines and one
    empty line, when no line has a line feed in it. *)
Lemma split_joinLines x l :
  Forall oneLine (x :: l) →
  docLines (joinLines (x :: l)) = ((x :: l) ++ [EmptyString])%list.
Proof.
  unfold docLines, joinLines, str1. revert x.
  induction l as [|y l IH]; intros x Hall.
  - apply Forall_cons in Hall as [Hx _]. cbn [String.concat].
    rewrite split_app_sep by done. reflexivity.
  - apply Forall_cons in Hall as [Hx Hall].
    change (String.concat (String newline EmptyString) (x :: y :: l))
      with (x +:+ (String newline EmptyString
                   +:+ String.concat (String newline EmptyString) (y :: l))).
    rewrite !str_app_assoc.
    change (String newline EmptyString +:+ ?r) with (String newline r).
    rewrite split_app_sep by done. by rewrite IH.
Qed.

Lemma pretty_N_go_no_newline x s :
  occurs newline s = false → occurs newline (pretty_N_go x s) = false.
Proof.
  revert s. induction (N.lt_wf_0 x) as [x _ IH]; intros s Hs.
  assert (x = 0 ∨ 0 < x)%N as [->|Hx] by lia.
  - by rewrite pretty_N_go_0.
  - rewrite pretty_N_go_step by done. apply IH.
    + by apply N.div_lt.
    + simpl. rewrite Hs. unfold pretty_N_char. by repeat case_match.
Qed.

Lemma pretty_Z_no_newline (n : Z) : occurs newline (pretty n) = false.
Proof.
  assert (∀ p : positive, occurs newline (pretty p) = false) as Hp.
  { intros p. unfold pretty, pretty_positive, pretty, pretty_N.
    case_decide; [done|]. by apply pretty_N_go_no_newline. }
  destruct n as [|p|p]; [done | apply Hp |].
  unfold pretty, pretty_Z.
  change (occurs newline (String "-" (pretty p)) = false).
  simpl. apply Hp.
Qed.

Lemma kvString_no_newline key v :
  occurs newline key = false → occurs newline (kvString key v) = false.
Proof.
  intros Hk. unfold kvString. rewrite !occurs_app, Hk.
  destruct (escape_safe v) as (-> & _). reflexivity.
Qed.

Lemma kvOpt_oneLine key o :
  occurs newline key = false → Forall oneLine (kvOpt key o).
Proof.
  intros Hk. destruct o; repeat constructor. by apply kvString_no_newline.
Qed.

Lemma kvTruthy_oneLine key o :
  occurs newline key = false → Forall oneLine (kvTruthy key o).
Proof.
  intros Hk. destruct o as [v|]; simpl; [|constructor].
  destruct (truthy v); repeat constructor. by apply kvString_no_newline.
Qed.

Lemma endpointLines_oneLine s : Forall oneLine (endpointLines s).
Proof.
  unfold endpointLines. rewrite !Forall_app. split; [|split].
  - pose proof (kvTruthy_oneLine "WEB_AUTH_ENDPOINT" (WEB_AUTH_ENDPOINT s)
                  eq_refl) as H.
    destruct (kvTruthy _ _); [constructor|]. by constructor.
  - by apply kvTruthy_oneLine.
  - by apply kvTruthy_oneLine.
Qed.

Lemma documentationLines_oneLine d : Forall oneLine (documentationLines d).
Proof.
  unfold documentationLines. rewrite !Forall_app.
  repeat split; try (by apply kvOpt_oneLine). by repeat constructor.
Qed.

Lemma currencyLines_oneLine net code a :
  Forall oneLine (currencyLines net code a).
Proof.
  unfold currencyLines. cbv zeta. rewrite !Forall_app. repeat split.
  - repeat constructor. by apply kvString_no_newline.
  - by apply kvOpt_oneLine.
  - repeat constructor. by apply kvString_no_newline.
  - destruct (displayDecimals a); repeat constructor.
    unfold oneLine, kvNumber. rewrite !occurs_app.
    by rewrite pretty_Z_no_newline.
  - repeat constructor; by apply kvString_no_newline.
Qed.

Lemma tomlLines_oneLine srv s : Forall oneLine (tomlLines srv s).
Proof.
  unfold tomlLines. rewrite !Forall_app. repeat split.
  - repeat constructor; by apply kvString_no_newline.
  - apply endpointLines_oneLine.
  - destruct (DOCUMENTATION s) as [d|]; [|constructor].
    apply documentationLines_oneLine.
  - apply Forall_flat_map, Forall_forall. intros [code a] _.
    apply currencyLines_oneLine.
Qed.

(** The lines of an uncached render are the lines [stringifyToml] pushed,
    followed by one empty line. *)
Lemma render_docLines srv :
  docLines (render srv newPublisher).1
  = (tomlLines srv (buildFromServer srv) ++ [EmptyString])%list.
Proof.
  rewrite render_uncached. unfold stringifyToml. cbn [fst].
  pose proof (tomlLines_oneLine srv (buildFromServer srv)) as H.
  assert (∃ x l, tomlLines srv (buildFromServer srv) = x :: l)
    as (x & l & E) by (eexists _, _; reflexivity).
  rewrite E in *. by apply split_joinLines.
Qed.

End DocumentFacts.

Section KeyFacts.
Import Js Server Toml Spec2.

Lemma existsb_flat_map_false {A B} (f : B → bool) (g : A → list B) l :
  (∀ x, existsb f (g x) = false) → existsb f (flat_map g l) = false.
Proof.
  intros H. induction l as [|x l IH]; simpl; [done|].
  by rewrite existsb_app, H, IH.
Qed.

(** Only the endpoint lines can start with an endpoint key. *)
Lemma endpoint_key_elsewhere srv key :
  key ∈ ["WEB_AUTH_ENDPOINT"; "TRANSFER_SERVER_SEP0024"; "TRANSFER_SERVER"] →
  existsb (fun line => startsWith line (key +:+ " = "))
          (tomlLines srv (buildFromServer srv) ++ [EmptyString])
  = existsb (fun line => startsWith line (key +:+ " = "))
            (endpointLines (buildFromServer srv)).
Proof.
  intros Hk. unfold tomlLines. rewrite !existsb_app.
  assert (existsb (fun line => startsWith line (key +:+ " = "))
            (flat_map (fun ca => currencyLines (network (config srv)) ca.1 ca.2)
                      (assets (config srv))) = false) as ->.
  { apply existsb_flat_map_false. intros [code a].
    destruct a as [iss nm ds dd st dp wd].
    rewrite !elem_of_cons, elem_of_nil in Hk.
    destruct Hk as [->|[->|[->|[]]]]; destruct iss, dd; reflexivity. }
  assert (existsb (fun line => startsWith line (key +:+ " = "))
            match DOCUMENTATION (buildFromServer srv) with
            | Some d => documentationLines d
            | None => []
            end = false) as ->.
  { destruct (DOCUMENTATION (buildFromServer srv)) as [d|]; [|done].
    destruct d as [o1 o2 o3 o4 o5 o6 o7].
    rewrite !elem_of_cons, elem_of_nil in Hk.
    destruct Hk as [->|[->|[->|[]]]];
      destruct o1, o2, o3, o4, o5, o6, o7; reflexivity. }
  rewrite !elem_of_cons, elem_of_nil in Hk.
  destruct Hk as [->|[->|[->|[]]]]; simpl; by rewrite !orb_false_r.
Qed.

End KeyFacts.

(** The first render of a publisher reflects the mounted modules: the
    document has a [WEB_AUTH_ENDPOINT] line exactly when SEP-10 is mounted,
    a [TRANSFER_SERVER_SEP0024] line exactly when SEP-24 is, and a
    [TRANSFER_SERVER] line exactly when SEP-6 is, whatever the domain, the
    documentation block and the assets are. *)
Theorem first_render_has_keys_of_mounted_modules (srv : Server.AnchorServer) :
  let doc := (Toml.render srv Toml.newPublisher).1 in
  Toml.hasKey doc "WEB_AUTH_ENDPOINT" = Toml.mounted srv Server.sep10
  ∧ Toml.hasKey doc "TRANSFER_SERVER_SEP0024"
    = Toml.mounted srv Server.sep24
  ∧ Toml.hasKey doc "TRANSFER_SERVER" = Toml.mounted srv Server.sep6.
Proof.
  intros doc. subst doc. unfold Toml.hasKey.
  change (Js.split Toml.newline ?d) with (Spec2.docLines d).
  rewrite render_docLines.
  rewrite !endpoint_key_elsewhere
    by (rewrite !elem_of_cons; tauto).
  rewrite endpointLines_buildFromServer. cbv zeta.
  destruct (Toml.mounted srv Server.sep10), (Toml.mounted srv Server.sep24),
    (Toml.mounted srv Server.sep6); repeat split; reflexivity.
Qed.

Section CacheFacts.
Import Js Server Toml Spec2.

Lemma truthy_app_nonempty a c b : truthy (a +:+ String c b) = true.
Proof. by destruct a. Qed.

Lemma stringifyToml_truthy srv s : truthy (stringifyToml srv s) = true.
Proof. unfold stringifyToml, joinLines, str1. apply truthy_app_nonempty. Qed.

Lemma filter_flat_map_length {A B} (f : B → bool) (g : A → list B) l :
  (∀ x, List.length (List.filter f (g x)) = 1%nat) →
  List.length (List.filter f (flat_map g l)) = List.length l.
Proof.
  intros H. induction l as [|x l IH]; simpl; [done|].
  by rewrite List.filter_app, List.length_app, H, IH.
Qed.

End CacheFacts.

(** Whatever a publisher has rendered once it renders again, for any
    state of the server, until [invalidateCache] is called; after that the
    next render is computed from the server as it then is. *)
Theorem render_is_cached_until_invalidated
    (srv : Server.AnchorServer) (p : Toml.TomlPublisher) :
  (∀ srv2,
     Toml.render srv2 (Toml.render srv p).2
     = ((Toml.render srv p).1, (Toml.render srv p).2))
  ∧ (∀ srv2,
       Toml.render srv2 (Toml.invalidateCache (Toml.render srv p).2)
       = (Toml.stringifyToml srv2 (Toml.buildFromServer srv2),
          Toml.mkTomlPublisher
            (Some (Toml.stringifyToml srv2 (Toml.buildFromServer srv2))))).
Proof.
  split; [|done]. intros srv2.
  assert (Toml.cachedToml (Toml.render srv p).2
          = Some (Toml.render srv p).1
          ∧ Js.truthy (Toml.render srv p).1 = true) as [Hc Ht].
  { unfold Toml.render.
    destruct (Js.truthy_opt (Toml.cachedToml p)) eqn:Hp.
    - cbn [fst snd]. destruct (Toml.cachedToml p) as [d|] eqn:Hd; [|done].
      split; [done | exact Hp].
    - cbn [fst snd Toml.cachedToml]. split; [done|].
      apply stringifyToml_truthy. }
  by apply render_cached.
Qed.

(** The first render has exactly one [[[CURRENCIES]]] line per configured
    asset. *)
Theorem first_render_has_one_section_per_asset (srv : Server.AnchorServer) :
  List.length
    (List.filter (fun line => String.eqb line "[[CURRENCIES]]")
       (Spec2.docLines (Toml.render srv Toml.newPublisher).1))
  = List.length (Server.assets (Server.config srv)).
Proof.
  rewrite render_docLines. unfold Toml.tomlLines.
  rewrite !List.filter_app, !List.length_app.
  rewrite endpointLines_buildFromServer. cbv zeta.
  rewrite filter_flat_map_length.
  - assert (List.filter (fun line => String.eqb line "[[CURRENCIES]]")
              match Toml.DOCUMENTATION (Toml.buildFromServer srv) with
              | Some d => Toml.documentationLines d
              | None => []
              end = []) as ->.
    { destruct (Toml.DOCUMENTATION (Toml.buildFromServer srv)) as [d|];
        [|done].
      destruct d as [o1 o2 o3 o4 o5 o6 o7].
      destruct o1, o2, o3, o4, o5, o6, o7; reflexivity. }
    destruct (Toml.mounted srv Server.sep10),
      (Toml.mounted srv Server.sep24), (Toml.mounted srv Server.sep6);
      simpl; lia.
  - intros [code a]. destruct a as [iss nm ds dd st dp wd].
    destruct iss, dd; reflexivity.
Qed.

(** ** anchor-server.ts *)

Section ConfigFacts.
Import Js Errors Server Config.

Lemma truthy_iff s : truthy s = true ↔ s ≠ EmptyString.
Proof.
  unfold truthy. destruct (String.eqb_spec s EmptyString); simpl; split;
    congruence.
Qed.

Lemma str_length_truthy s : str_length s ≠ 0%nat → truthy s = true.
Proof. by destruct s. Qed.

Lemma parseNetwork_valid s :
  includes validNetworks s = true ↔ is_Some (parseNetwork s).
Proof.
  unfold includes, validNetworks, parseNetwork. simpl.
  rewrite !(String.eqb_sym s).
  destruct (String.eqb "public" s), (String.eqb "testnet" s),
    (String.eqb "futurenet" s), (String.eqb "standalone" s),
    (String.eqb "mainnet" s); simpl; split; intros H; try done; eauto;
    by destruct H.
Qed.

End ConfigFacts.

Lemma validateConfig_checks
    (validSecret : string -> bool) (c : Config.ConfigInput) :
  (Config.validateConfig validSecret c = Ok tt
   ↔ ∃ d s j a,
       Config.in_domain c = Some d
       ∧ Js.str_length (Js.trim d) ≠ 0%nat
       ∧ Config.in_secretKey c = Some s ∧ s ≠ EmptyString
       ∧ validSecret s = true
       ∧ Config.in_jwtSecret c = Some j ∧ (32 <= Js.str_length j)%nat
       ∧ Config.in_assets c = Some a ∧ a ≠ []
       ∧ Config.in_network c ∈ Config.validNetworks)
  ∧ (∀ e, Config.validateConfig validSecret c = Throw e →
          Errors.status e = 400 ∧ Errors.code e = "bad_request").
Proof.
  split.
  - unfold Config.validateConfig.
    remember (Js.includes Config.validNetworks (Config.in_network c))
      as inc eqn:Hinc.
    split.
    + destruct (Config.in_domain c) as [d|]; simpl; [|done].
      destruct (Js.truthy d) eqn:Hd; simpl; [|done].
      destruct (Js.str_length (Js.trim d) =? 0)%nat eqn:Ht; [done|].
      destruct (Config.in_secretKey c) as [s|]; simpl; [|done].
      destruct (Js.truthy s) eqn:Hs; simpl; [|done].
      destruct (validSecret s) eqn:Hv; simpl; [|done].
      destruct (Config.in_jwtSecret c) as [j|]; simpl; [|done].
      destruct (Js.truthy j) eqn:Hj; simpl; [|done].
      destruct (Js.str_length j <? 32)%nat eqn:Hl; [done|].
      destruct (Config.in_assets c) as [a|]; [|done].
      destruct (List.length a =? 0)%nat eqn:Ha; [done|].
      destruct inc; simpl; [|done]. symmetry in Hinc.
      intros _. exists d, s, j, a.
      split; [done|]. split; [by apply Nat.eqb_neq|].
      split; [done|]. split; [by apply truthy_iff|]. split; [done|].
      split; [done|]. split; [apply Nat.ltb_ge in Hl; exact Hl|].
      split; [done|]. split; [intros ->; discriminate Ha|].
      by apply includes_spec.
    + intros (d & s & j & a & -> & Hd & -> & Hs & Hv & -> & Hl & -> & Ha
              & Hn).
      simpl.
      assert (Js.truthy d = true) as ->.
      { destruct d; [by destruct Hd | done]. }
      apply Nat.eqb_neq in Hd. rewrite Hd.
      apply truthy_iff in Hs. rewrite Hs, Hv. simpl.
      assert (Js.truthy j = true) as ->.
      { apply str_length_truthy. lia. }
      apply Nat.ltb_ge in Hl. rewrite Hl. simpl.
      destruct a as [|x a]; [done|]. simpl.
      apply includes_spec in Hn. by rewrite Hinc, Hn.
  - intros e. unfold Config.validateConfig.
    repeat (match goal with
            | |- context [if ?b then _ else _] => destruct b
            end; [by intros [= <-]|]).
    done.
Qed.

(** The configuration check accepts exactly the configurations with a
    domain that [trim] does not empty, a non-empty secret key that the SDK
    accepts, a JWT secret of length at least 32, at least one asset and
    one of the five network names; every rejection is a [bad_request]
    error with status 400. *)
Theorem validateConfig_accepts_iff
    (validSecret : string -> bool) (c : Config.ConfigInput) :
  (Config.validateConfig validSecret c = Ok tt
   ↔ ∃ d s j a,
       Config.in_domain c = Some d
       ∧ Js.str_length (Js.trim d) ≠ 0%nat
       ∧ Config.in_secretKey c = Some s ∧ s ≠ EmptyString
       ∧ validSecret s = true
       ∧ Config.in_jwtSecret c = Some j ∧ (32 <= Js.str_length j)%nat
       ∧ Config.in_assets c = Some a ∧ a ≠ []
       ∧ Config.in_network c ∈ Config.validNetworks)
  ∧ (∀ e, Config.validateConfig validSecret c = Throw e →
          Errors.status e = 400 ∧ Errors.code e = "bad_request").
Proof. apply validateConfig_checks. Qed.

Lemma validateConfig_accepts_iff_witness :
  Config.validateConfig (fun s => String.prefix "S" s)
    (Config.mkConfigInput (Some "localhost:8000") (Some "SBRVW5")
       (Some "test-secret-key-minimum-32-characters-required-for-security")
       "testnet" (Some (Server.assets (Samples.sampleConfig "x"))) None)
  = Ok tt.
Proof.
  apply (validateConfig_accepts_iff (fun s => String.prefix "S" s)).
  eexists _, _, _, _. repeat split; try reflexivity; try done.
  - vm_compute. lia.
  - apply list_elem_of_further, list_elem_of_here.
Defined.

(** A domain of white space only is refused whatever the white space is:
    here a no-break space (U+00A0), an em space (U+2003) and a byte order
    mark (U+FEFF). *)
Example validateConfig_blank_domain :
  Config.validateConfig (fun s => String.prefix "S" s)
    (Config.mkConfigInput
       (Some (Js.bytes [194; 160; 226; 128; 131; 239; 187; 191]%nat))
       (Some "SBRVW5")
       (Some "test-secret-key-minimum-32-characters-required-for-security")
       "testnet" (Some (Server.assets (Samples.sampleConfig "x"))) None)
  = Throw (Errors.badRequest "domain is required").
Proof. vm_compute. reflexivity. Qed.

(** [trim] removes white space at both ends only, and [length] counts
    UTF-16 code units: one for a character of up to three bytes, two for a
    character of four. *)
Example trim_and_length_samples :
  Js.trim (Js.bytes [32; 226; 128; 131]%nat +:+ "a b"
           +:+ Js.bytes [239; 187; 191; 10]%nat) = "a b"
  ∧ Js.trim (Js.bytes [195; 160]%nat) = Js.bytes [195; 160]%nat
  ∧ Js.str_length (Js.bytes [195; 160]%nat) = 1%nat
  ∧ Js.str_length (Js.bytes [226; 130; 172]%nat) = 1%nat
  ∧ Js.str_length (Js.bytes [240; 159; 146; 169]%nat) = 2%nat.
Proof. vm_compute. repeat split. Qed.

(** The constructor succeeds exactly when the check passes; the server it
    returns keeps the configuration as given and has no module mounted. *)
Theorem construct_after_validateConfig
    (validSecret : string -> bool) (publicKeyOf : string -> string)
    (c : Config.ConfigInput) :
  isOk (Config.construct validSecret publicKeyOf c)
  = isOk (Config.validateConfig validSecret c)
  ∧ ∀ srv, Config.construct validSecret publicKeyOf c = Ok srv →
      Server.mountedModules srv = ∅
      ∧ Config.in_domain c = Some (Server.domain (Server.config srv))
      ∧ Config.in_jwtSecret c = Some (Server.jwtSecret (Server.config srv))
      ∧ Config.in_assets c = Some (Server.assets (Server.config srv))
      ∧ Config.parseNetwork (Config.in_network c)
        = Some (Server.network (Server.config srv))
      ∧ (32 <= Js.str_length (Server.jwtSecret (Server.config srv)))%nat
      ∧ Toml.mounted srv Server.sep10 = false
      ∧ Toml.mounted srv Server.sep24 = false
      ∧ Toml.mounted srv Server.sep6 = false.
Proof.
  unfold Config.construct.
  destruct (Config.validateConfig validSecret c) as [[]|e] eqn:Hv;
    [|split; done].
  apply validateConfig_checks in Hv
    as (d & s & j & a & Hd & _ & Hs & _ & _ & Hj & Hl & Ha & _ & Hn).
  apply includes_spec, parseNetwork_valid in Hn as [n Hn].
  rewrite Hn. split; [done|]. intros srv [= <-]. simpl.
  rewrite Hd, Hj, Ha. simpl. repeat split; done.
Qed.

(** Mounting only ever adds: after a mount that module is mounted, every
    module mounted before still is, and the configuration and public key
    are untouched.  [sep24] refuses to mount without an interactive URL,
    with a [bad_request] error, and then nothing is mounted. *)
Theorem mounting_accumulates
    (srv : Server.AnchorServer) (m m' : Server.MountedModule) :
  Toml.mounted (Server.mount m srv) m'
  = Toml.mounted srv m' || bool_decide (m = m')
  ∧ Server.config (Server.mount m srv) = Server.config srv
  ∧ Server.publicKey (Server.mount m srv) = Server.publicKey srv
  ∧ (∀ url,
       match Server.mount_sep24 url srv with
       | Ok srv' =>
           Js.truthy_opt url = true ∧ srv' = Server.mount Server.sep24 srv
       | Throw e =>
           Js.truthy_opt url = false
           ∧ Errors.status e = 400 ∧ Errors.code e = "bad_request"
       end).
Proof.
  split; [|split; [done|split; [done|]]].
  - unfold Toml.mounted, Server.mount. simpl.
    apply eq_true_iff_eq.
    rewrite orb_true_iff, !bool_decide_eq_true.
    rewrite elem_of_union, elem_of_singleton.
    split; intros [H|H]; subst; auto.
  - intros url. unfold Server.mount_sep24.
    by destruct (Js.truthy_opt url).
Qed.

(** ** The routes *)

Section RouteFacts.
Import Js Errors Transfers Sep24Service Http.

Variable toUpperCase : string -> string.
Variable url_build :
  string -> option string -> list (string * string) -> option string.

Lemma initiate_throws_plain cfg k w now nowTok newId newTok req e w' :
  initiate toUpperCase url_build cfg k w now nowTok
    newId newTok req = (Throw e, w') →
  ∃ m, e = PlainError m.
Proof.
  unfold initiate.
  destruct (negb _); [intros [= <- _]; eauto|].
  destruct (buildInteractiveUrl _ _ _ _); [|intros [= <- _]; eauto].
  unfold buildMoreInfoUrl.
  destruct (negb _); [intros [= <- _]; eauto|].
  destruct (url_build _ _ _); [done | intros [= <- _]; eauto].
Qed.

End RouteFacts.

(** The SEP-24 initiation routes.  An answer with status 200 means the
    transfer was stored under the new id in status [incomplete], of the
    kind of the route, and owned by the subject of the bearer token,
    whatever [account] the body names; its body carries that id and the
    interactive URL.  Any other answer is an error envelope with status
    400, and then nothing was stored. *)
Theorem sep24Initiate_outcome
    (toUpperCase : string -> string)
    (url_build :
       string -> option string -> list (string * string) -> option string)
    (isValidStellarAddress : string -> bool)
    (server : Server.AnchorServer) (k : Transfers.TransferKind)
    (w : Sep24Service.World) (now nowTok : Z) (newId newTok : string)
    (user : Auth.JwtPayload) (body : gmap string string) :
  let out :=
    Http.sep24Initiate toUpperCase url_build isValidStellarAddress
      server k w now nowTok
      newId newTok user body in
  (Errors.res_status out.1 = 200
   ∧ ∃ t url,
       Transfers.getById (Sep24Service.store out.2) newId = Some t
       ∧ Transfers.account t = Auth.sub user
       ∧ Transfers.kind t = k
       ∧ Transfers.status t = Transfers.INCOMPLETE
       ∧ body !! "asset_code" = Some (Transfers.assetCode t)
       ∧ Errors.res_body out.1
         = Errors.JsonBody
             [("type", Js.JString "interactive_customer_info_needed");
              ("id", Js.JString newId); ("url", Js.JString url)])
  ∨ (Errors.res_status out.1 = 400
     ∧ Errors.is_error_envelope out.1 = true
     ∧ out.2 = w).
Proof.
  intros out. subst out. unfold Http.sep24Initiate.
  destruct (body !! "asset_code") as [code|] eqn:Hcode; simpl.
  2:{ right. repeat split. }
  destruct (Js.truthy code); simpl. 2:{ right. repeat split. }
  destruct (_ && _). { right. repeat split. }
  destruct (Js.truthy (Auth.sub user)); simpl. 2:{ right. repeat split. }
  match goal with
  | |- context [let '(r, w') := ?X in _] =>
      destruct X as [[resp|e] w'] eqn:E
  end.
  - left. simpl. split; [done|].
    assert (∃ cfg req,
              Sep24Service.initiate toUpperCase url_build cfg k w now nowTok
                newId newTok
                req = (Ok resp, w')
              ∧ Transfers.r_account req = Auth.sub user
              ∧ Transfers.r_assetCode req = code)
      as (cfg & req & E' & Hacc & Has).
    { destruct k; eexists _, _; (split; [exact E|]); split; reflexivity. }
    apply initiate_Ok_inv in E'
      as (_ & iurl & murl & _ & _ & -> & t & _ & Hs & Hid & Hk & Hst & Hac
          & Hacct & _).
    exists t, iurl. rewrite Hs, <- Hid.
    split; [apply create_lookup|]. rewrite Hacct, Hac, Hacc, Has, Hid.
    repeat split; done.
  - right. simpl.
    assert (∃ cfg req,
              Sep24Service.initiate toUpperCase url_build cfg k w now nowTok
                newId newTok
                req = (Throw e, w')) as (cfg & req & E').
    { destruct k; eexists _, _; exact E. }
    destruct (initiate_throws_plain _ _ _ _ _ _ _ _ _ _ _ _ E') as [m ->].
    apply initiate_Throw_unchanged in E' as ->.
    repeat split.
Qed.

(** [POST /interactive/complete].  Without both parameters the answer is
    a [bad_request] and nothing changes.  For a valid pair the answer is
    200 and names the status the transfer now has.  For an unknown
    transfer the answer is 400 with the code ["error"]. *)
Theorem interactiveComplete_outcomes
    (w : Sep24Service.World) (now now' : Z) (body : gmap string string) :
  (Js.truthy_opt (body !! "transaction_id") = false
   ∨ Js.truthy_opt (body !! "token") = false →
   Http.interactiveComplete w now now' body
   = (Errors.mkResponse 400
        (Errors.JsonBody
           [("error", Js.JString "Missing transaction_id or token");
            ("code", Js.JString "bad_request")]), w))
  ∧ (∀ i tok t,
       body !! "transaction_id" = Some i → body !! "token" = Some tok →
       Js.truthy i = true → Js.truthy tok = true →
       Spec.validPair w now i tok t →
       ∃ w',
         Http.interactiveComplete w now now' body
         = (Errors.mkResponse 200
              (Errors.JsonBody
                 [("success", Js.JBool true);
                  ("status",
                   Js.JString
                     (Transfers.wire (Spec.expectedNextStatus t)));
                  ("message",
                   Js.JString "Interactive flow completed successfully")]),
            w')
         ∧ Transfers.status
             <$> Transfers.getById (Sep24Service.store w') i
           = Some (Spec.expectedNextStatus t))
  ∧ (∀ i tok,
       body !! "transaction_id" = Some i → body !! "token" = Some tok →
       Js.truthy i = true → Js.truthy tok = true →
       Transfers.getById (Sep24Service.store w) i = None →
       Http.interactiveComplete w now now' body
       = (Errors.mkResponse 400
            (Errors.JsonBody
               [("error", Js.JString ("Transfer " +:+ i +:+ " not found"));
                ("code", Js.JString "error")]), w)).
Proof.
  unfold Http.interactiveComplete. split; [|split].
  - intros [H|H]; rewrite H; simpl; [done|].
    by rewrite orb_true_r.
  - intros i tok t Hi Ht Hti Htt Hv. rewrite Hi, Ht. simpl.
    rewrite Hti, Htt. simpl.
    destruct (completeInteractive_valid w now now' i tok t Hv)
      as (t' & w' & Hc & Hget & _ & _ & Hst & _).
    unfold Sep24Service.TransferManager_completeInteractive. rewrite Hc.
    exists w'. rewrite Hst, Hget. simpl. by rewrite Hst.
  - intros i tok Hi Ht Hti Htt Hg. rewrite Hi, Ht. simpl.
    rewrite Hti, Htt. simpl.
    unfold Sep24Service.TransferManager_completeInteractive,
      Sep24Service.completeInteractive,
      Sep24Service.validateInteractiveToken.
    by rewrite Hg.
Qed.

Lemma interactiveComplete_outcomes_witness :
  (Http.interactiveComplete Samples.sampleWorld 2000 2001
     {[ "transaction_id" := "tx_1"; "token" := "tok_1" ]}).1
  = Errors.mkResponse 200
      (Errors.JsonBody
         [("success", Js.JBool true);
          ("status", Js.JString "pending_user_transfer_start");
          ("message",
           Js.JString "Interactive flow completed successfully")]).
Proof.
  destruct (interactiveComplete_outcomes Samples.sampleWorld 2000 2001
              {[ "transaction_id" := "tx_1"; "token" := "tok_1" ]})
    as (_ & H & _).
  destruct (H "tx_1" "tok_1"
              (Samples.sampleTransfer "tx_1" Transfers.deposit "USDC" 1000
                 (Some 1%positive)))
    as (w' & -> & _); try reflexivity.
  split; [reflexivity|]. exists Samples.sampleToken.
  repeat split; try reflexivity. simpl. lia.
Defined.

(** [GET /sep6/deposit] without a hook.  The answer is 200 exactly when
    the asset code is a configured key, letter for letter, whose deposit
    operation is enabled; then a transfer in status [incomplete], without
    an interactive token and owned by the token subject, is stored under
    the new id.  Every other answer is a [bad_request] with status 400 and
    stores nothing. *)
Theorem sep6Deposit_outcome
    (server : Server.AnchorServer) (w : Sep24Service.World) (now now2 : Z)
    (transactionId : string) (user : Auth.JwtPayload)
    (query : gmap string string) :
  let out := Http.sep6Deposit server None w now now2 transactionId user
                              query in
  (Errors.res_status out.1 = 200
   ∧ (∃ code a op,
        query !! "asset_code" = Some code
        ∧ Js.map_get (Server.assets (Server.config server)) code = Some a
        ∧ Server.asset_deposit a = Some op ∧ Server.enabled op = true)
   ∧ ∃ t,
       Transfers.getById (Sep24Service.store out.2) transactionId = Some t
       ∧ Transfers.account t = Auth.sub user
       ∧ Transfers.kind t = Transfers.deposit
       ∧ Transfers.status t = Transfers.INCOMPLETE
       ∧ Transfers.interactiveToken t = None)
  ∨ (Errors.res_status out.1 = 400
     ∧ (∃ msg, Errors.res_body out.1
               = Errors.JsonBody [("error", Js.JString msg);
                                  ("code", Js.JString "bad_request")])
     ∧ out.2 = w
     ∧ ¬ (∃ code a op,
            Js.truthy (Auth.sub user) = true ∧ Js.truthy code = true
            ∧ query !! "asset_code" = Some code
            ∧ Js.map_get (Server.assets (Server.config server)) code = Some a
            ∧ Server.asset_deposit a = Some op ∧ Server.enabled op = true)).
Proof.
  intros out. subst out. unfold Http.sep6Deposit.
  destruct (Js.truthy (Auth.sub user)) eqn:Hu; simpl.
  2:{ right. repeat split; eauto. intros (?&?&?&?&_); done. }
  destruct (query !! "asset_code") as [code|] eqn:Hc.
  2:{ right. repeat split; eauto. intros (?&?&?&_&_&?&_); done. }
  destruct (Js.truthy code) eqn:Ht; simpl.
  2:{ right. repeat split; eauto.
      intros (c&?&?&_&?&[= <-]&_). congruence. }
  unfold Js.prop_get.
  destruct (Js.map_get (Server.assets (Server.config server)) code)
    as [a|] eqn:Ha.
  2:{ right. destruct (existsb _ _); repeat split; eauto;
        intros (c&?&?&_&_&[= <-]&?&_); congruence. }
  destruct (Server.asset_deposit a) as [op|] eqn:Hop.
  2:{ right. repeat split; eauto.
      intros (c&a'&?&_&_&[= <-]&?&?&_). congruence. }
  destruct (Server.enabled op) eqn:He; simpl.
  2:{ right. repeat split; eauto.
      intros (c&a'&op'&_&_&[= <-]&?&?&?). congruence. }
  left. split; [done|]. split; [by exists code, a, op|].
  eexists. split; [apply create_lookup|]. repeat split.
Qed.

(** [POST /auth].  The answer is 200 with the minted token exactly when a
    transaction is given and [verifyChallenge] accepts it; otherwise it is
    an error envelope with status 400: a [bad_request] for a missing
    transaction, the code ["error"] for every verification failure.  The
    nonce registry is never changed by this route. *)
Theorem postChallenge_outcome
    (readChallengeTx : Z -> string -> result string Auth.ChallengeRead)
    (loadAccount : string -> option Auth.AccountData)
    (verifyChallengeTxSigners :
       Z -> string -> list string -> result string (list string))
    (jwt_sign : Auth.JwtPayload -> string -> string)
    (domain jwtSecret : string)
    (ns : Nonce.NonceStore) (now : Z) (transaction : option string) :
  let out :=
    Sep10Router.postChallenge readChallengeTx loadAccount
      verifyChallengeTxSigners jwt_sign domain jwtSecret ns now transaction in
  let verified tx :=
    (Auth.verifyChallenge readChallengeTx loadAccount
       verifyChallengeTxSigners jwt_sign domain jwtSecret ns now tx).1 in
  out.2 = ns
  ∧ match transaction with
    | Some tx =>
        if Js.truthy tx then
          match verified tx with
          | Ok r =>
              out.1 = Errors.mkResponse 200
                        (Errors.JsonBody
                           [("token", Js.JString (Auth.token r))])
          | Throw e =>
              ∃ msg, e = Errors.PlainError msg
                     ∧ out.1 = Errors.mkResponse 400
                                 (Errors.JsonBody
                                    [("error", Js.JString msg);
                                     ("code", Js.JString "error")])
          end
        else Errors.res_status out.1 = 400
             ∧ Errors.is_error_envelope out.1 = true
    | None =>
        out.1 = Errors.mkResponse 400
                  (Errors.JsonBody
                     [("error",
                       Js.JString "transaction body field is required");
                      ("code", Js.JString "bad_request")])
    end.
Proof.
  intros out verified. subst out verified.
  unfold Sep10Router.postChallenge.
  destruct transaction as [tx|]; simpl; [|done].
  destruct (Js.truthy tx); simpl; [|done].
  pose proof (verifyChallenge_keeps_store readChallengeTx loadAccount
                verifyChallengeTxSigners jwt_sign domain jwtSecret ns now tx)
    as Hk.
  destruct (Auth.verifyChallenge _ _ _ _ _ _ ns now tx) as [[r|e] ns'] eqn:E;
    simpl in *; subst ns'; split; try done.
  unfold Auth.verifyChallenge in E.
  repeat (match type of E with
          | context [match ?x with _ => _ end] => destruct x
          end; try discriminate E);
    injection E as <-; eexists; split; reflexivity.
Qed.

(** ** The status routes *)

Section StatusFacts.
Import Js Errors Transfers Sep24Service StatusRoutes Spec.

Lemma listed_in_store st acct opts t :
  t ∈ listByAccount st acct opts →
  t ∈ map_values (transfers st) ∧ account t = acct.
Proof.
  rewrite listByAccount_unfold. intros Hin.
  assert (t ∈ sort_desc (List.filter (matchesOptions acct opts)
                           (map_values (transfers st)))) as Hs.
  { unfold apply_limit in Hin. destruct (opts ≫= o_limit) as [n|]; [|done].
    destruct (0 <? n)%Z; [|done].
    apply elem_of_take in Hin as (i & Hi & _).
    by eapply list_elem_of_lookup_2. }
  rewrite sort_desc_Permutation in Hs.
  apply list_elem_of_In, filter_In in Hs as [Hin' Hm].
  split; [by apply list_elem_of_In|].
  unfold matchesOptions in Hm.
  apply andb_true_iff in Hm as [Hm _]. apply andb_true_iff in Hm as [Hm _].
  apply andb_true_iff in Hm as [Hm _]. by apply String.eqb_eq.
Qed.

End StatusFacts.

(** [GET /sep24/transactions] lists transfers of the token subject only:
    every entry of a 200 answer is the entry of a stored transfer owned by
    the subject, whatever the query says.  An entry has [status_eta] (with
    the value 3) exactly when the transfer is [incomplete]. *)
Theorem getTransactions_lists_only_the_subject
    (toISOString : Z -> string) (parseDate parseInt : string -> option Z)
    (server : Server.AnchorServer) (w : Sep24Service.World)
    (user : Auth.JwtPayload) (query : gmap string string) :
  match StatusRoutes.getTransactions toISOString parseDate parseInt server
          w user query with
  | (status, StatusRoutes.ManyTransactions entries) =>
      status = 200
      ∧ ∀ o, o ∈ entries →
          ∃ t, t ∈ Js.map_values
                     (Transfers.transfers (Sep24Service.store w))
               ∧ Transfers.account t = Auth.sub user
               ∧ o = StatusRoutes.transactionEntry toISOString server t
               ∧ Js.map_get o "id" = Some (Js.JString (Transfers.id t))
               ∧ Js.map_get o "status_eta"
                 = (if bool_decide (Transfers.status t = Transfers.INCOMPLETE)
                    then Some (Js.JNumber 3) else None)
  | (status, StatusRoutes.Plain r) =>
      status = 400 ∧ Errors.is_error_envelope r = true
  | (_, StatusRoutes.OneTransaction _) => False
  end.
Proof.
  unfold StatusRoutes.getTransactions.
  destruct (Js.truthy (Auth.sub user)); simpl; [|done].
  destruct (_ && _); [done|]. split; [done|].
  intros o Ho. apply list_elem_of_fmap in Ho as (t & -> & Ht).
  assert (t ∈ Js.map_values (Transfers.transfers (Sep24Service.store w))
          ∧ Transfers.account t = Auth.sub user) as [Hin Hacc].
  { unfold Sep24Service.TransferManager_getTransfersByAccount in Ht.
    lazymatch type of Ht with
    | _ ∈ match ?K with _ => _ end => destruct K as [[kd|]|]
    end;
      [ | by apply not_elem_of_nil in Ht | ];
      (destruct (query !! "no_older_than") as [text|];
       [destruct (parseDate text);
        [|by apply not_elem_of_nil in Ht]|]);
      by eapply listed_in_store. }
  exists t. split; [done|]. split; [done|]. split; [done|].
  split; [reflexivity|].
  unfold StatusRoutes.transactionEntry.
  destruct (Transfers.status t), (Transfers.amount t),
    (Transfers.completedAt t), (Transfers.stellarTransactionId t),
    (Transfers.externalTransactionId t), (Transfers.message t);
    reflexivity.
Qed.

(** [GET /sep24/transaction].  Without a usable parameter the answer is a
    400 [bad_request].  [id] takes precedence over the settlement ids: when
    it is given the answer is the stored transfer with that key or a 404,
    whatever the other parameters are.  Otherwise the Stellar transaction
    id is used, and only when that is absent too the external one: the
    answer is a stored transfer that carries the id asked for, or a 404
    exactly when no stored transfer carries it. *)
Theorem getTransaction_outcome
    (toISOString : Z -> string) (w : Sep24Service.World)
    (query : gmap string string) :
  let out := StatusRoutes.getTransaction toISOString w query in
  let st := Sep24Service.store w in
  let given name := Js.truthy_opt (query !! name) in
  let value name := default EmptyString (query !! name) in
  let notFound :=
    (404%Z,
     StatusRoutes.Plain
       (Errors.mkResponse 404
          (Errors.JsonBody
             [("error", Js.JString "Transaction not found");
              ("code", Js.JString "not_found")]))) in
  if given "id" then
    match Transfers.getById st (value "id") with
    | Some t =>
        out = (200%Z, StatusRoutes.OneTransaction
                        (StatusRoutes.formatStatusResponse toISOString t))
    | None => out = notFound
    end
  else if given "stellar_transaction_id" then
    (∃ t, t ∈ Js.map_values (Transfers.transfers st)
          ∧ Transfers.stellarTransactionId t
            = Some (value "stellar_transaction_id")
          ∧ out = (200%Z, StatusRoutes.OneTransaction
                            (StatusRoutes.formatStatusResponse toISOString t)))
    ∨ ((∀ t, t ∈ Js.map_values (Transfers.transfers st) →
             Transfers.stellarTransactionId t
             ≠ Some (value "stellar_transaction_id"))
       ∧ out = notFound)
  else if given "external_transaction_id" then
    (∃ t, t ∈ Js.map_values (Transfers.transfers st)
          ∧ Transfers.externalTransactionId t
            = Some (value "external_transaction_id")
          ∧ out = (200%Z, StatusRoutes.OneTransaction
                            (StatusRoutes.formatStatusResponse toISOString t)))
    ∨ ((∀ t, t ∈ Js.map_values (Transfers.transfers st) →
             Transfers.externalTransactionId t
             ≠ Some (value "external_transaction_id"))
       ∧ out = notFound)
  else
    out = (400%Z,
           StatusRoutes.Plain
             (Errors.mkResponse 400
                (Errors.JsonBody
                   [("error",
                     Js.JString
                       "Missing required parameter: id, stellar_transaction_id, or external_transaction_id");
                    ("code", Js.JString "bad_request")]))).
Proof.
  intros out st given value notFound. subst out given value notFound.
  unfold StatusRoutes.getTransaction.
  destruct (Js.truthy_opt (query !! "id")) eqn:Ei; cbn [negb andb].
  { unfold StatusRoutes.getStatus, Sep24Service.getTransfer. fold st.
    by destruct (Transfers.getById st _). }
  destruct (Js.truthy_opt (query !! "stellar_transaction_id")) eqn:Es;
    cbn [negb andb].
  { unfold StatusRoutes.getStatusByStellarTransactionId. fold st.
    destruct (lookup_by_settlement_id st
                (default EmptyString (query !! "stellar_transaction_id")))
      as (H1 & H2 & _).
    destruct (Transfers.getByStellarTransactionId st _) as [t|] eqn:E.
    - left. exists t. destruct (H1 t eq_refl). by repeat split.
    - right. split; [by apply H2 | reflexivity]. }
  destruct (Js.truthy_opt (query !! "external_transaction_id")) eqn:Ee;
    cbn [negb andb]; [|reflexivity].
  unfold StatusRoutes.getStatusByExternalTransactionId. fold st.
  destruct (lookup_by_settlement_id st
              (default EmptyString (query !! "external_transaction_id")))
    as (_ & _ & H1 & H2).
  destruct (Transfers.getByExternalTransactionId st _) as [t|] eqn:E.
  - left. exists t. destruct (H1 t eq_refl). by repeat split.
  - right. split; [by apply H2 | reflexivity].
Qed.

(** A name every object inherits, such as [constructor], is found by
    [config.assets[asset_code]] although it is no configured asset: the
    SEP-6 routes then refuse it as not enabled, and the SEP-24 listing
    accepts it as a filter, which no stored transfer passes here. *)
Example inherited_asset_key :
  let server := Samples.sampleServer "localhost:8000" in
  let user := Auth.mkJwtPayload "localhost:8000" Samples.account1 0 86400 in
  (Http.sep6Deposit server None Samples.sampleWorld 2000 2001 "tx_9" user
     {[ "asset_code" := "constructor" ]}).1
  = Errors.mkResponse 400
      (Errors.JsonBody
         [("error", Js.JString "Deposits are not enabled for constructor");
          ("code", Js.JString "bad_request")])
  ∧ (Http.sep6Withdraw server None Samples.sampleWorld 2000 2001 "tx_9"
       "12345" user
       {[ "asset_code" := "toString"; "type" := "bank_account" ]}).1
    = Errors.mkResponse 400
        (Errors.JsonBody
           [("error", Js.JString "Withdrawals are not enabled for toString");
            ("code", Js.JString "bad_request")])
  ∧ StatusRoutes.getTransactions (fun _ => EmptyString) (fun _ => None)
      (fun _ => None) server Samples.sampleWorld user
      {[ "asset_code" := "constructor" ]}
    = (200, StatusRoutes.ManyTransactions [])
  ∧ (StatusRoutes.getTransactions (fun _ => EmptyString) (fun _ => None)
       (fun _ => None) server Samples.sampleWorld user
       {[ "asset_code" := "EURC" ]}).1
    = 400.
Proof. vm_compute. repeat split. Qed.
